(** * CTI collection system: normalization, deduplicating store, collection cycle

  A shallow embedding of [normalization.py], [database.py] and
  [scheduler.py], and the properties of the normalization and upsert
  pipeline proved over it.

  Conventions of the embedding.
  - A Python [str] is a [string] with one [ascii] per code point, so the
    strings covered are those whose code points are below 256.
  - A Python [dict] with string keys is a [gmap string _].
  - The values of a record are [None], [bool], [int], [float], [str],
    [bytes] and objects of other types; a [float] and an object of another
    type are known by what the program can observe of them.
  - Code that may raise returns [result A]: [Ok v] or [Raise e].
  - The SQLite tables are lists of rows in rowid order.  A parameter of a
    statement is bound as [sqlite3] binds it (an [int] that does not fit
    in 64 bits raises [OverflowError]), and a column declared [TEXT] holds
    a text or a [BLOB], a number as its text. *)

From Stdlib Require Import ZArith Ascii String List Bool Lia DecimalString.
From stdpp Require Import base option gmap strings.

Import ListNotations.
Local Open Scope string_scope.
Local Open Scope list_scope.
Local Open Scope Z_scope.

(** ** Python string primitives *)

Module PyStr.

Definition code (a : ascii) : N := N_of_ascii a.

Definition in_range (lo hi : N) (a : ascii) : bool :=
  ((lo <=? code a) && (code a <=? hi))%N.

(** [str.isspace] on one code point below 256: TAB..CR, FS..US, space,
    NEL and NBSP. *)
Definition isspace (a : ascii) : bool :=
  in_range 9 13 a || in_range 28 32 a
  || (code a =? 133)%N || (code a =? 160)%N.

Fixpoint lstrip (s : string) : string :=
  match s with
  | EmptyString => EmptyString
  | String a r => if isspace a then lstrip r else s
  end.

Fixpoint rstrip (s : string) : string :=
  match s with
  | EmptyString => EmptyString
  | String a r =>
      match rstrip r with
      | EmptyString => if isspace a then EmptyString else String a EmptyString
      | r' => String a r'
      end
  end.

(** [s.strip()] *)
Definition strip (s : string) : string := rstrip (lstrip s).

(** [str.lower] on one code point below 256: A..Z and the Latin-1
    capitals (all of 0xC0..0xDE but the multiplication sign 0xD7) move
    up by 32. *)
Definition lower_char (a : ascii) : ascii :=
  if in_range 65 90 a || (in_range 192 222 a && negb (code a =? 215)%N)
  then ascii_of_N (code a + 32)
  else a.

Fixpoint lower (s : string) : string :=
  match s with
  | EmptyString => EmptyString
  | String a r => String (lower_char a) (lower r)
  end.

(** [s.startswith(p)] *)
Definition startswith (s p : string) : bool := String.prefix p s.

(** [c in s] for a one-character [c] *)
Fixpoint contains (c : ascii) (s : string) : bool :=
  match s with
  | EmptyString => false
  | String a r => Ascii.eqb a c || contains c r
  end.

(** [all(p(c) for c in s)] *)
Fixpoint all_chars (p : ascii -> bool) (s : string) : bool :=
  match s with
  | EmptyString => true
  | String a r => p a && all_chars p r
  end.

(** [len(s)] *)
Definition len (s : string) : Z := Z.of_nat (String.length s).

(** [a < b] on strings: lexicographic on code points. *)
Definition lt (a b : string) : bool := String.ltb a b.

(** [max(a, b)]: the first argument unless the second is greater. *)
Definition max (a b : string) : string := if lt a b then b else a.

(** [a <= b] *)
Definition le (a b : string) : bool := String.leb a b.

End PyStr.

(** ** Regular expressions, as used through [re.compile(p).match(s)] *)

Module Re.

Inductive regex : Type :=
| Void : regex
| Eps : regex
| Class (p : ascii -> bool) : regex
| Cat (r1 r2 : regex) : regex
| Alt (r1 r2 : regex) : regex
| Star (r : regex) : regex.

Definition Chr (c : ascii) : regex := Class (Ascii.eqb c).

(** [r+] *)
Definition Plus (r : regex) : regex := Cat r (Star r).

(** [r{n}] *)
Fixpoint Rep (n : nat) (r : regex) : regex :=
  match n with
  | O => Eps
  | S k => Cat r (Rep k r)
  end.

(** [r{n,}] *)
Definition AtLeast (n : nat) (r : regex) : regex := Cat (Rep n r) (Star r).

Fixpoint nullable (r : regex) : bool :=
  match r with
  | Void => false
  | Eps => true
  | Class _ => false
  | Cat r1 r2 => nullable r1 && nullable r2
  | Alt r1 r2 => nullable r1 || nullable r2
  | Star _ => true
  end.

Fixpoint deriv (a : ascii) (r : regex) : regex :=
  match r with
  | Void => Void
  | Eps => Void
  | Class p => if p a then Eps else Void
  | Cat r1 r2 =>
      if nullable r1
      then Alt (Cat (deriv a r1) r2) (deriv a r2)
      else Cat (deriv a r1) r2
  | Alt r1 r2 => Alt (deriv a r1) (deriv a r2)
  | Star r1 => Cat (deriv a r1) (Star r1)
  end.

(** The whole of [s] is in the language of [r]. *)
Fixpoint accepts (r : regex) (s : string) : bool :=
  match s with
  | EmptyString => nullable r
  | String a s' => accepts (deriv a r) s'
  end.

(** The language of [r], as a relation; [accepts] decides it. *)
Inductive lang : regex -> string -> Prop :=
| lang_eps : lang Eps EmptyString
| lang_class (p : ascii -> bool) (a : ascii) :
    p a = true -> lang (Class p) (String a EmptyString)
| lang_cat (r1 r2 : regex) (s1 s2 : string) :
    lang r1 s1 -> lang r2 s2 -> lang (Cat r1 r2) (s1 +:+ s2)
| lang_alt_l (r1 r2 : regex) (s : string) : lang r1 s -> lang (Alt r1 r2) s
| lang_alt_r (r1 r2 : regex) (s : string) : lang r2 s -> lang (Alt r1 r2) s
| lang_star_nil (r : regex) : lang (Star r) EmptyString
| lang_star_cons (r : regex) (s1 s2 : string) :
    lang r s1 -> lang (Star r) s2 -> lang (Star r) (s1 +:+ s2).

(** [s] without a final line feed, when it has one. *)
Fixpoint chop_newline (s : string) : option string :=
  match s with
  | EmptyString => None
  | String a EmptyString => if Ascii.eqb a "010" then Some EmptyString else None
  | String a r => option_map (String a) (chop_newline r)
  end.

(** [re.compile('^' r '$').match(s) is not None]: the pattern is anchored
    at both ends, and [$] also matches just before a line feed that ends
    the string. *)
Definition match_anchored (r : regex) (s : string) : bool :=
  accepts r s ||
  match chop_newline s with
  | Some s' => accepts r s'
  | None => false
  end.

End Re.

(** ** normalization.py: [IoCNormalizer] *)

(** The [ipaddress] module of the platform: [ip_address s] is the address
  object parsed from [s], or [None] where [ipaddress.ip_address(s)] raises
  [ValueError]; [ip_str a] is [str(a)]. *)
Class IpAddress : Type := {
ipaddr : Type;
ip_address : string -> option ipaddr;
ip_str : ipaddr -> string
}.

Module IoCNormalizer.
Section WithPlatform.

Context {platform : IpAddress}.

Definition is_hexdigit (a : ascii) : bool :=
  PyStr.in_range 97 102 a || PyStr.in_range 65 70 a || PyStr.in_range 48 57 a.

Definition is_alpha (a : ascii) : bool :=
  PyStr.in_range 97 122 a || PyStr.in_range 65 90 a.

Definition is_alnum (a : ascii) : bool :=
  is_alpha a || PyStr.in_range 48 57 a.

(** [self.hash_patterns], in insertion order: md5, sha1, sha256. *)
Definition hash_patterns : list (string * Re.regex) :=
  [ ("md5", Re.Rep 32 (Re.Class is_hexdigit));
    ("sha1", Re.Rep 40 (Re.Class is_hexdigit));
    ("sha256", Re.Rep 64 (Re.Class is_hexdigit)) ].

(** [[a-zA-Z0-9._%+-]] *)
Definition email_local_char (a : ascii) : bool :=
  is_alnum a || Ascii.eqb a "." || Ascii.eqb a "_" || Ascii.eqb a "%"
  || Ascii.eqb a "+" || Ascii.eqb a "-".

(** [[a-zA-Z0-9.-]] *)
Definition email_domain_char (a : ascii) : bool :=
  is_alnum a || Ascii.eqb a "." || Ascii.eqb a "-".

(** [^[a-zA-Z0-9._%+-]+@[a-zA-Z0-9.-]+\.[a-zA-Z]{2,}$] *)
Definition email_pattern : Re.regex :=
  Re.Cat (Re.Plus (Re.Class email_local_char))
    (Re.Cat (Re.Chr "@")
       (Re.Cat (Re.Plus (Re.Class email_domain_char))
          (Re.Cat (Re.Chr ".") (Re.AtLeast 2 (Re.Class is_alpha))))).

Definition is_ip (value : string) : bool :=
  match ip_address (PyStr.strip value) with
  | Some _ => true
  | None => false
  end.

Definition is_hash (value : string) : bool :=
  let value := PyStr.strip value in
  existsb (fun p => Re.match_anchored (snd p) value) hash_patterns.

Definition is_url (value : string) : bool :=
  let value := PyStr.strip value in
  PyStr.startswith value "http://" || PyStr.startswith value "https://".

Definition is_domain (value : string) : bool :=
  let value := PyStr.strip value in
  if is_url value || is_ip value then false
  else PyStr.contains "." value && (PyStr.len value <=? 253)
       && negb (PyStr.startswith value ".").

Definition is_email (value : string) : bool :=
  let value := PyStr.strip value in
  Re.match_anchored email_pattern value.

Definition detect_type (value : string) : string :=
  if String.eqb value EmptyString then "Unknown"
  else if is_ip value then "IP"
  else if is_hash value then "Hash"
  else if is_url value then "URL"
  else if is_email value then "Email"
  else if is_domain value then "Domain"
  else "Unknown".

(** The rules of the classifier as the specification lists them, in
    their order of precedence, and the type of the first rule that
    matches. *)
Definition classifier_rules : list ((string -> bool) * string) :=
  [ (is_ip, "IP"); (is_hash, "Hash"); (is_url, "URL"); (is_email, "Email");
    (is_domain, "Domain") ].

Definition first_matching_rule (value : string) : string :=
  match find (fun rule => fst rule value) classifier_rules with
  | Some rule => snd rule
  | None => "Unknown"
  end.

Definition normalize_indicator (indicator : string) : string :=
  let indicator := PyStr.strip indicator in
  if is_url indicator then PyStr.lower indicator
  else if is_domain indicator then PyStr.lower indicator
  else if is_hash indicator then PyStr.lower indicator
  else if is_ip indicator then
    match ip_address indicator with
    | Some a => ip_str a
    | None => indicator
    end
  else indicator.

End WithPlatform.
End IoCNormalizer.

(** ** What the program relies on from [ipaddress]

    Facts about the text that [ipaddress.ip_address] accepts and about the
    text [str] gives back, which hold of the IPv4 and IPv6 literals of the
    platform library. *)

Section PlatformLaws.

Context (platform : IpAddress).

(** An IPv4 literal has dots and an IPv6 literal has colons. *)
Definition ip_literal_has_separator : Prop :=
  forall s a, ip_address s = Some a ->
    PyStr.contains "." s = true \/ PyStr.contains ":" s = true.

(** A literal starts with a hexadecimal digit or with a colon. *)
Definition ip_literal_first_char : Prop :=
  forall s a, ip_address s = Some a ->
    exists c r, s = String c r /\ (IoCNormalizer.is_hexdigit c = true \/ c = ":"%char).

(** The text of an address is a literal of an address with the same text. *)
Definition ip_str_reparses : Prop :=
  forall s a, ip_address s = Some a ->
    exists a', ip_address (ip_str a) = Some a' /\ ip_str a' = ip_str a.

(** The text of an address parsed from a trimmed literal is trimmed. *)
Definition ip_str_trimmed : Prop :=
  forall s a, ip_address s = Some a -> PyStr.strip s = s ->
    PyStr.strip (ip_str a) = ip_str a.

(** Whether a text is a literal does not depend on the case of its
    letters. *)
Definition ip_literal_any_case : Prop :=
  forall s a, ip_address (PyStr.lower s) = Some a -> exists a', ip_address s = Some a'.

Record IpAddressLaws : Prop := {
law_separator : ip_literal_has_separator;
law_first_char : ip_literal_first_char;
law_reparses : ip_str_reparses;
law_trimmed : ip_str_trimmed;
law_any_case : ip_literal_any_case
}.

End PlatformLaws.

(** ** A reference platform: the IPv4 literals of [ipaddress]

    [IPv4Address(s)] as the platform library parses it: four octets
    separated by dots, each of one to three ASCII digits, without a leading
    zero unless it is ["0"], and at most 255.  The address is kept as its
    four octets; its text joins their decimal forms with dots. *)

Module IPv4.

(** [s.split('.')] *)
Fixpoint split_dots (s : string) : list string :=
  match s with
  | EmptyString => [EmptyString]
  | String a r =>
      if Ascii.eqb a "."
      then EmptyString :: split_dots r
      else match split_dots r with
           | p :: ps => String a p :: ps
           | [] => [String a EmptyString]
           end
  end.

Definition is_digit (a : ascii) : bool := PyStr.in_range 48 57 a.

(** [int(s, 10)] for a string of ASCII digits, from the value [acc] of the
    digits already read. *)
Fixpoint decimal_value (acc : N) (s : string) : N :=
  match s with
  | EmptyString => acc
  | String a r => decimal_value (10 * acc + (PyStr.code a - 48)) r
  end.

(** [_parse_octet] *)
Definition parse_octet (octet_str : string) : option N :=
  match octet_str with
  | EmptyString => None
  | String first _ =>
      if negb (PyStr.all_chars is_digit octet_str) then None
      else if (3 <? String.length octet_str)%nat then None
      else if negb (String.eqb octet_str "0") && Ascii.eqb first "0" then None
      else
        let octet_int := decimal_value 0 octet_str in
        if (255 <? octet_int)%N then None else Some octet_int
  end.

Fixpoint parse_octets (octets : list string) : option (list N) :=
  match octets with
  | [] => Some []
  | o :: rest =>
      match parse_octet o, parse_octets rest with
      | Some n, Some ns => Some (n :: ns)
      | _, _ => None
      end
  end.

Definition parse (s : string) : option (list N) :=
  let octets := split_dots s in
  if (length octets =? 4)%nat then parse_octets octets else None.

Definition digit_char (n : N) : ascii := ascii_of_N (48 + n).

(** [str(n)] for an octet. *)
Definition octet_str (n : N) : string :=
  if (n <? 10)%N then String (digit_char n) EmptyString
  else if (n <? 100)%N then
    String (digit_char (n / 10)) (String (digit_char (n mod 10)) EmptyString)
  else
    String (digit_char (n / 100))
      (String (digit_char (n / 10 mod 10)) (String (digit_char (n mod 10)) EmptyString)).

Definition to_str (octets : list N) : string :=
  String.concat "." (map octet_str octets).

Definition digit_or_dot (a : ascii) : bool := is_digit a || Ascii.eqb a ".".

(** What is checked of each octet [n], by going through all 256: its text
    parses back to [n], has no dot and has no white space. *)
Definition octet_ok (n : N) : bool :=
  match parse_octet (octet_str n) with
  | Some m => (m =? n)%N
  | None => false
  end
  && negb (PyStr.contains "." (octet_str n))
  && PyStr.all_chars (fun a => negb (PyStr.isspace a)) (octet_str n).

#[export] Instance platform : IpAddress := {|
  ipaddr := list N;
  ip_address := parse;
  ip_str := to_str
|}.

End IPv4.

(** ** Python values, exceptions and dictionaries *)

(** A [float] is known by what this program can observe of it: its truth
    value, the text [json.dumps] gives for it, and the text that a column of
    SQLite with [TEXT] affinity holds for it, or [None] for a NaN, which
    SQLite stores as [NULL]. *)
Record pyfloat : Type := {
float_truth : bool;
float_json : string;
float_text : option string
}.

(** An object of a type that [sqlite3] does not bind (a [dict], a [list], a
    [set], ...) is known by its truth value and by the text [json.dumps]
    gives for it, or [None] where [json.dumps] raises [TypeError]. *)
Record pyobject : Type := {
obj_truth : bool;
obj_json : option string
}.

(** The values of a record: [None], [bool], [int], [float], [str], [bytes]
    (the contents one [ascii] per byte), and the objects of the other
    types. *)
Inductive pyval : Type :=
| PyNone : pyval
| PyBool (b : bool) : pyval
| PyInt (z : Z) : pyval
| PyFloat (f : pyfloat) : pyval
| PyStr (s : string) : pyval
| PyBytes (b : string) : pyval
| PyObj (o : pyobject) : pyval.

(** [str(z)] of an [int]: its decimal text. *)
Definition decimal (z : Z) : string := NilZero.string_of_int (Z.to_int z).

(** The empty [dict], [{}]. *)
Definition empty_dict : pyval := PyObj {| obj_truth := false; obj_json := Some "{}" |}.

Inductive exn : Type :=
| KeyError (key : string) : exn
| TypeError : exn
| IntegrityError : exn
| ProgrammingError : exn
| OverflowError : exn.

Inductive result (A : Type) : Type :=
| Ok (v : A) : result A
| Raise (e : exn) : result A.

Arguments Ok {A} v.
Arguments Raise {A} e.

Definition bind {A B : Type} (m : result A) (k : A -> result B) : result B :=
  match m with
  | Ok v => k v
  | Raise e => Raise e
  end.

Notation "'let*' x := m 'in' k" := (bind m (fun x => k))
  (at level 10, x name, m at level 200, k at level 200).

(** A Python [dict] with string keys. *)
Abbreviation pydict := (gmap string pyval).

(** [d[k]] *)
Definition getitem (d : pydict) (k : string) : result pyval :=
  match d !! k with
  | Some v => Ok v
  | None => Raise (KeyError k)
  end.

(** [d.get(k, default)] *)
Definition dict_get (d : pydict) (k : string) (default : pyval) : pyval :=
  match d !! k with
  | Some v => v
  | None => default
  end.

(** [k in d] *)
Definition dict_contains (d : pydict) (k : string) : bool :=
  match d !! k with
  | Some _ => true
  | None => false
  end.

(** [bool(v)] *)
Definition truth (v : pyval) : bool :=
  match v with
  | PyNone => false
  | PyBool b => b
  | PyInt z => negb (z =? 0)
  | PyFloat f => float_truth f
  | PyStr s => negb (String.eqb s EmptyString)
  | PyBytes b => negb (String.eqb b EmptyString)
  | PyObj o => obj_truth o
  end.

(** [a or b] *)
Definition py_or (a b : pyval) : pyval := if truth a then a else b.

Module Json.

Definition hex_digit (n : N) : ascii :=
  if (n <? 10)%N then ascii_of_N (48 + n) else ascii_of_N (87 + n).

Definition backslash : ascii := ascii_of_N 92.
Definition quote : ascii := ascii_of_N 34.

Definition short_escape (c : ascii) : string := String backslash (String c EmptyString).

(** The escape of one code point below 256 in [json.dumps] with
    [ensure_ascii]: the short escapes, and [\u00xx] for every other code
    point outside [' '..'~']. *)
Definition escape (a : ascii) : string :=
  let n := PyStr.code a in
  if (n =? 92)%N then short_escape backslash
  else if (n =? 34)%N then short_escape quote
  else if (n =? 8)%N then short_escape "b"
  else if (n =? 12)%N then short_escape "f"
  else if (n =? 10)%N then short_escape "n"
  else if (n =? 13)%N then short_escape "r"
  else if (n =? 9)%N then short_escape "t"
  else if PyStr.in_range 32 126 a then String a EmptyString
  else String backslash
         ("u00" +:+ String (hex_digit (n / 16)) (String (hex_digit (n mod 16)) EmptyString)).

Fixpoint escape_all (s : string) : string :=
  match s with
  | EmptyString => EmptyString
  | String a r => escape a +:+ escape_all r
  end.

(** [json.dumps(v)]; [None] where it raises [TypeError]. *)
Definition dumps (v : pyval) : option string :=
  match v with
  | PyNone => Some "null"
  | PyBool b => Some (if b then "true" else "false")
  | PyInt z => Some (decimal z)
  | PyFloat f => Some (float_json f)
  | PyStr s => Some (String quote (escape_all s +:+ String quote EmptyString))
  | PyBytes _ => None
  | PyObj o => obj_json o
  end.

End Json.

(** ** normalization.py: records *)

Module IoCRecord.
Section WithPlatform.

Context {platform : IpAddress}.

(** [normalize_ioc]; [now] is what [_get_timestamp()] returns, the current
    UTC time in ISO-8601 text. *)
Definition normalize_ioc (now : string) (raw_indicator source confidence threat_level : string)
    (metadata : pyval) : pydict :=
  let normalized_indicator := IoCNormalizer.normalize_indicator raw_indicator in
  let ioc_type := IoCNormalizer.detect_type normalized_indicator in
  list_to_map
    [ ("indicator", PyStr normalized_indicator);
      ("type", PyStr ioc_type);
      ("source", PyStr source);
      ("confidence", PyStr confidence);
      ("threat_level", PyStr threat_level);
      ("metadata", py_or metadata empty_dict);
      ("date_collected", PyStr now) ].

End WithPlatform.

Definition required_fields : list string := ["indicator"; "type"; "source"].

(** [validate_ioc]: [all(field in ioc for field in required_fields)] *)
Definition validate_ioc (ioc : pydict) : bool :=
  forallb (fun field => dict_contains ioc field) required_fields.

(** The field [k] of [ioc] is not empty: the key is there and its value is
    true as a condition (neither [None] nor an empty text or container). *)
Definition field_non_empty (ioc : pydict) (k : string) : Prop :=
  exists v, ioc !! k = Some v /\ truth v = true.

End IoCRecord.

(** ** database.py: [CTIDatabase] *)

Module CTIDatabase.

(** A value of SQLite as a parameter of a statement.  A [REAL] is known by
    the text SQLite gives for it. *)
Inductive sqlval : Type :=
| SqlNull : sqlval
| SqlInteger (z : Z) : sqlval
| SqlReal (text : string) : sqlval
| SqlText (s : string) : sqlval
| SqlBlob (b : string) : sqlval.

(** What a column declared [TEXT] holds when it is not [NULL]: a text, or
    the bytes of a [BLOB]. *)
Inductive textval : Type :=
| Text (s : string) : textval
| Blob (b : string) : textval.

(** [TEXT] affinity, applied to a value stored in a column declared [TEXT]
    and to a value compared with such a column: a number becomes its text;
    [None] is [NULL]. *)
Definition text_affinity (v : sqlval) : option textval :=
  match v with
  | SqlNull => None
  | SqlInteger z => Some (Text (decimal z))
  | SqlReal text => Some (Text text)
  | SqlText s => Some (Text s)
  | SqlBlob b => Some (Blob b)
  end.

#[export] Instance textval_eq_dec : EqDecision textval := ltac:(solve_decision).

#[export] Instance textval_countable : Countable textval :=
  inj_countable'
    (fun v => match v with Text s => inl s | Blob b => inr b end)
    (fun x => match x with inl s => Text s | inr b => Blob b end)
    (fun v => match v with Text _ => eq_refl | Blob _ => eq_refl end).

Definition textval_eqb (a b : textval) : bool :=
  match a, b with
  | Text x, Text y => String.eqb x y
  | Blob x, Blob y => String.eqb x y
  | _, _ => false
  end.

(** The order of SQLite on the values of such a column: texts before
    blobs, and each kind by its bytes. *)
Definition textval_le (a b : textval) : bool :=
  match a, b with
  | Text x, Text y => PyStr.le x y
  | Blob x, Blob y => PyStr.le x y
  | Text _, Blob _ => true
  | Blob _, Text _ => false
  end.

(** A row of table [iocs].  The columns declared [TEXT NOT NULL] hold a
    value, the other [TEXT] columns an [option] whose [None] is SQL [NULL],
    and [seen_count] an integer.  Column [created_at] is filled by its
    default and is neither read nor written by the program; it is left
    out. *)
Record ioc_row : Type := {
indicator : textval;
type_ : textval;
source : textval;
first_seen : textval;
last_seen : textval;
seen_count : Z;
confidence : option textval;
threat_level : option textval;
metadata : option textval
}.

(** A row of table [collection_logs], without the automatic [id] (the
    position in the table) and [created_at]. *)
Record log_row : Type := {
log_source : string;
collection_time : string;
iocs_processed : Z;
iocs_new : Z;
iocs_updated : Z;
log_errors : option string;
status : string
}.

(** The two tables as seen through the connection [self.conn]. *)
Record database : Type := {
iocs : list ioc_row;
collection_logs : list log_row
}.

(** The tables right after [setup_schema] on a new file. *)
Definition empty_database : database := {| iocs := []; collection_logs := [] |}.

(** The dictionary [stats]. *)
Record stats : Type := {
processed : Z;
new : Z;
updated : Z;
errors : Z
}.

Definition zero_stats : stats := {| processed := 0; new := 0; updated := 0; errors := 0 |}.

Definition incr_processed (s : stats) : stats :=
  {| processed := processed s + 1; new := new s; updated := updated s; errors := errors s |}.

Definition incr_new (s : stats) : stats :=
  {| processed := processed s; new := new s + 1; updated := updated s; errors := errors s |}.

Definition incr_updated (s : stats) : stats :=
  {| processed := processed s; new := new s; updated := updated s + 1; errors := errors s |}.

Definition incr_errors (s : stats) : stats :=
  {| processed := processed s; new := new s; updated := updated s; errors := errors s + 1 |}.

(** *** The SQL statements *)

(** The integers of SQLite are those of 64 bits. *)
Definition min_int64 : Z := -9223372036854775808.
Definition max_int64 : Z := 9223372036854775807.

(** Binding a Python [int]: one that does not fit in 64 bits raises
    [OverflowError]. *)
Definition bind_int (z : Z) : result Z :=
  if (min_int64 <=? z) && (z <=? max_int64) then Ok z else Raise OverflowError.

(** Binding one parameter of a statement: [None] is [NULL], a [bool] is the
    integer 0 or 1, an [int] an [INTEGER], a [float] a [REAL] ([NULL] for a
    NaN), a [str] a [TEXT], [bytes] a [BLOB], and an object of another type
    is refused. *)
Definition sql_bind (v : pyval) : result sqlval :=
  match v with
  | PyNone => Ok SqlNull
  | PyBool b => Ok (SqlInteger (if b then 1 else 0))
  | PyInt z => let* z := bind_int z in Ok (SqlInteger z)
  | PyFloat f =>
      match float_text f with
      | Some text => Ok (SqlReal text)
      | None => Ok SqlNull
      end
  | PyStr s => Ok (SqlText s)
  | PyBytes b => Ok (SqlBlob b)
  | PyObj _ => Raise ProgrammingError
  end.

(** [WHERE indicator=? AND type=?] on one row, for parameters that are not
    [NULL], after the affinity of the columns has been applied to them. *)
Definition key_matches (i ty : textval) (r : ioc_row) : bool :=
  textval_eqb (indicator r) i && textval_eqb (type_ r) ty.

(** A value read from a [TEXT] column: a [str], or [bytes] for a [BLOB]. *)
Definition fetched_value (v : textval) : pyval :=
  match v with
  | Text s => PyStr s
  | Blob b => PyBytes b
  end.

(** [SELECT first_seen, last_seen, seen_count FROM iocs WHERE indicator=?
    AND type=?] followed by [fetchone()].  A comparison with [NULL] selects
    no row. *)
Definition select_ioc (t : list ioc_row) (i ty : sqlval) : option (pyval * pyval * Z) :=
  match text_affinity i, text_affinity ty with
  | Some i, Some ty =>
      match find (key_matches i ty) t with
      | Some r => Some (fetched_value (first_seen r), fetched_value (last_seen r), seen_count r)
      | None => None
      end
  | _, _ => None
  end.

(** [INSERT INTO iocs (...) VALUES (?, ?, ?, ?, ?, ?, ?, ?, ?)].  The table
    refuses [NULL] in a [NOT NULL] column and a second row with the same
    primary key [(indicator, type)]. *)
Definition insert_ioc (t : list ioc_row) (i ty src fs ls : sqlval) (cnt : Z)
    (conf thr meta : sqlval) : result (list ioc_row) :=
  match text_affinity i, text_affinity ty, text_affinity src, text_affinity fs,
        text_affinity ls with
  | Some i, Some ty, Some src, Some fs, Some ls =>
      if existsb (key_matches i ty) t then Raise IntegrityError
      else Ok (t ++ [ {| indicator := i; type_ := ty; source := src;
                         first_seen := fs; last_seen := ls; seen_count := cnt;
                         confidence := text_affinity conf;
                         threat_level := text_affinity thr;
                         metadata := text_affinity meta |} ])
  | _, _, _, _, _ => Raise IntegrityError
  end.

(** One row after [SET last_seen=?, seen_count=?, source=?, confidence=?,
    threat_level=?, metadata=?]. *)
Definition set_columns (ls : textval) (cnt : Z) (src : textval) (conf thr meta : option textval)
    (r : ioc_row) : ioc_row :=
  {| indicator := indicator r; type_ := type_ r; source := src;
     first_seen := first_seen r; last_seen := ls; seen_count := cnt;
     confidence := conf; threat_level := thr; metadata := meta |}.

(** [UPDATE iocs SET ... WHERE indicator=? AND type=?].  Every selected row
    is rewritten; [NULL] in a [NOT NULL] column is refused when a row is
    selected. *)
Definition update_ioc (t : list ioc_row) (ls : sqlval) (cnt : Z)
    (src conf thr meta : sqlval) (i ty : sqlval) : result (list ioc_row) :=
  match text_affinity i, text_affinity ty with
  | Some i, Some ty =>
      if existsb (key_matches i ty) t then
        match text_affinity ls, text_affinity src with
        | Some ls, Some src =>
            Ok (map (fun r => if key_matches i ty r
                              then set_columns ls cnt src (text_affinity conf)
                                     (text_affinity thr) (text_affinity meta) r
                              else r) t)
        | _, _ => Raise IntegrityError
        end
      else Ok t
  | _, _ => Ok t
  end.

(** *** [insert_or_update_iocs] *)

(** [json.dumps(v)] *)
Definition json_dumps (v : pyval) : result string :=
  match Json.dumps v with
  | Some s => Ok s
  | None => Raise TypeError
  end.

(** [max(last_seen, v)] for the value [last_seen] read from the table, a
    [str] or [bytes]: two texts compare, two [bytes] compare, and any other
    comparison raises [TypeError]. *)
Definition max_last_seen (last_seen : pyval) (v : pyval) : result pyval :=
  match last_seen, v with
  | PyStr a, PyStr b => Ok (PyStr (PyStr.max a b))
  | PyBytes a, PyBytes b => Ok (PyBytes (PyStr.max a b))
  | _, _ => Raise TypeError
  end.

Inductive change : Type := Inserted | Updated.

(** The body of the [try] block for one [ioc], after the increment of
    [stats['processed']]: the table afterwards and the branch taken, or the
    exception raised.  A statement that raises leaves the table as it
    was. *)
Definition upsert (t : list ioc_row) (ioc : pydict) : result (list ioc_row * change) :=
  let* k_indicator := getitem ioc "indicator" in
  let* k_type := getitem ioc "type" in
  let* q_indicator := sql_bind k_indicator in
  let* q_type := sql_bind k_type in
  match select_ioc t q_indicator q_type with
  | None =>
      let* v_indicator := getitem ioc "indicator" in
      let* v_type := getitem ioc "type" in
      let* v_source := getitem ioc "source" in
      let* v_first := getitem ioc "date_collected" in
      let* v_last := getitem ioc "date_collected" in
      let v_confidence := dict_get ioc "confidence" (PyStr "medium") in
      let v_threat := dict_get ioc "threat_level" (PyStr "medium") in
      let* v_metadata := json_dumps (dict_get ioc "metadata" empty_dict) in
      let* p_indicator := sql_bind v_indicator in
      let* p_type := sql_bind v_type in
      let* p_source := sql_bind v_source in
      let* p_first := sql_bind v_first in
      let* p_last := sql_bind v_last in
      let* p_count := bind_int 1 in
      let* p_confidence := sql_bind v_confidence in
      let* p_threat := sql_bind v_threat in
      let* p_metadata := sql_bind (PyStr v_metadata) in
      let* t' := insert_ioc t p_indicator p_type p_source p_first p_last p_count
                   p_confidence p_threat p_metadata in
      Ok (t', Inserted)
  | Some (_, last_seen, seen_count) =>
      let* v_collected := getitem ioc "date_collected" in
      let* new_last := max_last_seen last_seen v_collected in
      let new_count := seen_count + 1 in
      let* v_source := getitem ioc "source" in
      let v_confidence := dict_get ioc "confidence" (PyStr "medium") in
      let v_threat := dict_get ioc "threat_level" (PyStr "medium") in
      let* v_metadata := json_dumps (dict_get ioc "metadata" empty_dict) in
      let* v_indicator := getitem ioc "indicator" in
      let* v_type := getitem ioc "type" in
      let* p_last := sql_bind new_last in
      let* p_count := bind_int new_count in
      let* p_source := sql_bind v_source in
      let* p_confidence := sql_bind v_confidence in
      let* p_threat := sql_bind v_threat in
      let* p_metadata := sql_bind (PyStr v_metadata) in
      let* p_indicator := sql_bind v_indicator in
      let* p_type := sql_bind v_type in
      let* t' := update_ioc t p_last p_count p_source p_confidence p_threat
                   p_metadata p_indicator p_type in
      Ok (t', Updated)
  end.

(** The [for ioc in iocs] loop from table [t] and dictionary [st]: how the
    loop was left ([Ok tt] at the end of the list, [Raise e] by an exception
    that no handler caught), and the table and [stats] at that point.

    The handler [except Exception as e] counts the error and then formats
    [ioc['indicator']] for the log line; that subscript is evaluated in the
    handler, outside any [try]. *)
Fixpoint for_each_ioc (iocs : list pydict) (t : list ioc_row) (st : stats)
    : result unit * list ioc_row * stats :=
  match iocs with
  | [] => (Ok tt, t, st)
  | ioc :: rest =>
      let st := incr_processed st in
      match upsert t ioc with
      | Ok (t', Inserted) => for_each_ioc rest t' (incr_new st)
      | Ok (t', Updated) => for_each_ioc rest t' (incr_updated st)
      | Raise _ =>
          let st := incr_errors st in
          match getitem ioc "indicator" with
          | Ok _ => for_each_ioc rest t st
          | Raise e => (Raise e, t, st)
          end
      end
  end.

(** How a method of [CTIDatabase] ends: it returns [v], or an exception
    leaves it; either way with the tables in some state. *)
Inductive outcome (A : Type) : Type :=
| Returned (v : A) (db : database) : outcome A
| Raised (e : exn) (db : database) : outcome A.

Arguments Returned {A} v db.
Arguments Raised {A} e db.

Definition with_iocs (db : database) (t : list ioc_row) : database :=
  {| iocs := t; collection_logs := collection_logs db |}.

Definition insert_or_update_iocs (db : database) (iocs_in : list pydict) : outcome stats :=
  match for_each_ioc iocs_in (iocs db) zero_stats with
  | (Ok _, t, st) => Returned st (with_iocs db t)
  | (Raise e, t, _) => Raised e (with_iocs db t)
  end.

(** [log_collection(source, stats, errors)]; [now] is
    [datetime.now().isoformat()]. *)
Definition log_collection (now : string) (db : database) (src : string) (st : stats)
    (errs : option string) : database :=
  {| iocs := iocs db;
     collection_logs :=
       collection_logs db ++
       [ {| log_source := src; collection_time := now;
            iocs_processed := processed st; iocs_new := new st;
            iocs_updated := updated st; log_errors := errs;
            status := match errs with
                      | None => "success"
                      | Some e => if String.eqb e EmptyString then "success" else "error"
                      end |} ] |}.

(** *** Notions used to state the properties of the store *)

(** The identity key of a row. *)
Definition key (r : ioc_row) : textval * textval := (indicator r, type_ r).

(** The row of the table whose key is the pair of texts [(i, ty)], if
    any. *)
Definition find_row (t : list ioc_row) (i ty : string) : option ioc_row :=
  find (key_matches (Text i) (Text ty)) t.

(** A row as the specification wants every row: first seen no later than
    last seen, and seen at least once. *)
Definition row_ok (r : ioc_row) : Prop :=
  textval_le (first_seen r) (last_seen r) = true /\ 1 <= seen_count r.

(** The invariant of the table: every row is as wanted and no two rows have
    the same key. *)
Definition store_ok (t : list ioc_row) : Prop :=
  Forall row_ok t /\ List.NoDup (map key t).

(** [ioc] is a record as [normalize_ioc] builds them: it has the seven keys,
    texts under six of them and under [metadata] an object that
    [json.dumps] turns into [mtext]. *)
Definition is_normalized (ioc : pydict) (i ty src conf thr mtext collected_at : string)
    : Prop :=
  ioc !! "indicator" = Some (PyStr i) /\
  ioc !! "type" = Some (PyStr ty) /\
  ioc !! "source" = Some (PyStr src) /\
  ioc !! "confidence" = Some (PyStr conf) /\
  ioc !! "threat_level" = Some (PyStr thr) /\
  (exists meta, ioc !! "metadata" = Some meta /\ Json.dumps meta = Some mtext) /\
  ioc !! "date_collected" = Some (PyStr collected_at).

(** The row that the specification wants for a key seen for the first
    time. *)
Definition inserted_row (i ty src conf thr mtext collected_at : string) : ioc_row :=
  {| indicator := Text i; type_ := Text ty; source := Text src;
     first_seen := Text collected_at; last_seen := Text collected_at; seen_count := 1;
     confidence := Some (Text conf); threat_level := Some (Text thr);
     metadata := Some (Text mtext) |}.

(** The later of the time a row holds and a time of collection. *)
Definition later (held : textval) (collected_at : string) : textval :=
  match held with
  | Text s => Text (PyStr.max s collected_at)
  | Blob _ => held
  end.

(** The row that the specification wants for a key seen again, from the
    row [old] it had. *)
Definition merged_row (old : ioc_row) (src conf thr mtext collected_at : string) : ioc_row :=
  {| indicator := indicator old; type_ := type_ old; source := Text src;
     first_seen := first_seen old;
     last_seen := later (last_seen old) collected_at;
     seen_count := seen_count old + 1;
     confidence := Some (Text conf); threat_level := Some (Text thr);
     metadata := Some (Text mtext) |}.

(** The rows after the [UPDATE] for a normalized record with key [(i, ty)],
    from the row [old] that the [SELECT] found. *)
Definition rewritten_rows (t : list ioc_row) (i ty src conf thr mtext collected_at : string)
    (old : ioc_row) : list ioc_row :=
  map (fun r => if key_matches (Text i) (Text ty) r
                then set_columns (later (last_seen old) collected_at) (seen_count old + 1)
                       (Text src) (Some (Text conf)) (Some (Text thr)) (Some (Text mtext)) r
                else r) t.

(** The row found can take one more sighting of a normalized record: the
    time it holds is a text, which compares with the time of collection,
    and its counter is an integer of SQLite below the largest one. *)
Definition can_merge (old : ioc_row) : Prop :=
  (exists s, last_seen old = Text s) /\ min_int64 <= seen_count old < max_int64.

(** The seven texts of a normalized record. *)
Record sighting : Type := {
seen_indicator : string;
seen_type : string;
seen_source : string;
seen_confidence : string;
seen_threat_level : string;
seen_metadata : string;
seen_at : string
}.

(** The text under key [k] of [ioc], where there is one. *)
Definition text_field (ioc : pydict) (k : string) : option string :=
  match ioc !! k with
  | Some (PyStr s) => Some s
  | _ => None
  end.

(** The sighting that a normalized record reports. *)
Definition sighting_of (ioc : pydict) : option sighting :=
  i ← text_field ioc "indicator";
  ty ← text_field ioc "type";
  src ← text_field ioc "source";
  conf ← text_field ioc "confidence";
  thr ← text_field ioc "threat_level";
  meta ← ioc !! "metadata";
  mtext ← Json.dumps meta;
  collected_at ← text_field ioc "date_collected";
  Some {| seen_indicator := i; seen_type := ty; seen_source := src;
          seen_confidence := conf; seen_threat_level := thr;
          seen_metadata := mtext; seen_at := collected_at |}.

(** What the specification wants of the store for one sighting: a new row
    for a key seen for the first time, and otherwise the row of that key
    replaced by the merged one. *)
Definition merge_sighting (t : list ioc_row) (s : sighting) : list ioc_row :=
  match find_row t (seen_indicator s) (seen_type s) with
  | None =>
      t ++ [ inserted_row (seen_indicator s) (seen_type s) (seen_source s)
               (seen_confidence s) (seen_threat_level s) (seen_metadata s) (seen_at s) ]
  | Some old =>
      map (fun r => if key_matches (Text (seen_indicator s)) (Text (seen_type s)) r
                    then merged_row old (seen_source s) (seen_confidence s)
                           (seen_threat_level s) (seen_metadata s) (seen_at s)
                    else r) t
  end.

(** The counters that the specification wants after that sighting. *)
Definition count_sighting (t : list ioc_row) (s : sighting) (st : stats) : stats :=
  match find_row t (seen_indicator s) (seen_type s) with
  | None => incr_new (incr_processed st)
  | Some _ => incr_updated (incr_processed st)
  end.

(** The same for a batch, record after record in the order of the list. *)
Fixpoint merge_all (batch : list pydict) (t : list ioc_row) (st : stats)
    : list ioc_row * stats :=
  match batch with
  | [] => (t, st)
  | ioc :: rest =>
      match sighting_of ioc with
      | Some s => merge_all rest (merge_sighting t s) (count_sighting t s st)
      | None => merge_all rest t st
      end
  end.

(** [ioc] is a normalized record. *)
Definition normalized (ioc : pydict) : Prop := exists s, sighting_of ioc = Some s.

(** The table can take [n] more sightings of normalized records: the time
    that every row holds is a text, and no counter would pass the largest
    integer of SQLite. *)
Definition takes (n : nat) (t : list ioc_row) : Prop :=
  Z.of_nat n <= max_int64 /\
  Forall (fun r => (exists s, last_seen r = Text s) /\
                   min_int64 <= seen_count r /\ seen_count r + Z.of_nat n <= max_int64) t.

(** The table when the loop is left, and the counters then. *)
Definition table_after (batch : list pydict) (t : list ioc_row) (st : stats) : list ioc_row :=
  snd (fst (for_each_ioc batch t st)).

Definition stats_after (batch : list pydict) (t : list ioc_row) (st : stats) : stats :=
  snd (for_each_ioc batch t st).

(** [ioc] has the key that the error handler formats. *)
Definition has_indicator (ioc : pydict) : Prop := dict_contains ioc "indicator" = true.

(** Each record counted once: as new, as updated or as an error. *)
Definition balanced (st : stats) : Prop :=
  processed st = new st + updated st + errors st.

(** The tables when the method is left, either way. *)
Definition outcome_db {A : Type} (o : outcome A) : database :=
  match o with
  | Returned _ db => db
  | Raised _ db => db
  end.

End CTIDatabase.

(** ** scheduler.py: [CTIScheduler] *)

Module CTIScheduler.

Import CTIDatabase.

(** The attributes of [Config] that [run_collection] reads. *)
Record config : Type := {
THREAT_DOMAINS : list string;
ABUSEIPDB_LIMIT : Z;
MALWAREBazaar_LIMIT : Z
}.

(** What one call of a collaborator gives: the list it returns, or, where
    it raises, the text [str(e)] of the exception. *)
Definition fetched (A : Type) : Type := (string + A)%type.

(** The collaborators of one run: the constructor [Config()], the three
    methods of [self.api_ingestion], and the clock read by
    [log_collection]. *)
Record collaborators : Type := {
Config : fetched config;
fetch_otx : string -> fetched (list pydict);
fetch_abuseipdb : Z -> fetched (list pydict);
fetch_malwarebazaar : Z -> fetched (list pydict);
now : string
}.

(** The local variables [all_iocs] and [collection_errors]. *)
Definition collected : Type := (list pydict * list string)%type.

(** The loop [for domain in config.THREAT_DOMAINS]. *)
Fixpoint collect_otx_domains (fetch : string -> fetched (list pydict)) (domains : list string)
    (acc : collected) : collected :=
  match domains with
  | [] => acc
  | domain :: rest =>
      let '(all_iocs, collection_errors) := acc in
      match fetch domain with
      | inr otx_iocs => collect_otx_domains fetch rest (all_iocs ++ otx_iocs, collection_errors)
      | inl e =>
          let error_msg := "OTX collection failed for " +:+ domain +:+ ": " +:+ e in
          collect_otx_domains fetch rest (all_iocs, collection_errors ++ [error_msg])
      end
  end.

Definition collect_otx (c : collaborators) (acc : collected) : collected :=
  match Config c with
  | inr config => collect_otx_domains (fetch_otx c) (THREAT_DOMAINS config) acc
  | inl e => (fst acc, snd acc ++ ["OTX collection failed: " +:+ e])
  end.

Definition collect_abuseipdb (c : collaborators) (acc : collected) : collected :=
  match Config c with
  | inr config =>
      match fetch_abuseipdb c (ABUSEIPDB_LIMIT config) with
      | inr abuse_iocs => (fst acc ++ abuse_iocs, snd acc)
      | inl e => (fst acc, snd acc ++ ["AbuseIPDB collection failed: " +:+ e])
      end
  | inl e => (fst acc, snd acc ++ ["AbuseIPDB collection failed: " +:+ e])
  end.

Definition collect_malwarebazaar (c : collaborators) (acc : collected) : collected :=
  match Config c with
  | inr config =>
      match fetch_malwarebazaar c (MALWAREBazaar_LIMIT config) with
      | inr mb_iocs => (fst acc ++ mb_iocs, snd acc)
      | inl e => (fst acc, snd acc ++ ["MalwareBazaar collection failed: " +:+ e])
      end
  | inl e => (fst acc, snd acc ++ ["MalwareBazaar collection failed: " +:+ e])
  end.

(** The three collection blocks, in order. *)
Definition collect (c : collaborators) : collected :=
  collect_malwarebazaar c (collect_abuseipdb c (collect_otx c ([], []))).

(** The dictionary returned by [run_collection]. *)
Record cycle_result : Type := {
cycle_status : string;
cycle_stats : stats;
cycle_errors : list string;
total_collected : Z
}.

(** ["; ".join(collection_errors) if collection_errors else None] *)
Definition error_summary (collection_errors : list string) : option string :=
  match collection_errors with
  | [] => None
  | _ => Some (String.concat "; " collection_errors)
  end.

Definition run_collection (c : collaborators) (db : database) : outcome cycle_result :=
  let '(all_iocs, collection_errors) := collect c in
  match all_iocs with
  | _ :: _ =>
      match insert_or_update_iocs db all_iocs with
      | Returned st db1 =>
          let db2 := log_collection (now c) db1 "CTI_Collector" st
                       (error_summary collection_errors) in
          Returned {| cycle_status := "success";
                      cycle_stats := st;
                      cycle_errors := collection_errors;
                      total_collected := Z.of_nat (length all_iocs) |} db2
      | Raised e db1 => Raised e db1
      end
  | [] =>
      Returned {| cycle_status := "no_data";
                  cycle_stats := zero_stats;
                  cycle_errors := collection_errors;
                  total_collected := 0 |} db
  end.

(** *** Notions used to state the properties of a run *)

Definition items_of (r : fetched (list pydict)) : list pydict :=
  match r with
  | inr l => l
  | inl _ => []
  end.

(** What the specification wants collected: the items of every fetch that
    succeeded, feed after feed (the OTX domains in their order, then
    AbuseIPDB, then MalwareBazaar), whatever the other fetches did. *)
Definition successful_items (c : collaborators) : list pydict :=
  match Config c with
  | inr config =>
      flat_map (fun domain => items_of (fetch_otx c domain)) (THREAT_DOMAINS config)
      ++ items_of (fetch_abuseipdb c (ABUSEIPDB_LIMIT config))
      ++ items_of (fetch_malwarebazaar c (MALWAREBazaar_LIMIT config))
  | inl _ => []
  end.

(** One more row at the end of [collection_logs]. *)
Definition log_entry_written (before after : database) : Prop :=
  exists entry, collection_logs after = collection_logs before ++ [entry].

End CTIScheduler.

(** ** Sample data *)

Module Samples.

Import CTIDatabase CTIScheduler.

Definition first_sighting : pydict :=
  IoCRecord.normalize_ioc (platform := IPv4.platform)
    "2024-01-02T00:00:00" "203.0.113.5" "TestFeed" "high" "medium" PyNone.

(** The same indicator from another feed, collected earlier. *)
Definition older_sighting : pydict :=
  IoCRecord.normalize_ioc (platform := IPv4.platform)
    "2024-01-01T00:00:00" " 203.0.113.5 " "OtherFeed" "low" "high" PyNone.

(** A record whose metadata is a [set], which [json.dumps] refuses. *)
Definition unserializable : pydict :=
  <["metadata" := PyObj {| obj_truth := true; obj_json := None |}]> first_sighting.

(** A dictionary without the key [indicator]. *)
Definition no_indicator : pydict :=
  list_to_map
    [ ("type", PyStr "IP"); ("source", PyStr "TestFeed");
      ("date_collected", PyStr "2024-01-01T00:00:00") ].

(** A dictionary that has the three required keys, with empty texts under
    two of them. *)
Definition empty_fields : pydict :=
  list_to_map
    [ ("indicator", PyStr EmptyString); ("type", PyStr "Unknown");
      ("source", PyStr EmptyString) ].

(** A table whose row has been seen as often as SQLite can count. *)
Definition counted_out_row : ioc_row :=
  {| indicator := Text "203.0.113.5"; type_ := Text "IP"; source := Text "OtherFeed";
     first_seen := Text "2024-01-01T00:00:00"; last_seen := Text "2024-01-01T00:00:00";
     seen_count := max_int64;
     confidence := Some (Text "low"); threat_level := Some (Text "high");
     metadata := Some (Text "{}") |}.

Definition counted_out : list ioc_row := [counted_out_row].

Definition two_domains : config :=
  {| THREAT_DOMAINS := ["example.com"; "example.org"];
     ABUSEIPDB_LIMIT := 10000;
     MALWAREBazaar_LIMIT := 10000 |}.

(** Every feed answers, with nothing. *)
Definition quiet_feeds : collaborators :=
  {| Config := inr two_domains;
     fetch_otx := fun _ => inr [];
     fetch_abuseipdb := fun _ => inr [];
     fetch_malwarebazaar := fun _ => inr [];
     now := "2024-01-03T09:00:00" |}.

(** OTX fails for every domain and MalwareBazaar fails; AbuseIPDB gives two
    sightings. *)
Definition one_feed_up : collaborators :=
  {| Config := inr two_domains;
     fetch_otx := fun _ => inl "timed out";
     fetch_abuseipdb := fun _ => inr [first_sighting; older_sighting];
     fetch_malwarebazaar := fun _ => inl "503 Server Error";
     now := "2024-01-03T09:00:00" |}.

End Samples.

(** ** More notions used to state properties of the store *)

Module StoreNotions.

Import CTIDatabase.

(** What a [TEXT] column holds for the value [v] bound to it. *)
Definition bound (v : pyval) : result (option textval) :=
  let* p := sql_bind v in Ok (text_affinity p).

(** What the statements need of a record with texts under the four keys
    that are subscripted: what is bound for [confidence] and [threat_level]
    (the value under the key, ['medium'] without the key), and the JSON
    text of the metadata ([{}] without the key). *)
Definition storable (ioc : pydict) (i ty src collected_at : string)
    (conf thr : option textval) (mtext : string) : Prop :=
  ioc !! "indicator" = Some (PyStr i) /\
  ioc !! "type" = Some (PyStr ty) /\
  ioc !! "source" = Some (PyStr src) /\
  ioc !! "date_collected" = Some (PyStr collected_at) /\
  bound (dict_get ioc "confidence" (PyStr "medium")) = Ok conf /\
  bound (dict_get ioc "threat_level" (PyStr "medium")) = Ok thr /\
  Json.dumps (dict_get ioc "metadata" empty_dict) = Some mtext.

(** A value that cannot be stored in a column declared [NOT NULL]: it is
    bound as [NULL], or not bound at all. *)
Definition refused (v : pyval) : Prop :=
  match sql_bind v with
  | Ok p => text_affinity p = None
  | Raise _ => True
  end.

(** A record that the statements cannot store: one of the keys [type],
    [source] and [date_collected] is missing, or there is a value that
    cannot be stored under one of the four required keys, or the metadata
    are not accepted by [json.dumps]. *)
Definition unstorable (ioc : pydict) : Prop :=
  (exists k, In k ["type"; "source"; "date_collected"] /\ ioc !! k = None) \/
  (exists k v, In k ["indicator"; "type"; "source"; "date_collected"] /\
               ioc !! k = Some v /\ refused v) \/
  Json.dumps (dict_get ioc "metadata" empty_dict) = None.

(** The key of a record whose [indicator] and [type] are texts. *)
Definition ioc_key (ioc : pydict) : option (string * string) :=
  match ioc !! "indicator", ioc !! "type" with
  | Some (PyStr i), Some (PyStr ty) => Some (i, ty)
  | _, _ => None
  end.



(** The row written for a record seen for the first time. *)
Definition first_row (i ty src collected_at : string) (conf thr : option textval)
    (mtext : string) : ioc_row :=
  {| indicator := Text i; type_ := Text ty; source := Text src;
     first_seen := Text collected_at; last_seen := Text collected_at; seen_count := 1;
     confidence := conf; threat_level := thr; metadata := Some (Text mtext) |}.

(** The table after a record with these fields. *)
Definition table_with (t : list ioc_row) (i ty src collected_at : string)
    (conf thr : option textval) (mtext : string) : list ioc_row * change :=
  match find_row t i ty with
  | None => (t ++ [first_row i ty src collected_at conf thr mtext], Inserted)
  | Some old =>
      (map (fun r => if key_matches (Text i) (Text ty) r
                     then set_columns (later (last_seen old) collected_at)
                            (seen_count old + 1) (Text src) conf thr (Some (Text mtext)) r
                     else r) t,
       Updated)
  end.

End StoreNotions.

(** ** database.py: [get_collection_stats]

    The entries of the dictionary that [get_collection_stats] returns, one
    definition for each statement.  Two entries are left out:
    [recent_activity], which depends on the date arithmetic of SQLite and on
    the clock, and [avg_seen_count], a floating-point average. *)

Module CTIStatistics.

Import CTIDatabase.

(** [dict(cursor.fetchall())] after [SELECT col, COUNT( * ) FROM ... GROUP BY
    col ORDER BY COUNT( * ) DESC]: the number of rows for each value of the
    column that occurs.  The order of the groups does not show in the
    dictionary as a mapping. *)
Fixpoint count_by {A K : Type} `{Countable K} (col : A -> K) (rows : list A) : gmap K Z :=
  match rows with
  | [] => ∅
  | r :: rest =>
      let groups := count_by col rest in
      <[col r := default 0 (groups !! col r) + 1]> groups
  end.

(** The number of rows whose column [col] is [k]. *)
Fixpoint occurrences {A K : Type} `{EqDecision K} (col : A -> K) (k : K) (rows : list A) : Z :=
  match rows with
  | [] => 0
  | r :: rest => (if bool_decide (col r = k) then 1 else 0) + occurrences col k rest
  end.

(** [SELECT COUNT( * ) FROM iocs] *)
Definition total_iocs (db : database) : Z := Z.of_nat (length (iocs db)).

(** The keys are the values of the column: texts, or [bytes] for a
    [BLOB]. *)
Definition by_type (db : database) : gmap textval Z := count_by type_ (iocs db).

Definition by_source (db : database) : gmap textval Z := count_by source (iocs db).

(** [SELECT COUNT( * ) FROM collection_logs] *)
Definition collection_runs (db : database) : Z := Z.of_nat (length (collection_logs db)).

(** [SELECT MAX(seen_count) FROM iocs]: [NULL] on an empty table. *)
Definition sql_max (values : list Z) : option Z :=
  match values with
  | [] => None
  | v :: rest => Some (fold_left Z.max rest v)
  end.

(** [max_seen or 0] *)
Definition max_seen_count (db : database) : Z :=
  match sql_max (map seen_count (iocs db)) with
  | Some m => if m =? 0 then 0 else m
  | None => 0
  end.

(** [sum(d.values())] *)
Definition sum_values {K : Type} `{Countable K} (d : gmap K Z) : Z :=
  map_fold (fun _ v acc => v + acc) 0 d.

Record success_rate : Type := {
rate_success : Z;
rate_error : Z;
rate_total : Z
}.

(** The entry [collection_success_rate], from [status_counts]. *)
Definition collection_success_rate (db : database) : success_rate :=
  let status_counts := count_by status (collection_logs db) in
  {| rate_success := default 0 (status_counts !! "success");
     rate_error := default 0 (status_counts !! "error");
     rate_total := sum_values status_counts |}.

(** Every entry of the log has one of the two statuses that
    [log_collection] writes. *)
Definition logs_ok (db : database) : Prop :=
  Forall (fun entry => status entry = "success" \/ status entry = "error") (collection_logs db).

End CTIStatistics.

(** ** api_ingestion.py: [fetch_malwarebazaar]

    The request is outside the embedding: [response] is the text of the
    answer, or the failure of the request ([session.get] or
    [raise_for_status] raising). *)

Module APIIngestion.

(** [s.split(c)] for a one-character separator. *)
Fixpoint split_on (c : ascii) (s : string) : list string :=
  match s with
  | EmptyString => [EmptyString]
  | String a r =>
      if Ascii.eqb a c
      then EmptyString :: split_on c r
      else match split_on c r with
           | p :: ps => String a p :: ps
           | [] => [String a EmptyString]
           end
  end.

(** [l[:limit]]: a negative [limit] counts from the end. *)
Definition slice_to {A : Type} (limit : Z) (l : list A) : list A :=
  if 0 <=? limit then firstn (Z.to_nat limit) l
  else firstn (length l - Z.to_nat (- limit)) l.

(** The test of the comprehension on one line. *)
Definition is_hash_line (line : string) : bool :=
  (PyStr.len (PyStr.strip line) =? 64) && negb (PyStr.startswith line "#").

(** The list [hashes]. *)
Definition parse_hashes (text : string) (limit : Z) : list string :=
  slice_to limit
    (map PyStr.strip (List.filter is_hash_line (split_on "010" text))).

Section WithPlatform.

Context {platform : IpAddress}.

(** The loop [for h in hashes]; [clock k] is what the clock gives at its
    [k]-th reading, one reading for each record. *)
Fixpoint normalize_hashes (clock : nat -> string) (k : nat) (hashes : list string)
    : list pydict :=
  match hashes with
  | [] => []
  | h :: rest =>
      IoCRecord.normalize_ioc (clock k) h "MalwareBazaar" "very_high" "high" empty_dict
      :: normalize_hashes clock (S k) rest
  end.

Definition fetch_malwarebazaar (clock : nat -> string) (response : string + string)
    (limit : Z) : list pydict :=
  match response with
  | inr text => normalize_hashes clock 0 (parse_hashes text limit)
  | inl _ => []
  end.

End WithPlatform.






End APIIngestion.

(** ** More notions used to state properties of a run *)

Module CycleNotions.

Import CTIScheduler.

Definition non_empty (m : string) : Prop := m <> EmptyString.

Definition failed {A : Type} (r : fetched A) : bool :=
  match r with
  | inl _ => true
  | inr _ => false
  end.

(** The number of calls of a run that raise: the failing fetches, or the
    three constructions of [Config]. *)
Definition failures (c : collaborators) : nat :=
  match Config c with
  | inr config =>
      length (List.filter (fun domain => failed (fetch_otx c domain)) (THREAT_DOMAINS config))
      + (if failed (fetch_abuseipdb c (ABUSEIPDB_LIMIT config)) then 1 else 0)
      + (if failed (fetch_malwarebazaar c (MALWAREBazaar_LIMIT config)) then 1 else 0)
  | inl _ => 3
  end.

End CycleNotions.

(** ** More sample data *)

Module MoreSamples.

Import CTIDatabase CTIScheduler.

Definition sample_digest : string :=
  "E3B0C44298FC1C149AFBF4C8996FB92427AE41E4649B934CA495991B7852B855".

(** An answer of the export feed: a comment, a digest, a blank line. *)
Definition sample_export : string :=
  "# sha256 digests" +:+ String "010" (sample_digest +:+ String "010" EmptyString).

Definition sample_clock (k : nat) : string :=
  if (k =? 0)%nat then "2024-01-03T09:00:00" else "2024-01-03T09:00:01".



(** A record that has an [indicator] and no [source]. *)
Definition no_source : pydict :=
  list_to_map
    [ ("indicator", PyStr "example.com"); ("type", PyStr "Domain");
      ("date_collected", PyStr "2024-01-01T00:00:00") ].

Definition one_row_table : list ioc_row :=
  [ inserted_row "203.0.113.5" "IP" "TestFeed" "high" "medium" "{}" "2024-01-02T00:00:00" ].

Definition one_row_database : database :=
  {| iocs := one_row_table; collection_logs := [] |}.

(** [Config()] raises. *)
Definition no_config : collaborators :=
  {| Config := inl "Permission denied";
     fetch_otx := fun _ => inr [];
     fetch_abuseipdb := fun _ => inr [];
     fetch_malwarebazaar := fun _ => inr [];
     now := "2024-01-03T09:00:00" |}.

Definition sample_keys : gmap string string :=
  <["OTX" := "0123456789abcdef"]> (<["AbuseIPDB" := "  "]> ∅).

End MoreSamples.

(** * Properties *)

(** ** Python strings *)

Module PyStrFacts.

Import PyStr.

(** A property of one code point is settled by going through all 256. *)
Ltac by_cases_on_char a :=
  destruct a as [[] [] [] [] [] [] [] []]; vm_compute; try reflexivity; try discriminate; auto.

Lemma isspace_lower_char (a : ascii) : isspace (lower_char a) = isspace a.
Proof. by_cases_on_char a. Qed.

Lemma lower_char_idem (a : ascii) : lower_char (lower_char a) = lower_char a.
Proof. by_cases_on_char a. Qed.

Lemma lower_idem (s : string) : lower (lower s) = lower s.
Proof.
  induction s as [|a r IH]; simpl; [reflexivity|].
  now rewrite lower_char_idem, IH.
Qed.

Lemma length_lower (s : string) : String.length (lower s) = String.length s.
Proof. induction s as [|a r IH]; simpl; congruence. Qed.

Lemma len_lower (s : string) : len (lower s) = len s.
Proof. unfold len. now rewrite length_lower. Qed.

Lemma lower_eq_empty (s : string) : lower s = EmptyString -> s = EmptyString.
Proof. destruct s; simpl; [reflexivity | discriminate]. Qed.

Lemma lstrip_lower (s : string) : lstrip (lower s) = lower (lstrip s).
Proof.
  induction s as [|a r IH]; simpl; [reflexivity|].
  rewrite isspace_lower_char. destruct (isspace a); [exact IH | reflexivity].
Qed.

Lemma rstrip_lower (s : string) : rstrip (lower s) = lower (rstrip s).
Proof.
  induction s as [|a r IH]; simpl; [reflexivity|].
  rewrite IH, isspace_lower_char.
  destruct (rstrip r) as [|b r']; simpl; [|reflexivity].
  destruct (isspace a); reflexivity.
Qed.

Lemma strip_lower (s : string) : strip (lower s) = lower (strip s).
Proof. unfold strip. now rewrite lstrip_lower, rstrip_lower. Qed.

Lemma lstrip_idem (s : string) : lstrip (lstrip s) = lstrip s.
Proof.
  induction s as [|a r IH]; simpl; [reflexivity|].
  destruct (isspace a) eqn:E; [exact IH|]. simpl. now rewrite E.
Qed.

Lemma rstrip_cons (a : ascii) (s : string) :
  rstrip (String a s) =
  match rstrip s with
  | EmptyString => if isspace a then EmptyString else String a EmptyString
  | String b r => String a (String b r)
  end.
Proof. reflexivity. Qed.

Lemma rstrip_idem (s : string) : rstrip (rstrip s) = rstrip s.
Proof.
  induction s as [|a r IH]; [reflexivity|].
  rewrite rstrip_cons. destruct (rstrip r) as [|b r'] eqn:E.
  - destruct (isspace a) eqn:Ea; [reflexivity|]. simpl. now rewrite Ea.
  - rewrite rstrip_cons, IH. reflexivity.
Qed.

(** A string that begins with a code point that is no white space keeps
    its beginning under [rstrip]. *)
Lemma rstrip_head (a : ascii) (r : string) :
  isspace a = false -> exists r', rstrip (String a r) = String a r'.
Proof.
  intros Ha. simpl. destruct (rstrip r) as [|b r'].
  - rewrite Ha. now exists EmptyString.
  - now exists (String b r').
Qed.

Lemma lstrip_head (s : string) :
  lstrip s = EmptyString \/ exists a r, lstrip s = String a r /\ isspace a = false.
Proof.
  induction s as [|a r IH]; simpl; [now left|].
  destruct (isspace a) eqn:E; [exact IH|]. right. now exists a, r.
Qed.

Lemma lstrip_strip (s : string) : lstrip (strip s) = strip s.
Proof.
  unfold strip. destruct (lstrip_head s) as [-> | (a & r & -> & Ha)]; [reflexivity|].
  destruct (rstrip_head a r Ha) as [r' ->]. simpl. now rewrite Ha.
Qed.

Lemma strip_idem (s : string) : strip (strip s) = strip s.
Proof.
  unfold strip at 1. rewrite lstrip_strip. unfold strip. apply rstrip_idem.
Qed.

Lemma contains_lower_dot (s : string) : contains "." (lower s) = contains "." s.
Proof.
  induction s as [|a r IH]; simpl; [reflexivity|]. rewrite IH. f_equal.
  by_cases_on_char a.
Qed.

Lemma startswith_lower_dot (s : string) : startswith (lower s) "." = startswith s ".".
Proof.
  destruct s as [|a r]; [reflexivity|]. unfold startswith. simpl.
  destruct r; by_cases_on_char a.
Qed.

(** A string without white space has nothing to trim. *)
Lemma no_space_trimmed (s : string) :
  all_chars (fun a => negb (isspace a)) s = true -> strip s = s.
Proof.
  intros Hsp. unfold strip.
  assert (Hl : lstrip s = s).
  { destruct s as [|a r]; [reflexivity|]. simpl in *.
    apply andb_true_iff in Hsp as [Ha _]. now destruct (isspace a). }
  rewrite Hl. induction s as [|a r IH]; [reflexivity|].
  simpl in Hsp. apply andb_true_iff in Hsp as [Ha Hr].
  rewrite rstrip_cons, IH; [|assumption|].
  - destruct r; [|reflexivity]. now destruct (isspace a).
  - destruct r as [|b r']; [reflexivity|]. simpl in *.
    apply andb_true_iff in Hr as [Hb _]. now destruct (isspace b).
Qed.

(** *** The order of strings *)

Lemma ascii_compare_refl (a : ascii) : Ascii.compare a a = Eq.
Proof. unfold Ascii.compare. apply N.compare_refl. Qed.

Lemma compare_refl (s : string) : String.compare s s = Eq.
Proof.
  induction s as [|a r IH]; [reflexivity|]. simpl. now rewrite ascii_compare_refl.
Qed.

Lemma le_refl (s : string) : le s s = true.
Proof. unfold le, String.leb. now rewrite compare_refl. Qed.

(** [a <= b < c] gives [a < c]. *)
Lemma compare_le_lt (a b c : string) :
  String.compare a b <> Gt -> String.compare b c = Lt -> String.compare a c = Lt.
Proof.
  revert b c. induction a as [|x a IH]; intros [|y b] [|z c]; simpl; try congruence.
  unfold Ascii.compare.
  destruct (N.compare_spec (N_of_ascii x) (N_of_ascii y)) as [Exy|Lxy|Gxy];
    destruct (N.compare_spec (N_of_ascii y) (N_of_ascii z)) as [Eyz|Lyz|Gyz];
    try congruence; intros Hab Hbc.
  - rewrite Exy, Eyz, N.compare_refl. now apply (IH b).
  - assert (H : (N_of_ascii x ?= N_of_ascii z)%N = Lt) by (apply N.compare_lt_iff; lia).
    now rewrite H.
  - assert (H : (N_of_ascii x ?= N_of_ascii z)%N = Lt) by (apply N.compare_lt_iff; lia).
    now rewrite H.
  - assert (H : (N_of_ascii x ?= N_of_ascii z)%N = Lt) by (apply N.compare_lt_iff; lia).
    now rewrite H.
Qed.

(** What is no later than [b] is no later than [max(b, c)]. *)
Lemma le_max (a b c : string) : le a b = true -> le a (max b c) = true.
Proof.
  unfold le, max, lt, String.leb, String.ltb. intros Hab.
  destruct (String.compare b c) eqn:Hbc; try assumption.
  rewrite (compare_le_lt a b c); [reflexivity | | assumption].
  intros H. now rewrite H in Hab.
Qed.

End PyStrFacts.

(** ** Regular expressions: [accepts] decides [lang] *)

Module ReFacts.

Import Re.

Lemma append_cons (a : ascii) (s1 s2 : string) :
  String a s1 +:+ s2 = String a (s1 +:+ s2).
Proof. reflexivity. Qed.

Lemma append_empty_l (s : string) : EmptyString +:+ s = s.
Proof. reflexivity. Qed.

Lemma append_eq_empty (s1 s2 : string) :
  s1 +:+ s2 = EmptyString -> s1 = EmptyString /\ s2 = EmptyString.
Proof.
  destruct s1; [rewrite append_empty_l; now intros -> |].
  rewrite append_cons. discriminate.
Qed.

Lemma lang_void_inv (s : string) : ~ lang Void s.
Proof. inversion 1. Qed.

Lemma lang_eps_inv (s : string) : lang Eps s -> s = EmptyString.
Proof. now inversion 1. Qed.

Lemma lang_class_inv (p : ascii -> bool) (s : string) :
  lang (Class p) s -> exists a, s = String a EmptyString /\ p a = true.
Proof. inversion 1; subst; eauto. Qed.

Lemma lang_cat_inv (r1 r2 : regex) (s : string) :
  lang (Cat r1 r2) s -> exists s1 s2, s = s1 +:+ s2 /\ lang r1 s1 /\ lang r2 s2.
Proof. inversion 1; subst; eauto. Qed.

Lemma lang_alt_inv (r1 r2 : regex) (s : string) :
  lang (Alt r1 r2) s -> lang r1 s \/ lang r2 s.
Proof. inversion 1; subst; auto. Qed.

Lemma nullable_lang (r : regex) : nullable r = true <-> lang r EmptyString.
Proof.
  induction r as [| |p|r1 IH1 r2 IH2|r1 IH1 r2 IH2|r IH]; simpl.
  - split; [discriminate | intros H; destruct (lang_void_inv _ H)].
  - split; [constructor | reflexivity].
  - split; [discriminate|].
    intros H. apply lang_class_inv in H as (a & E & _). discriminate.
  - rewrite andb_true_iff, IH1, IH2. split.
    + intros [H1 H2]. exact (lang_cat _ _ _ _ H1 H2).
    + intros H. apply lang_cat_inv in H as (s1 & s2 & E & H1 & H2).
      symmetry in E. destruct (append_eq_empty _ _ E) as [-> ->]. now split.
  - rewrite orb_true_iff, IH1, IH2. split.
    + intros [H|H]; [now apply lang_alt_l | now apply lang_alt_r].
    + apply lang_alt_inv.
  - split; [constructor | reflexivity].
Qed.

(** A non-empty word of [Star r] starts with a non-empty word of [r]. *)
Lemma lang_star_uncons (r : regex) (w : string) :
  lang (Star r) w ->
  forall a s, w = String a s ->
  exists s1 s2, s = s1 +:+ s2 /\ lang r (String a s1) /\ lang (Star r) s2.
Proof.
  intros H. remember (Star r) as q eqn:Eq.
  induction H as [| | | | | |r0 s1 s2 H1 _ H2 IH2]; try discriminate.
  injection Eq as ->. intros a s E. destruct s1 as [|b s1'].
  - rewrite append_empty_l in E. now apply IH2.
  - rewrite append_cons in E. injection E as -> <-. now exists s1', s2.
Qed.

Lemma deriv_lang (a : ascii) (r : regex) (s : string) :
  lang (deriv a r) s <-> lang r (String a s).
Proof.
  revert s. induction r as [| |p|r1 IH1 r2 IH2|r1 IH1 r2 IH2|r IH]; intros s; simpl.
  - split; intros H; destruct (lang_void_inv _ H).
  - split; intros H; [destruct (lang_void_inv _ H) | apply lang_eps_inv in H; discriminate].
  - split.
    + destruct (p a) eqn:E; intros H; [|destruct (lang_void_inv _ H)].
      apply lang_eps_inv in H as ->. now constructor.
    + intros H. apply lang_class_inv in H as (b & E & Hb).
      injection E as <- ->. rewrite Hb. constructor.
  - assert (Hcat : lang (Cat (deriv a r1) r2) s ->
                   lang (Cat r1 r2) (String a s)).
    { intros H. apply lang_cat_inv in H as (s1 & s2 & -> & H1 & H2).
      apply IH1 in H1. exact (lang_cat _ _ _ _ H1 H2). }
    assert (Hsplit : lang (Cat r1 r2) (String a s) ->
                     lang (Cat (deriv a r1) r2) s \/
                     (lang r1 EmptyString /\ lang r2 (String a s))).
    { intros H. apply lang_cat_inv in H as (s1 & s2 & E & H1 & H2).
      destruct s1 as [|b s1'].
      - rewrite append_empty_l in E. subst. now right.
      - rewrite append_cons in E. injection E as <- ->. left.
        apply lang_cat; [now apply IH1 | assumption]. }
    destruct (nullable r1) eqn:N.
    + split.
      * intros H. apply lang_alt_inv in H as [H|H]; [now apply Hcat|].
        apply nullable_lang in N. rewrite <- (append_empty_l (String a s)).
        apply lang_cat; [assumption | now apply IH2].
      * intros H. destruct (Hsplit H) as [H'|[_ H']];
          [now apply lang_alt_l | apply lang_alt_r; now apply IH2].
    + split; [exact Hcat|].
      intros H. destruct (Hsplit H) as [H'|[H' _]]; [assumption|].
      apply nullable_lang in H'. congruence.
  - split; intros H; apply lang_alt_inv in H as [H|H].
    + apply lang_alt_l. now apply IH1.
    + apply lang_alt_r. now apply IH2.
    + apply lang_alt_l. now apply IH1.
    + apply lang_alt_r. now apply IH2.
  - split.
    + intros H. apply lang_cat_inv in H as (s1 & s2 & -> & H1 & H2).
      apply IH in H1. exact (lang_star_cons _ _ _ H1 H2).
    + intros H. destruct (lang_star_uncons _ _ H a s eq_refl) as (s1 & s2 & -> & H1 & H2).
      apply lang_cat; [now apply IH | assumption].
Qed.

Lemma accepts_lang (r : regex) (s : string) : accepts r s = true <-> lang r s.
Proof.
  revert r. induction s as [|a s IH]; intros r; simpl.
  - apply nullable_lang.
  - rewrite IH. apply deriv_lang.
Qed.

End ReFacts.

(** ** normalization.py: the predicates *)

Module NormalizerFacts.

Import PyStr PyStrFacts Re ReFacts IoCNormalizer.

Lemma contains_append (c : ascii) (s1 s2 : string) :
  contains c (s1 +:+ s2) = contains c s1 || contains c s2.
Proof.
  induction s1 as [|a r IH]; [reflexivity|].
  rewrite append_cons. simpl. rewrite IH. now rewrite orb_assoc.
Qed.

Lemma all_chars_contains (p : ascii -> bool) (c : ascii) (s : string) :
  all_chars p s = true -> p c = false -> contains c s = false.
Proof.
  intros Hs Hc. induction s as [|a r IH]; [reflexivity|].
  simpl in *. apply andb_true_iff in Hs as [Ha Hr].
  rewrite (IH Hr), orb_false_r. apply Ascii.eqb_neq. congruence.
Qed.

(** [lang] of a repeated class: the words of that length over the class. *)
Lemma lang_rep_class (p : ascii -> bool) (n : nat) (s : string) :
  lang (Rep n (Class p)) s <-> String.length s = n /\ all_chars p s = true.
Proof.
  revert s. induction n as [|n IH]; intros s; simpl.
  - split.
    + intros H. apply lang_eps_inv in H as ->. now split.
    + intros [H _]. destruct s; [constructor | discriminate].
  - split.
    + intros H. apply lang_cat_inv in H as (s1 & s2 & -> & H1 & H2).
      apply lang_class_inv in H1 as (a & -> & Ha). apply IH in H2 as [Hl Hp].
      rewrite append_cons, append_empty_l. simpl. rewrite Ha, Hp, Hl. now split.
    + intros [Hl Hp]. destruct s as [|a r]; [discriminate|].
      simpl in Hl, Hp. apply andb_true_iff in Hp as [Ha Hr].
      rewrite <- (append_empty_l r), <- append_cons.
      apply lang_cat; [now constructor | apply IH; split; congruence].
Qed.

Lemma chop_newline_rstrip (s : string) : chop_newline (rstrip s) = None.
Proof.
  induction s as [|a r IH]; [reflexivity|].
  rewrite rstrip_cons. destruct (rstrip r) as [|b r'].
  - destruct (isspace a) eqn:E; [reflexivity|]. simpl.
    destruct (Ascii.eqb_spec a "010"); [subst; discriminate | reflexivity].
  - change (option_map (String a) (chop_newline (String b r')) = None).
    now rewrite IH.
Qed.

(** On a trimmed string the line feed clause of [$] is out of reach. *)
Lemma match_anchored_strip (r : regex) (v : string) :
  match_anchored r (strip v) = accepts r (strip v).
Proof.
  unfold match_anchored, strip. rewrite chop_newline_rstrip. apply orb_false_r.
Qed.

Lemma is_hash_spec (v : string) :
  is_hash v = true <->
  all_chars is_hexdigit (strip v) = true /\
  (String.length (strip v) = 32 \/ String.length (strip v) = 40
   \/ String.length (strip v) = 64)%nat.
Proof.
  unfold is_hash, hash_patterns. cbn [existsb snd].
  rewrite !match_anchored_strip, orb_false_r, !orb_true_iff, !accepts_lang, !lang_rep_class.
  tauto.
Qed.

Lemma is_email_has_dot (v : string) :
  is_email v = true -> contains "." (strip v) = true.
Proof.
  unfold is_email. rewrite match_anchored_strip, accepts_lang. unfold email_pattern.
  generalize (strip v). intros s H.
  apply lang_cat_inv in H as (s1 & t1 & -> & _ & H).
  apply lang_cat_inv in H as (s2 & t2 & -> & _ & H).
  apply lang_cat_inv in H as (s3 & t3 & -> & _ & H).
  apply lang_cat_inv in H as (s4 & t4 & -> & H & _).
  apply lang_class_inv in H as (a & -> & Ha). apply Ascii.eqb_eq in Ha as <-.
  rewrite !contains_append. simpl. now rewrite !orb_true_r.
Qed.

Section Trimmed.

Context `{platform : IpAddress}.

Variable s : string.
Hypothesis trimmed : strip s = s.

Lemma is_url_trimmed :
  is_url s = startswith s "http://" || startswith s "https://".
Proof. unfold is_url. now rewrite trimmed. Qed.

Lemma is_ip_trimmed :
  is_ip s = match ip_address s with Some _ => true | None => false end.
Proof. unfold is_ip. now rewrite trimmed. Qed.

Lemma is_domain_trimmed :
  is_domain s =
  if is_url s || is_ip s then false
  else contains "." s && (len s <=? 253)%Z && negb (startswith s ".").
Proof. unfold is_domain. now rewrite trimmed. Qed.

Lemma is_hash_trimmed :
  is_hash s = true <->
  all_chars is_hexdigit s = true /\
  (String.length s = 32 \/ String.length s = 40 \/ String.length s = 64)%nat.
Proof. rewrite is_hash_spec. now rewrite trimmed. Qed.

End Trimmed.

Lemma prefix_lower (p s : string) :
  String.prefix p s = true -> String.prefix (lower p) (lower s) = true.
Proof.
  revert s. induction p as [|a p IH]; intros [|b s]; simpl; try easy.
  destruct (ascii_dec a b) as [->|]; [|discriminate].
  intros Hp. destruct (ascii_dec (lower_char b) (lower_char b)); [now apply IH | congruence].
Qed.

Lemma is_hexdigit_lower (a : ascii) :
  is_hexdigit a = true -> is_hexdigit (lower_char a) = true.
Proof. by_cases_on_char a. Qed.

Lemma all_hex_lower (s : string) :
  all_chars is_hexdigit s = true -> all_chars is_hexdigit (lower s) = true.
Proof.
  induction s as [|a r IH]; [reflexivity|]. simpl.
  rewrite !andb_true_iff. intros [Ha Hr]. split; [now apply is_hexdigit_lower | now apply IH].
Qed.

Lemma prefix_head_neq (a b : ascii) (p s : string) :
  a <> b -> String.prefix (String a p) (String b s) = false.
Proof.
  intros Hab. cbn [String.prefix]. destruct (ascii_dec a b); [contradiction | reflexivity].
Qed.

(** Neither a hexadecimal digit nor a colon is the [h] of [http]. *)
Lemma not_url_by_first_char (c : ascii) (r : string) :
  is_hexdigit c = true \/ c = ":"%char ->
  startswith (String c r) "http://" || startswith (String c r) "https://" = false.
Proof.
  intros Hc. unfold startswith.
  assert (Hne : "h"%char <> c) by (intros <-; destruct Hc as [Hc|Hc]; discriminate Hc).
  change "http://" with (String "h" "ttp://"). change "https://" with (String "h" "ttps://").
  now rewrite !prefix_head_neq.
Qed.

End NormalizerFacts.

(** ** The reference platform has the properties relied upon *)

Module IPv4Facts.

Import PyStr PyStrFacts ReFacts IoCNormalizer NormalizerFacts IPv4.

Lemma split_dots_nonempty (s : string) : split_dots s <> [].
Proof.
  induction s as [|a r IH]; simpl; [discriminate|].
  destruct (Ascii.eqb a "."); [discriminate|]. now destruct (split_dots r).
Qed.

Lemma split_dots_no_dot (s : string) : contains "." s = false -> split_dots s = [s].
Proof.
  induction s as [|a r IH]; [reflexivity|]. simpl.
  intros H. apply orb_false_iff in H as [Ha Hr]. now rewrite Ha, (IH Hr).
Qed.

Lemma split_dots_piece (p rest : string) :
  contains "." p = false ->
  split_dots (p +:+ String "." rest) = p :: split_dots rest.
Proof.
  induction p as [|a r IH]; [reflexivity|].
  intros H. simpl in H. apply orb_false_iff in H as [Ha Hr].
  rewrite append_cons. cbn [split_dots]. now rewrite Ha, (IH Hr).
Qed.

Lemma split_dots_concat (pieces : list string) :
  pieces <> [] ->
  Forall (fun p => contains "." p = false) pieces ->
  split_dots (String.concat "." pieces) = pieces.
Proof.
  induction pieces as [|p ps IH]; [congruence|]. intros _ Hall.
  inversion Hall as [|? ? Hp Hps]; subst. destruct ps as [|q qs].
  - simpl. now apply split_dots_no_dot.
  - change (String.concat "." (p :: q :: qs))
      with (p +:+ String "." (String.concat "." (q :: qs))).
    rewrite (split_dots_piece _ _ Hp), IH; [reflexivity | discriminate | assumption].
Qed.

(** The first piece starts as the string does. *)
Lemma split_dots_head (s : string) (c : ascii) (p : string) (ps : list string) :
  split_dots s = String c p :: ps -> exists r, s = String c r.
Proof.
  destruct s as [|a r]; simpl; [discriminate|].
  destruct (Ascii.eqb a "."); [discriminate|].
  destruct (split_dots r); intros E; injection E as <- _; now exists r.
Qed.

Lemma split_dots_chars (s : string) :
  Forall (fun p => all_chars is_digit p = true) (split_dots s) ->
  all_chars digit_or_dot s = true.
Proof.
  induction s as [|a r IH]; [reflexivity|]. simpl. unfold digit_or_dot at 1.
  destruct (Ascii.eqb a ".") eqn:Ea.
  - intros H. inversion H; subst. rewrite orb_true_r. now apply IH.
  - pose proof (split_dots_nonempty r) as Hne.
    destruct (split_dots r) as [|p ps]; [congruence|].
    intros H. inversion H as [|? ? Hp Hps]; subst. simpl in Hp.
    apply andb_true_iff in Hp as [Ha Hp]. rewrite Ha. apply IH. now constructor.
Qed.

Lemma parse_octet_digits (o : string) (n : N) :
  parse_octet o = Some n -> all_chars is_digit o = true /\ (n <= 255)%N.
Proof.
  unfold parse_octet. destruct o as [|c r]; [discriminate|].
  destruct (all_chars is_digit (String c r)); [|discriminate]. cbn [negb].
  destruct (3 <? String.length (String c r))%nat; [discriminate|].
  destruct (negb (String.eqb (String c r) "0") && Ascii.eqb c "0"); [discriminate|].
  destruct (N.ltb_spec 255 (decimal_value 0 (String c r))); [discriminate|].
  intros E. injection E as <-. now split.
Qed.

Lemma parse_octets_digits (l : list string) (ns : list N) :
  parse_octets l = Some ns ->
  Forall (fun p => all_chars is_digit p = true) l /\ Forall (fun n => (n <= 255)%N) ns
  /\ length ns = length l.
Proof.
  revert ns. induction l as [|o l IH]; intros ns; simpl.
  - intros E. injection E as <-. repeat split; constructor.
  - destruct (parse_octet o) as [n|] eqn:Eo; [|discriminate].
    destruct (parse_octets l) as [ms|]; [|discriminate].
    intros E. injection E as <-. destruct (IH ms eq_refl) as (H1 & H2 & H3).
    apply parse_octet_digits in Eo as [Hd Hn].
    repeat split; [now constructor | now constructor | simpl; congruence].
Qed.

Lemma octet_ok_all (n : N) : (n <= 255)%N -> octet_ok n = true.
Proof.
  intros Hn.
  assert (Hall : forallb (fun k => octet_ok (N.of_nat k)) (seq 0 256) = true)
    by (vm_compute; reflexivity).
  rewrite forallb_forall in Hall. rewrite <- (N2Nat.id n).
  apply Hall, in_seq. lia.
Qed.

Lemma octet_roundtrip (n : N) :
  (n <= 255)%N ->
  parse_octet (octet_str n) = Some n /\ contains "." (octet_str n) = false
  /\ all_chars (fun a => negb (isspace a)) (octet_str n) = true.
Proof.
  intros Hn. pose proof (octet_ok_all n Hn) as H. unfold octet_ok in H.
  apply andb_true_iff in H as [H H3]. apply andb_true_iff in H as [H1 H2].
  destruct (parse_octet (octet_str n)) as [m|]; [|discriminate].
  apply N.eqb_eq in H1 as ->. apply negb_true_iff in H2. now repeat split.
Qed.

Lemma parse_octets_roundtrip (ns : list N) :
  Forall (fun n => (n <= 255)%N) ns -> parse_octets (map octet_str ns) = Some ns.
Proof.
  induction 1 as [|n ns Hn _ IH]; [reflexivity|]. simpl.
  destruct (octet_roundtrip n Hn) as (-> & _). now rewrite IH.
Qed.

Lemma Forall_octet_strs (P : string -> Prop) (ns : list N) :
  (forall n, (n <= 255)%N -> P (octet_str n)) ->
  Forall (fun n => (n <= 255)%N) ns -> Forall P (map octet_str ns).
Proof.
  intros HP. induction 1 as [|n ns Hn _ IH]; simpl; constructor; auto.
Qed.

Lemma parse_to_str (s : string) (a : list N) : parse s = Some a -> parse (to_str a) = Some a.
Proof.
  unfold parse. destruct (Nat.eqb_spec (length (split_dots s)) 4) as [Hlen|]; [|discriminate].
  intros E. apply parse_octets_digits in E as (_ & Hns & Hl).
  unfold to_str. rewrite split_dots_concat.
  - rewrite length_map, Hl, Hlen. cbn [Nat.eqb]. now apply parse_octets_roundtrip.
  - destruct a; [simpl in Hl; lia | discriminate].
  - apply Forall_octet_strs; [|exact Hns].
    intros n Hn. now destruct (octet_roundtrip n Hn) as (_ & ? & _).
Qed.

Lemma all_chars_append (p : ascii -> bool) (s1 s2 : string) :
  all_chars p (s1 +:+ s2) = all_chars p s1 && all_chars p s2.
Proof.
  induction s1 as [|a r IH]; [reflexivity|].
  rewrite append_cons. simpl. now rewrite IH, andb_assoc.
Qed.

Lemma all_chars_concat (p : ascii -> bool) (pieces : list string) :
  p "."%char = true ->
  Forall (fun q => all_chars p q = true) pieces ->
  all_chars p (String.concat "." pieces) = true.
Proof.
  intros Hdot. induction 1 as [|q qs Hq _ IH]; [reflexivity|].
  destruct qs as [|q' qs']; [exact Hq|].
  change (String.concat "." (q :: q' :: qs'))
    with (q +:+ String "." (String.concat "." (q' :: qs'))).
  rewrite all_chars_append, Hq. cbn [all_chars andb]. now rewrite Hdot, IH.
Qed.

Lemma lower_digits_or_dots (s : string) :
  all_chars digit_or_dot (lower s) = true -> lower s = s.
Proof.
  induction s as [|a r IH]; [reflexivity|]. simpl.
  intros H. apply andb_true_iff in H as [Ha Hr]. rewrite (IH Hr). f_equal.
  revert Ha. by_cases_on_char a.
Qed.

Lemma parse_chars (s : string) (a : list N) :
  parse s = Some a -> all_chars digit_or_dot s = true.
Proof.
  unfold parse. destruct (length (split_dots s) =? 4)%nat; [|discriminate].
  intros E. apply parse_octets_digits in E as (H & _). now apply split_dots_chars.
Qed.

Lemma ipv4_laws : IpAddressLaws IPv4.platform.
Proof.
  split.
  - intros s a E. left. cbn in E. destruct (contains "." s) eqn:Hc; [reflexivity|].
    unfold parse in E. rewrite (split_dots_no_dot s Hc) in E. discriminate E.
  - intros s a E. cbn in E. unfold parse in E.
    destruct (length (split_dots s) =? 4)%nat; [|discriminate].
    destruct (split_dots s) as [|o l] eqn:Es; [destruct (split_dots_nonempty s Es)|].
    simpl in E. destruct (parse_octet o) as [n|] eqn:Eo; [|discriminate].
    pose proof (parse_octet_digits _ _ Eo) as [Hd _].
    destruct o as [|c p]; [discriminate Eo|].
    destruct (split_dots_head _ _ _ _ Es) as [r ->]. exists c, r. split; [reflexivity|].
    left. simpl in Hd. apply andb_true_iff in Hd as [Hc _]. revert Hc. by_cases_on_char c.
  - intros s a E. exists a. split; [|reflexivity]. now apply (parse_to_str s).
  - intros s a E _. cbn in *. apply no_space_trimmed. unfold to_str.
    unfold parse in E. destruct (length (split_dots s) =? 4)%nat; [|discriminate].
    apply parse_octets_digits in E as (_ & Hns & _).
    apply all_chars_concat; [reflexivity|]. apply Forall_octet_strs; [|exact Hns].
    intros n Hn. now destruct (octet_roundtrip n Hn) as (_ & _ & ?).
  - intros s a E. cbn in *. exists a.
    now rewrite <- (lower_digits_or_dots s (parse_chars _ _ E)).
Qed.

End IPv4Facts.

(** ** normalization.py: classification and canonical form *)

Module NormalizerTheorems.

Import PyStr PyStrFacts Re ReFacts IoCNormalizer NormalizerFacts.

Section WithPlatform.

Context `{platform : IpAddress}.

Lemma is_url_strip (x : string) : is_url (strip x) = is_url x.
Proof. unfold is_url. now rewrite strip_idem. Qed.

Lemma is_ip_strip (x : string) : is_ip (strip x) = is_ip x.
Proof. unfold is_ip. now rewrite strip_idem. Qed.

Lemma is_hash_strip (x : string) : is_hash (strip x) = is_hash x.
Proof. unfold is_hash. now rewrite strip_idem. Qed.

Lemma is_domain_strip (x : string) : is_domain (strip x) = is_domain x.
Proof. unfold is_domain. now rewrite strip_idem. Qed.

(** A string of hexadecimal digits has nothing to trim. *)
Lemma all_hex_trimmed (s : string) : all_chars is_hexdigit s = true -> strip s = s.
Proof.
  intros Hs. apply no_space_trimmed.
  induction s as [|a r IH]; [reflexivity|]. simpl in *.
  apply andb_true_iff in Hs as [Ha Hr]. rewrite (IH Hr), andb_true_r.
  revert Ha. by_cases_on_char a.
Qed.

(** C3.  [detect_type] gives the type of the first rule that matches, in
    the order IP, Hash, URL, Email, Domain, and Unknown when none does or
    when the value is empty; on a platform whose IP literals all have a dot
    or a colon, every string of exactly 32, 40 or 64 hexadecimal digits, of
    either case and also when all are decimal digits, is a Hash. *)
Theorem detect_type_first_match_hash_first :
  ip_literal_has_separator platform ->
  (forall value,
     detect_type value =
     if String.eqb value EmptyString then "Unknown" else first_matching_rule value) /\
  (forall s,
     all_chars is_hexdigit s = true ->
     (String.length s = 32 \/ String.length s = 40 \/ String.length s = 64)%nat ->
     detect_type s = "Hash").
Proof.
  intros Hsep. split.
  - intros value. unfold detect_type, first_matching_rule, classifier_rules.
    cbn [find fst snd].
    destruct (String.eqb value EmptyString); [reflexivity|].
    destruct (is_ip value); [reflexivity|].
    destruct (is_hash value); [reflexivity|].
    destruct (is_url value); [reflexivity|].
    destruct (is_email value); [reflexivity|].
    destruct (is_domain value); reflexivity.
  - intros s Hhex Hlen. pose proof (all_hex_trimmed s Hhex) as Htrim.
    unfold detect_type.
    destruct (String.eqb_spec s EmptyString) as [->|_].
    { simpl in Hlen. lia. }
    assert (Hip : is_ip s = false).
    { rewrite (is_ip_trimmed s Htrim). destruct (ip_address s) as [a|] eqn:E; [|reflexivity].
      destruct (Hsep s a E) as [Hc|Hc];
        rewrite (all_chars_contains is_hexdigit _ s Hhex) in Hc; discriminate || reflexivity. }
    rewrite Hip.
    assert (Hhash : is_hash s = true) by (apply (is_hash_trimmed s Htrim); now split).
    now rewrite Hhash.
Qed.


(** [normalize_indicator] on the trimmed input. *)
Lemma normalize_indicator_unfold (x : string) :
  normalize_indicator x =
  let s := strip x in
  if is_url s then lower s
  else if is_domain s then lower s
  else if is_hash s then lower s
  else if is_ip s then match ip_address s with Some a => ip_str a | None => s end
  else s.
Proof. reflexivity. Qed.

(** C4, as amended.  On a platform whose IP literals start with a
    hexadecimal digit or a colon: for an input whose detected type is
    Unknown, the canonical form is the trimmed original with no case change;
    for one whose detected type is Email it is the trimmed original in lower
    case, unless the trimmed original is longer than 253 characters or
    starts with a dot, and then it is the trimmed original with no case
    change. *)
Theorem normalize_indicator_unknown_or_email :
  ip_literal_first_char platform ->
  forall x,
    detect_type x = "Unknown" \/ detect_type x = "Email" ->
    normalize_indicator x =
    if String.eqb (detect_type x) "Email" && (len (strip x) <=? 253)%Z
       && negb (startswith (strip x) ".")
    then lower (strip x)
    else strip x.
Proof.
  intros Hfirst x Hty. rewrite normalize_indicator_unfold. cbv zeta.
  rewrite is_url_strip, is_hash_strip, is_ip_strip, is_domain_strip.
  unfold detect_type in *.
  destruct (String.eqb x EmptyString) eqn:Hx.
  { apply String.eqb_eq in Hx. subst x.
    assert (Hip : is_ip EmptyString = false).
    { unfold is_ip. change (strip EmptyString) with EmptyString.
      destruct (ip_address EmptyString) as [a|] eqn:E; [|reflexivity].
      destruct (Hfirst _ _ E) as (c & r & Hc & _). discriminate Hc. }
    unfold is_domain. change (strip EmptyString) with EmptyString. rewrite Hip.
    reflexivity. }
  destruct (is_ip x) eqn:Hip; [destruct Hty; discriminate|].
  destruct (is_hash x) eqn:Hhash; [destruct Hty; discriminate|].
  destruct (is_url x) eqn:Hurl; [destruct Hty; discriminate|].
  destruct (is_email x) eqn:Hemail.
  - assert (Hdom : is_domain x = (len (strip x) <=? 253)%Z && negb (startswith (strip x) ".")).
    { rewrite <- is_domain_strip, (is_domain_trimmed _ (strip_idem x)).
      rewrite is_url_strip, is_ip_strip, Hurl, Hip, (is_email_has_dot x Hemail).
      reflexivity. }
    rewrite Hdom. cbn [String.eqb Ascii.eqb Bool.eqb andb].
    now destruct ((len (strip x) <=? 253)%Z && negb (startswith (strip x) ".")).
  - destruct (is_domain x) eqn:Hdom; [destruct Hty; discriminate|]. reflexivity.
Qed.

(** The canonical form is trimmed, and canonicalizing it changes
    nothing. *)
Lemma normalize_indicator_fixed (laws : IpAddressLaws platform) (x : string) :
  let r := normalize_indicator x in
  strip r = r /\ normalize_indicator r = r.
Proof.
  destruct laws as [Hsep Hfirst Hre Htrim Hcase].
  rewrite normalize_indicator_unfold. cbv zeta.
  pose proof (strip_idem x) as Hs. revert Hs. generalize (strip x). clear x. intros s Hs.
  assert (Hls : strip (lower s) = lower s) by (now rewrite strip_lower, Hs).
  destruct (is_url s) eqn:Hurl.
  { split; [exact Hls|]. rewrite normalize_indicator_unfold. cbv zeta. rewrite Hls.
    assert (Hu : is_url (lower s) = true).
    { rewrite (is_url_trimmed _ Hs) in Hurl. rewrite (is_url_trimmed _ Hls).
      unfold startswith in *. apply orb_true_iff in Hurl as [H|H];
        apply prefix_lower in H; change (String.prefix "http://" (lower s) = true) in H
        || change (String.prefix "https://" (lower s) = true) in H;
        rewrite H; [reflexivity | apply orb_true_r]. }
    rewrite Hu. apply lower_idem. }
  destruct (is_domain s) eqn:Hdom.
  { split; [exact Hls|]. rewrite normalize_indicator_unfold. cbv zeta. rewrite Hls.
    destruct (is_url (lower s)) eqn:Hu; [apply lower_idem|].
    assert (Hd : is_domain (lower s) = true).
    { rewrite (is_domain_trimmed _ Hs), Hurl in Hdom. rewrite (is_domain_trimmed _ Hls), Hu.
      destruct (is_ip s) eqn:Hip; [discriminate|]. cbn [orb] in *.
      assert (Hip' : is_ip (lower s) = false).
      { rewrite (is_ip_trimmed _ Hls). rewrite (is_ip_trimmed _ Hs) in Hip.
        destruct (ip_address (lower s)) as [a|] eqn:E; [|reflexivity].
        destruct (Hcase _ _ E) as [a' E']. now rewrite E' in Hip. }
      rewrite Hip'. now rewrite contains_lower_dot, len_lower, startswith_lower_dot. }
    rewrite Hd. apply lower_idem. }
  destruct (is_hash s) eqn:Hhash.
  { split; [exact Hls|]. rewrite normalize_indicator_unfold. cbv zeta. rewrite Hls.
    apply (is_hash_trimmed _ Hs) in Hhash as [Hhex Hlen].
    pose proof (all_hex_lower _ Hhex) as Hhex'.
    assert (Hu : is_url (lower s) = false).
    { rewrite (is_url_trimmed _ Hls). destruct (lower s) as [|c r] eqn:E.
      - apply lower_eq_empty in E. subst. simpl in Hlen. lia.
      - simpl in Hhex'. apply andb_true_iff in Hhex' as [Hc _].
        apply not_url_by_first_char. now left. }
    assert (Hd : is_domain (lower s) = false).
    { rewrite (is_domain_trimmed _ Hls), (all_chars_contains is_hexdigit "." _ Hhex');
        [|reflexivity]. now destruct (is_url (lower s) || is_ip (lower s)). }
    assert (Hh : is_hash (lower s) = true).
    { apply (is_hash_trimmed _ Hls). now rewrite length_lower. }
    rewrite Hu, Hd, Hh. apply lower_idem. }
  destruct (is_ip s) eqn:Hip; [|split; [exact Hs|]].
  - rewrite (is_ip_trimmed _ Hs) in Hip. destruct (ip_address s) as [a|] eqn:E; [|discriminate].
    destruct (Hre _ _ E) as (a' & E' & Hstr). pose proof (Htrim _ _ E Hs) as Hr.
    split; [exact Hr|]. rewrite normalize_indicator_unfold. cbv zeta. rewrite Hr.
    assert (Hu : is_url (ip_str a) = false).
    { rewrite (is_url_trimmed _ Hr). destruct (Hfirst _ _ E') as (c & r & -> & Hc).
      now apply not_url_by_first_char. }
    assert (Hi : is_ip (ip_str a) = true) by (now rewrite (is_ip_trimmed _ Hr), E').
    assert (Hd : is_domain (ip_str a) = false).
    { rewrite (is_domain_trimmed _ Hr), Hi. now rewrite orb_true_r. }
    assert (Hh : is_hash (ip_str a) = false).
    { destruct (is_hash (ip_str a)) eqn:Hh; [|reflexivity].
      apply (is_hash_trimmed _ Hr) in Hh as [Hhex _].
      destruct (Hsep _ _ E') as [Hc|Hc];
        rewrite (all_chars_contains is_hexdigit _ _ Hhex) in Hc; discriminate || reflexivity. }
    rewrite Hu, Hd, Hh, Hi, E'. exact Hstr.
  - rewrite normalize_indicator_unfold. cbv zeta. rewrite Hs.
    now rewrite Hurl, Hdom, Hhash, Hip.
Qed.

(** C9.  On a platform with the stated properties of IP literals, the
    canonical form of a canonical form is that canonical form; the
    canonicalizer takes no indicator type, it derives the type from the
    string itself, so this holds whatever type is meant. *)
Theorem normalize_indicator_idempotent :
  IpAddressLaws platform ->
  forall x, normalize_indicator (normalize_indicator x) = normalize_indicator x.
Proof.
  intros laws x. exact (proj2 (normalize_indicator_fixed laws x)).
Qed.

End WithPlatform.

End NormalizerTheorems.

(** ** database.py: the upsert of one record *)

Module StoreFacts.

Import CTIDatabase.

Lemma find_none_existsb {A : Type} (p : A -> bool) (l : list A) :
  find p l = None -> existsb p l = false.
Proof.
  induction l as [|x l IH]; [reflexivity|]. simpl.
  destruct (p x); [discriminate | exact IH].
Qed.

Lemma find_some_existsb {A : Type} (p : A -> bool) (l : list A) (x : A) :
  find p l = Some x -> existsb p l = true.
Proof.
  induction l as [|y l IH]; [discriminate|]. simpl.
  destruct (p y); [reflexivity | exact IH].
Qed.

Lemma existsb_false_find {A : Type} (p : A -> bool) (l : list A) :
  existsb p l = false -> find p l = None.
Proof.
  induction l as [|x l IH]; [reflexivity|]. simpl.
  destruct (p x); [discriminate | exact IH].
Qed.

Lemma textval_eqb_eq (a b : textval) : textval_eqb a b = true <-> a = b.
Proof.
  destruct a, b; simpl; rewrite ?String.eqb_eq;
    split; intros H; try discriminate; try congruence.
Qed.

Lemma textval_eqb_refl (a : textval) : textval_eqb a a = true.
Proof. now apply textval_eqb_eq. Qed.

Lemma textval_le_refl (a : textval) : textval_le a a = true.
Proof. destruct a; apply PyStrFacts.le_refl. Qed.

Lemma key_matches_iff (i ty : textval) (r : ioc_row) :
  key_matches i ty r = true <-> key r = (i, ty).
Proof.
  unfold key_matches, key. rewrite andb_true_iff, !textval_eqb_eq.
  split; [intros [-> ->]; reflexivity | intros E; injection E as -> ->; now split].
Qed.

Lemma key_matches_set_columns (i ty ls src : textval) (cnt : Z) (conf thr meta : option textval)
    (r : ioc_row) :
  key_matches i ty (set_columns ls cnt src conf thr meta r) = key_matches i ty r.
Proof. reflexivity. Qed.

Lemma find_map_matching (i ty : textval) (f : ioc_row -> ioc_row) (t : list ioc_row)
    (old : ioc_row) :
  (forall r, key_matches i ty (f r) = key_matches i ty r) ->
  find (key_matches i ty) t = Some old ->
  find (key_matches i ty) (map (fun r => if key_matches i ty r then f r else r) t)
  = Some (f old).
Proof.
  intros Hf. induction t as [|r l IH]; [discriminate|]. simpl.
  destruct (key_matches i ty r) eqn:E.
  - rewrite Hf, E. intros H. now injection H as ->.
  - rewrite E. exact IH.
Qed.

(** A row with another key is where it was, and as it was. *)
Lemma find_map_other (i ty i' ty' : textval) (f : ioc_row -> ioc_row) (t : list ioc_row) :
  (forall r, key (f r) = key r) ->
  (i', ty') <> (i, ty) ->
  find (key_matches i' ty') (map (fun r => if key_matches i ty r then f r else r) t)
  = find (key_matches i' ty') t.
Proof.
  intros Hf Hne. induction t as [|r l IH]; [reflexivity|]. simpl.
  destruct (key_matches i ty r) eqn:E.
  - apply key_matches_iff in E.
    assert (E1 : key_matches i' ty' (f r) = false).
    { destruct (key_matches i' ty' (f r)) eqn:E'; [|reflexivity].
      apply key_matches_iff in E'. rewrite Hf in E'. congruence. }
    assert (E2 : key_matches i' ty' r = false).
    { destruct (key_matches i' ty' r) eqn:E'; [|reflexivity].
      apply key_matches_iff in E'. congruence. }
    now rewrite E1, E2.
  - now rewrite IH.
Qed.

Lemma bind_int_fits (z : Z) : min_int64 <= z <= max_int64 -> bind_int z = Ok z.
Proof.
  intros [H1 H2]. unfold bind_int.
  apply Z.leb_le in H1, H2. now rewrite H1, H2.
Qed.

Lemma bind_int_above (z : Z) : max_int64 < z -> bind_int z = Raise OverflowError.
Proof.
  intros H. unfold bind_int. apply Z.leb_gt in H. rewrite H. now rewrite andb_false_r.
Qed.

Lemma bind_int_ok (z z' : Z) : bind_int z = Ok z' -> z' = z /\ min_int64 <= z <= max_int64.
Proof.
  unfold bind_int. destruct (min_int64 <=? z) eqn:E1; [|discriminate].
  destruct (z <=? max_int64) eqn:E2; [|discriminate].
  apply Z.leb_le in E1, E2. simpl. intros [= <-]. now repeat split.
Qed.

Section OneRecord.

Variables (ioc : pydict) (i ty src conf thr mtext collected_at : string).
Hypothesis normalized : is_normalized ioc i ty src conf thr mtext collected_at.

Variable t : list ioc_row.

Lemma upsert_absent :
  find_row t i ty = None ->
  upsert t ioc = Ok (t ++ [inserted_row i ty src conf thr mtext collected_at], Inserted).
Proof.
  destruct normalized as (Hi & Hty & Hsrc & Hconf & Hthr & (meta & Hmeta & Hjson) & Hat).
  intros Hfind. unfold find_row in Hfind.
  unfold upsert, getitem, dict_get, json_dumps, select_ioc.
  rewrite Hi, Hty, Hsrc, Hconf, Hthr, Hmeta, Hat, Hjson. cbn [bind sql_bind text_affinity].
  rewrite Hfind. rewrite (bind_int_fits 1) by (unfold min_int64, max_int64; lia).
  cbn [bind sql_bind]. unfold insert_ioc. cbn [text_affinity].
  now rewrite (find_none_existsb _ _ Hfind).
Qed.

Lemma upsert_present (old : ioc_row) :
  find_row t i ty = Some old ->
  can_merge old ->
  upsert t ioc = Ok (rewritten_rows t i ty src conf thr mtext collected_at old, Updated).
Proof.
  destruct normalized as (Hi & Hty & Hsrc & Hconf & Hthr & (meta & Hmeta & Hjson) & Hat).
  intros Hfind [[s Hs] Hcnt]. unfold find_row in Hfind.
  unfold upsert, getitem, dict_get, json_dumps, select_ioc.
  rewrite Hi, Hty, Hsrc, Hconf, Hthr, Hmeta, Hat, Hjson. cbn [bind sql_bind text_affinity].
  rewrite Hfind, Hs. cbn [bind sql_bind max_last_seen fetched_value].
  rewrite (bind_int_fits (seen_count old + 1)).
  - cbn [bind]. unfold update_ioc. cbn [text_affinity].
    rewrite (find_some_existsb _ _ _ Hfind). unfold rewritten_rows, later. now rewrite Hs.
  - unfold min_int64, max_int64 in *. lia.
Qed.

(** A row whose counter is at the largest integer, or whose time is not a
    text, is left as it is, and the record is an error. *)
Lemma upsert_refused (old : ioc_row) :
  find_row t i ty = Some old ->
  (forall s, last_seen old <> Text s) \/ max_int64 <= seen_count old ->
  exists e, upsert t ioc = Raise e.
Proof.
  destruct normalized as (Hi & Hty & Hsrc & Hconf & Hthr & (meta & Hmeta & Hjson) & Hat).
  intros Hfind Hno. unfold find_row in Hfind.
  unfold upsert, getitem, dict_get, json_dumps, select_ioc.
  rewrite Hi, Hty, Hsrc, Hconf, Hthr, Hmeta, Hat, Hjson. cbn [bind sql_bind text_affinity].
  rewrite Hfind. destruct (last_seen old) as [s|b] eqn:Hs;
    cbn [bind sql_bind max_last_seen fetched_value]; [|eauto].
  destruct Hno as [Hno|Hge]; [now destruct (Hno s)|].
  rewrite bind_int_above; [cbn [bind]; eauto | lia].
Qed.



Lemma length_rewritten (old : ioc_row) : length (rewritten_rows t i ty src conf thr mtext collected_at old) = length t.
Proof. unfold rewritten_rows. apply length_map. Qed.

End OneRecord.

(** What [normalize_ioc] builds is a normalized record, when the metadata
    can be written as JSON. *)
Lemma normalize_ioc_is_normalized `{platform : IpAddress}
    (now raw src conf thr : string) (metadata : pyval) (mtext : string) :
  Json.dumps (py_or metadata empty_dict) = Some mtext ->
  is_normalized (IoCRecord.normalize_ioc now raw src conf thr metadata)
    (IoCNormalizer.normalize_indicator raw)
    (IoCNormalizer.detect_type (IoCNormalizer.normalize_indicator raw))
    src conf thr mtext now.
Proof.
  intros Hj. unfold is_normalized, IoCRecord.normalize_ioc.
  repeat split; try reflexivity.
  exists (py_or metadata empty_dict). split; [reflexivity | exact Hj].
Qed.

Lemma same_key_same_row (t : list ioc_row) (r r' : ioc_row) :
  List.NoDup (map key t) -> In r t -> In r' t -> key r = key r' -> r = r'.
Proof.
  induction t as [|x l IH]; [intros _ []|]. simpl.
  intros Hnd. inversion Hnd as [|? ? Hx Hl]; subst.
  intros [->|Hr] [->|Hr'] Hk; auto.
  - exfalso. apply Hx. rewrite Hk. now apply in_map.
  - exfalso. apply Hx. rewrite <- Hk. now apply in_map.
Qed.

(** Where no two rows have the same key, the [UPDATE] for a normalized
    record replaces the row of the key by the merged row. *)
Lemma rewritten_rows_replace (t : list ioc_row) (i ty src conf thr mtext collected_at : string)
    (old : ioc_row) :
  List.NoDup (map key t) ->
  find_row t i ty = Some old ->
  rewritten_rows t i ty src conf thr mtext collected_at old =
  map (fun r => if key_matches (Text i) (Text ty) r
                then merged_row old src conf thr mtext collected_at
                else r) t.
Proof.
  intros Hnd Hfind. apply find_some in Hfind as [Hin Hold].
  unfold rewritten_rows. apply map_ext_in. intros r Hr.
  destruct (key_matches (Text i) (Text ty) r) eqn:E; [|reflexivity].
  assert (r = old) as ->; [|reflexivity].
  apply (same_key_same_row t); try assumption.
  apply key_matches_iff in E, Hold. now rewrite E, Hold.
Qed.


End StoreFacts.

(** ** database.py: invariants of the batch *)

Module BatchFacts.

Import CTIDatabase StoreFacts.

(** Going through the successful steps of a computation in [result]. *)
Ltac step_ok H :=
  match type of H with
  | bind ?m _ = Ok _ =>
      let v := fresh "v" in
      let E := fresh "E" in
      destruct m as [v|] eqn:E; [cbn [bind] in H | discriminate H]
  end.

Lemma compare_eq_le (a b c : string) :
  String.compare b c = Eq -> PyStr.le a b = true -> PyStr.le a c = true.
Proof. intros H. apply String.compare_eq_iff in H. now subst. Qed.

Lemma le_trans (a b c : string) :
  PyStr.le a b = true -> PyStr.le b c = true -> PyStr.le a c = true.
Proof.
  intros Hab Hbc. destruct (String.compare b c) eqn:E.
  - now apply (compare_eq_le a b c).
  - unfold PyStr.le, String.leb in *.
    rewrite (PyStrFacts.compare_le_lt a b c); [reflexivity | | exact E].
    intros H. now rewrite H in Hab.
  - unfold PyStr.le, String.leb in Hbc. now rewrite E in Hbc.
Qed.

Lemma le_max_l (a b : string) : PyStr.le a (PyStr.max a b) = true.
Proof. apply PyStrFacts.le_max, PyStrFacts.le_refl. Qed.

Lemma textval_le_trans (a b c : textval) :
  textval_le a b = true -> textval_le b c = true -> textval_le a c = true.
Proof.
  destruct a, b, c; simpl; try discriminate; try reflexivity; apply le_trans.
Qed.

Lemma not_in_keys (i ty : textval) (t : list ioc_row) :
  existsb (key_matches i ty) t = false -> ~ In (i, ty) (map key t).
Proof.
  intros Hex Hin. apply in_map_iff in Hin as (r & Hk & Hr).
  apply key_matches_iff in Hk.
  assert (H : existsb (key_matches i ty) t = true) by (apply existsb_exists; eauto).
  congruence.
Qed.

Lemma find_in {A : Type} (p : A -> bool) (l : list A) (x : A) :
  find p l = Some x -> In x l /\ p x = true.
Proof. apply find_some. Qed.

(** The value that [max(last_seen, v)] gives is bound as a value of the
    column that is not before the one read. *)
Lemma max_last_seen_le (held : textval) (v new_last : pyval) (p : sqlval) :
  max_last_seen (fetched_value held) v = Ok new_last ->
  sql_bind new_last = Ok p ->
  exists ls, text_affinity p = Some ls /\ textval_le held ls = true.
Proof.
  destruct held as [a|a], v as [| | | |b|b|]; simpl; try discriminate;
    intros [= <-] [= <-]; eexists; (split; [reflexivity|]); simpl; apply le_max_l.
Qed.

(** What a successful [upsert] has done, whatever the record is: for a key
    that no row had, a row is added at the end, first and last seen at the
    same time and seen once; for a key that a row had, the rows of the key
    are rewritten, with a last seen that is not before the one of the row
    found and its seen count plus one. *)
Lemma upsert_ok_inv (t t' : list ioc_row) (ioc : pydict) (ch : change) :
  upsert t ioc = Ok (t', ch) ->
  exists i ty,
    match ch with
    | Inserted =>
        find (key_matches i ty) t = None /\
        exists src fs conf thr meta,
          t' = t ++ [ {| indicator := i; type_ := ty; source := src;
                         first_seen := fs; last_seen := fs; seen_count := 1;
                         confidence := conf; threat_level := thr; metadata := meta |} ]
    | Updated =>
        exists old ls src conf thr meta,
          find (key_matches i ty) t = Some old /\
          textval_le (last_seen old) ls = true /\
          min_int64 <= seen_count old + 1 <= max_int64 /\
          t' = map (fun r => if key_matches i ty r
                             then set_columns ls (seen_count old + 1) src conf thr meta r
                             else r) t
    end.
Proof.
  intros H. unfold upsert in H.
  do 4 step_ok H.
  destruct (select_ioc t _ _) as [[[fs ls] cnt]|] eqn:Hsel in H.
  - (* the key is in the table *)
    unfold select_ioc in Hsel.
    repeat match type of Hsel with
           | match ?o with Some _ => _ | None => _ end = _ =>
               let E := fresh "E" in destruct o eqn:E; [|discriminate Hsel]
           end.
    injection Hsel as _ <- <-.
    repeat step_ok H. injection H as <- <-.
    lazymatch goal with
    | Hmax : max_last_seen _ _ = Ok ?nl, Hb : sql_bind ?nl = Ok _ |- _ =>
        destruct (max_last_seen_le _ _ _ _ Hmax Hb) as (ls & Hls & Hle)
    end.
    lazymatch goal with
    | Hcnt : bind_int _ = Ok _ |- _ => apply bind_int_ok in Hcnt as [-> Hrange]
    end.
    lazymatch goal with
    | Hupd : update_ioc _ _ _ ?src _ _ _ _ _ = Ok _, Hfind : find _ _ = Some ?old |- _ =>
        unfold update_ioc in Hupd;
        repeat match type of Hupd with
               | context [text_affinity ?q] =>
                   match goal with
                   | Ha : text_affinity q = Some _ |- _ => rewrite Ha in Hupd
                   end
               end;
        rewrite (find_some_existsb _ _ _ Hfind) in Hupd;
        destruct (text_affinity src) eqn:Hsrc; [|discriminate Hupd];
        injection Hupd as <-;
        eexists _, _, old, ls; eauto 10
    end.
  - (* the key is not in the table *)
    repeat step_ok H. injection H as <- <-.
    lazymatch goal with
    | Hcnt : bind_int _ = Ok _ |- _ => apply bind_int_ok in Hcnt as [-> _]
    end.
    lazymatch goal with
    | Hins : insert_ioc _ ?i ?ty ?src ?fs ?ls _ _ _ _ = Ok _ |- _ =>
        unfold insert_ioc in Hins;
        destruct (text_affinity i); [|discriminate Hins];
        destruct (text_affinity ty); [|discriminate Hins];
        destruct (text_affinity src); [|discriminate Hins];
        destruct (text_affinity fs); [|discriminate Hins];
        match type of Hins with
        | context [existsb ?p ?l] =>
            destruct (existsb p l) eqn:Hex; [discriminate Hins|]
        end;
        injection Hins as <-
    end.
    eexists _, _. split; [apply existsb_false_find; exact Hex|]. eauto 10.
Qed.

(** The [UPDATE] keeps the keys, and keeps every row well formed when the
    new last seen is not before the old one and the new count is the old
    one plus one. *)
Lemma update_store_ok (t : list ioc_row) (i ty : textval) (old : ioc_row) (ls src : textval)
    (conf thr meta : option textval) :
  store_ok t ->
  find (key_matches i ty) t = Some old ->
  textval_le (last_seen old) ls = true ->
  store_ok (map (fun r => if key_matches i ty r
                          then set_columns ls (seen_count old + 1) src conf thr meta r
                          else r) t).
Proof.
  intros [Hrows Hkeys] Hfind Hls. apply find_in in Hfind as [Hin Hold].
  split.
  - apply List.Forall_forall. intros r' Hr'. apply in_map_iff in Hr' as (r & <- & Hr).
    rewrite List.Forall_forall in Hrows. destruct (key_matches i ty r) eqn:E; [|now apply Hrows].
    assert (r = old) as ->.
    { apply (same_key_same_row t); try assumption.
      apply key_matches_iff in E. apply key_matches_iff in Hold. now rewrite E, Hold. }
    destruct (Hrows old Hin) as [Hle Hcnt]. split; simpl.
    + now apply (textval_le_trans _ (last_seen old)).
    + lia.
  - rewrite map_map. erewrite map_ext; [exact Hkeys|].
    intros r. now destruct (key_matches i ty r).
Qed.

Lemma insert_store_ok (t : list ioc_row) (i ty src s : textval) (conf thr meta : option textval) :
  store_ok t ->
  find (key_matches i ty) t = None ->
  store_ok (t ++ [ {| indicator := i; type_ := ty; source := src;
                      first_seen := s; last_seen := s; seen_count := 1;
                      confidence := conf; threat_level := thr; metadata := meta |} ]).
Proof.
  intros [Hrows Hkeys] Hex. apply find_none_existsb in Hex. split.
  - apply List.Forall_app. split; [assumption|]. constructor; [|constructor].
    split; simpl; [apply textval_le_refl | lia].
  - rewrite map_app. simpl. apply List.NoDup_app; repeat split.
    + assumption.
    + constructor; [intros [] | constructor].
    + intros k Hk [<-|[]]. now apply (not_in_keys i ty t).
Qed.

(** Whatever the record is, a successful [upsert] keeps the invariant. *)
Lemma upsert_store_ok (t t' : list ioc_row) (ioc : pydict) (ch : change) :
  store_ok t -> upsert t ioc = Ok (t', ch) -> store_ok t'.
Proof.
  intros Hok H. destruct (upsert_ok_inv _ _ _ _ H) as (i & ty & Hinv). destruct ch.
  - destruct Hinv as (Hfind & src & fs & conf & thr & meta & ->). now apply insert_store_ok.
  - destruct Hinv as (old & ls & src & conf & thr & meta & Hfind & Hle & _ & ->).
    now apply update_store_ok.
Qed.

(** The keys of the table are kept by a successful [upsert], in their
    order; at most one is added. *)
Lemma upsert_keys (t t' : list ioc_row) (ioc : pydict) (ch : change) :
  upsert t ioc = Ok (t', ch) -> exists extra, map key t' = map key t ++ extra.
Proof.
  intros H. destruct (upsert_ok_inv _ _ _ _ H) as (i & ty & Hinv). destruct ch.
  - destruct Hinv as (Hfind & src & fs & conf & thr & meta & ->).
    eexists. now rewrite map_app.
  - destruct Hinv as (old & ls & src & conf & thr & meta & Hfind & Hle & _ & ->).
    exists []. rewrite app_nil_r, map_map. apply map_ext.
    intros r. now destruct (key_matches _ _ r).
Qed.

(** *** The loop *)

(** An induction over the loop: [P] holds of the state in which the loop is
    left if it holds at the start and every way through the body keeps
    it. *)
Lemma for_each_ioc_ind (P : list ioc_row -> stats -> Prop) :
  (forall t st ioc t' ch, P t st -> upsert t ioc = Ok (t', ch) ->
     P t' (match ch with
           | Inserted => incr_new (incr_processed st)
           | Updated => incr_updated (incr_processed st)
           end)) ->
  (forall t st ioc e, P t st -> upsert t ioc = Raise e ->
     P t (incr_errors (incr_processed st))) ->
  forall batch t st, P t st -> P (table_after batch t st) (stats_after batch t st).
Proof.
  intros Hok Herr. unfold table_after, stats_after.
  induction batch as [|ioc rest IH]; intros t st HP; [exact HP|].
  cbn [for_each_ioc]. destruct (upsert t ioc) as [[t' ch]|e] eqn:E.
  - specialize (Hok t st ioc t' ch HP E). destruct ch; now apply IH.
  - specialize (Herr t st ioc e HP E).
    destruct (getitem ioc "indicator"); [now apply IH | exact Herr].
Qed.

Lemma for_each_ioc_store_ok (batch : list pydict) (t : list ioc_row) (st : stats) :
  store_ok t -> store_ok (table_after batch t st).
Proof.
  intros H. apply (for_each_ioc_ind (fun t _ => store_ok t)); try assumption.
  - intros t0 _ ioc t' ch H0 E. exact (upsert_store_ok _ _ _ _ H0 E).
  - intros t0 _ _ _ H0 _. exact H0.
Qed.

Lemma for_each_ioc_balanced (batch : list pydict) (t : list ioc_row) (st : stats) :
  balanced st -> balanced (stats_after batch t st).
Proof.
  intros H. apply (for_each_ioc_ind (fun _ st => balanced st)); try assumption.
  - intros _ st0 _ _ ch H0 _. unfold balanced in *. destruct ch; simpl; lia.
  - intros _ st0 _ _ H0 _. unfold balanced in *. simpl. lia.
Qed.

Lemma for_each_ioc_keys (batch : list pydict) (t : list ioc_row) (st : stats) :
  incl (map key t) (map key (table_after batch t st)).
Proof.
  apply (for_each_ioc_ind (fun t' _ => incl (map key t) (map key t'))).
  - intros t0 _ ioc t' ch H0 E. destruct (upsert_keys _ _ _ _ E) as [extra ->].
    now apply incl_appl.
  - intros t0 _ _ _ H0 _. exact H0.
  - apply incl_refl.
Qed.

Lemma insert_or_update_iocs_store_ok (db : database) (batch : list pydict) :
  store_ok (iocs db) ->
  store_ok (iocs (outcome_db (insert_or_update_iocs db batch))).
Proof.
  intros H. pose proof (for_each_ioc_store_ok batch (iocs db) zero_stats H) as H'.
  unfold insert_or_update_iocs, table_after in *.
  destruct (for_each_ioc batch (iocs db) zero_stats) as [[[[]|e] t] st]; exact H'.
Qed.

(** The table of a new database satisfies the invariant, so it is
    satisfied after any sequence of batches from there. *)
Lemma invariant_from_new_database (batches : list (list pydict)) :
  store_ok (iocs (fold_left (fun db batch => outcome_db (insert_or_update_iocs db batch))
                    batches empty_database)).
Proof.
  assert (H : store_ok (iocs empty_database)) by (split; constructor).
  revert H. generalize empty_database. induction batches as [|b bs IH]; intros db H; [exact H|].
  simpl. apply IH. now apply insert_or_update_iocs_store_ok.
Qed.

(** C2.  When the table satisfies the invariant (first seen no later than
    last seen and a seen count of at least 1 in every row, no key
    [(indicator, type)] in two rows), it satisfies it after an upsert batch,
    whatever the batch holds and however the method is left. *)
Theorem upsert_batch_keeps_invariant (db : database) (batch : list pydict) :
  store_ok (iocs db) ->
  store_ok (iocs (outcome_db (insert_or_update_iocs db batch))).
Proof. apply insert_or_update_iocs_store_ok. Qed.

(** C10.  The statistics that an upsert batch returns count every record
    exactly once: [processed] is the sum of [new], [updated] and
    [errors]. *)
Theorem returned_stats_balanced (db db' : database) (batch : list pydict) (st : stats) :
  insert_or_update_iocs db batch = Returned st db' ->
  processed st = new st + updated st + errors st.
Proof.
  intros H. assert (H0 : balanced zero_stats) by reflexivity.
  pose proof (for_each_ioc_balanced batch (iocs db) zero_stats H0) as Hb.
  unfold insert_or_update_iocs, stats_after in *.
  destruct (for_each_ioc batch (iocs db) zero_stats) as [[[[]|e] t] st0]; [|discriminate].
  injection H as <- _. exact Hb.
Qed.

(** When every record has an [indicator], no exception leaves the loop:
    each one raised by a record is counted and the loop goes on, and the
    whole batch is processed. *)
Lemma for_each_ioc_returns (batch : list pydict) (t : list ioc_row) (st : stats) :
  Forall has_indicator batch ->
  fst (fst (for_each_ioc batch t st)) = Ok tt /\
  processed (stats_after batch t st) = processed st + Z.of_nat (length batch).
Proof.
  unfold stats_after. intros H. revert t st.
  induction H as [|ioc rest Hi _ IH]; intros t st; [simpl; split; [reflexivity | lia]|].
  cbn [for_each_ioc]. unfold has_indicator, dict_contains in Hi. unfold getitem.
  destruct (ioc !! "indicator"); [|discriminate].
  destruct (upsert t ioc) as [[t' []]|e];
    match goal with
    | |- context [for_each_ioc rest ?t0 ?st0] =>
        destruct (IH t0 st0) as [-> ->]
    end; (split; [reflexivity | simpl; lia]).
Qed.

Lemma insert_or_update_iocs_returns (db : database) (batch : list pydict) :
  Forall has_indicator batch ->
  insert_or_update_iocs db batch =
  Returned (stats_after batch (iocs db) zero_stats)
    (with_iocs db (table_after batch (iocs db) zero_stats)).
Proof.
  intros H. destruct (for_each_ioc_returns batch (iocs db) zero_stats H) as [Hr _].
  unfold insert_or_update_iocs, stats_after, table_after.
  destruct (for_each_ioc batch (iocs db) zero_stats) as [[r t] st]. simpl in *. now subst.
Qed.

(** *** Batches of normalized records *)

Lemma text_field_lookup (ioc : pydict) (k s : string) :
  text_field ioc k = Some s <-> ioc !! k = Some (PyStr s).
Proof.
  unfold text_field. destruct (ioc !! k) as [[]|]; split; intros H; try discriminate; congruence.
Qed.

Lemma sighting_of_is_normalized (ioc : pydict) (s : sighting) :
  sighting_of ioc = Some s ->
  is_normalized ioc (seen_indicator s) (seen_type s) (seen_source s) (seen_confidence s)
    (seen_threat_level s) (seen_metadata s) (seen_at s).
Proof.
  unfold sighting_of, is_normalized.
  destruct (text_field ioc "indicator") as [i|] eqn:Hi; [|discriminate].
  destruct (text_field ioc "type") as [ty|] eqn:Hty; [|discriminate].
  destruct (text_field ioc "source") as [src|] eqn:Hsrc; [|discriminate].
  destruct (text_field ioc "confidence") as [conf|] eqn:Hconf; [|discriminate].
  destruct (text_field ioc "threat_level") as [thr|] eqn:Hthr; [|discriminate].
  destruct (ioc !! "metadata") as [meta|] eqn:Hmeta; [|discriminate].
  cbn [mbind option_bind].
  destruct (Json.dumps meta) as [mtext|] eqn:Hjson; [|discriminate].
  destruct (text_field ioc "date_collected") as [collected_at|] eqn:Hat; [|discriminate].
  cbn [mbind option_bind]. intros [= <-]. cbn.
  apply text_field_lookup in Hi, Hty, Hsrc, Hconf, Hthr, Hat.
  repeat split; try assumption. now exists meta.
Qed.

Lemma is_normalized_sighting_of (ioc : pydict) (i ty src conf thr mtext collected_at : string) :
  is_normalized ioc i ty src conf thr mtext collected_at ->
  sighting_of ioc =
  Some {| seen_indicator := i; seen_type := ty; seen_source := src;
          seen_confidence := conf; seen_threat_level := thr;
          seen_metadata := mtext; seen_at := collected_at |}.
Proof.
  intros (Hi & Hty & Hsrc & Hconf & Hthr & (meta & Hmeta & Hjson) & Hat).
  apply text_field_lookup in Hi, Hty, Hsrc, Hconf, Hthr, Hat.
  unfold sighting_of. rewrite Hi, Hty, Hsrc, Hconf, Hthr, Hmeta. cbn [mbind option_bind].
  rewrite Hjson, Hat. reflexivity.
Qed.

Lemma takes_can_merge (n : nat) (t : list ioc_row) (i ty : string) (old : ioc_row) :
  takes (S n) t -> find_row t i ty = Some old -> can_merge old.
Proof.
  intros [_ Hrows] Hfind. apply find_in in Hfind as [Hin _].
  rewrite List.Forall_forall in Hrows. destruct (Hrows old Hin) as (Htext & Hmin & Hmax).
  split; [exact Htext|]. lia.
Qed.

Lemma takes_inserted (n : nat) (t : list ioc_row) (i ty src conf thr mtext collected_at : string) :
  takes (S n) t -> takes n (t ++ [inserted_row i ty src conf thr mtext collected_at]).
Proof.
  intros [Hn Hrows]. split; [lia|]. apply List.Forall_app. split.
  - eapply List.Forall_impl; [|exact Hrows]. intros r (Htext & Hmin & Hmax).
    split; [exact Htext|]. lia.
  - constructor; [|constructor]. cbn. split; [eauto|]. unfold min_int64. lia.
Qed.

Lemma takes_rewritten (n : nat) (t : list ioc_row) (i ty src conf thr mtext collected_at : string)
    (old : ioc_row) :
  takes (S n) t -> find_row t i ty = Some old ->
  takes n (rewritten_rows t i ty src conf thr mtext collected_at old).
Proof.
  intros Ht Hfind. destruct (takes_can_merge _ _ _ _ _ Ht Hfind) as [[s Hs] Hcnt].
  destruct Ht as [Hn Hrows]. apply find_in in Hfind as [Hin _].
  destruct (proj1 (List.Forall_forall _ _) Hrows old Hin) as (_ & Hmin_old & Hmax_old).
  split; [lia|]. unfold rewritten_rows. apply List.Forall_forall.
  intros r' Hr'. apply in_map_iff in Hr' as (r & <- & Hr).
  rewrite List.Forall_forall in Hrows. destruct (Hrows r Hr) as (Htext & Hmin & Hmax).
  destruct (key_matches (Text i) (Text ty) r).
  - cbn. rewrite Hs. cbn. split; [eauto|]. lia.
  - split; [exact Htext|]. lia.
Qed.

(** On a table that satisfies the invariant and can take that many
    sightings, the loop over a batch of normalized records ends at the end
    of the list, with the table and the counters that the specification
    wants. *)
Lemma for_each_ioc_merge_all (batch : list pydict) (t : list ioc_row) (st : stats) :
  Forall normalized batch ->
  store_ok t ->
  takes (length batch) t ->
  for_each_ioc batch t st = (Ok tt, fst (merge_all batch t st), snd (merge_all batch t st)).
Proof.
  intros H. revert t st. induction H as [|ioc rest [s Hs] _ IH]; intros t st Hok Ht;
    [reflexivity|].
  pose proof (sighting_of_is_normalized _ _ Hs) as Hn.
  cbn [for_each_ioc merge_all length] in *. rewrite Hs.
  unfold merge_sighting, count_sighting.
  destruct (find_row t (seen_indicator s) (seen_type s)) as [old|] eqn:Hfind.
  - pose proof (upsert_present _ _ _ _ _ _ _ _ Hn t old Hfind
                  (takes_can_merge _ _ _ _ _ Ht Hfind)) as Hup.
    rewrite Hup. rewrite <- (rewritten_rows_replace t _ _ _ _ _ _ _ old (proj2 Hok) Hfind).
    apply IH; [exact (upsert_store_ok _ _ _ _ Hok Hup) | now apply takes_rewritten].
  - pose proof (upsert_absent _ _ _ _ _ _ _ _ Hn t Hfind) as Hup.
    rewrite Hup.
    apply IH; [exact (upsert_store_ok _ _ _ _ Hok Hup) | now apply takes_inserted].
Qed.

Lemma normalized_has_indicator (ioc : pydict) : normalized ioc -> has_indicator ioc.
Proof.
  intros [s Hs]. destruct (sighting_of_is_normalized _ _ Hs) as (Hi & _).
  unfold has_indicator, dict_contains. now rewrite Hi.
Qed.

Lemma merge_all_counts (batch : list pydict) (t : list ioc_row) (st : stats) :
  Forall normalized batch ->
  let st' := snd (merge_all batch t st) in
  processed st' = processed st + Z.of_nat (length batch) /\
  new st' + updated st' = new st + updated st + Z.of_nat (length batch) /\
  errors st' = errors st /\
  Z.of_nat (length (fst (merge_all batch t st))) = Z.of_nat (length t) + (new st' - new st).
Proof.
  intros H. revert t st. induction H as [|ioc rest [s Hs] _ IH]; intros t st.
  - cbn. repeat split; lia.
  - cbn [merge_all length]. rewrite Hs.
    specialize (IH (merge_sighting t s) (count_sighting t s st)). cbn zeta in IH.
    destruct IH as (Hp & Hnu & He & Hl). cbn zeta.
    rewrite Hp, He, Hl. clear Hp He Hl. unfold merge_sighting, count_sighting in *.
    destruct (find_row t (seen_indicator s) (seen_type s)); cbn in *;
      rewrite ?length_map, ?length_app in *; cbn in *; repeat split; lia.
Qed.

End BatchFacts.

(** ** scheduler.py: one collection run *)

Module CycleFacts.

Import CTIDatabase CTIScheduler StoreFacts BatchFacts.

Lemma collect_otx_domains_items (fetch : string -> fetched (list pydict))
    (domains : list string) (acc : collected) :
  fst (collect_otx_domains fetch domains acc) =
  fst acc ++ flat_map (fun domain => items_of (fetch domain)) domains.
Proof.
  revert acc. induction domains as [|d ds IH]; intros [all_iocs errs]; simpl.
  - now rewrite app_nil_r.
  - destruct (fetch d) as [e|l]; rewrite IH; simpl; [reflexivity | now rewrite app_assoc].
Qed.

(** What [run_collection] has in [all_iocs] is what the fetches that
    succeeded gave, in order. *)
Lemma collect_successful_items (c : collaborators) : fst (collect c) = successful_items c.
Proof.
  unfold collect, collect_malwarebazaar, collect_abuseipdb, collect_otx, successful_items.
  destruct (Config c) as [e|config]; [reflexivity|].
  destruct (fetch_malwarebazaar c _) as [e3|l3];
    destruct (fetch_abuseipdb c _) as [e2|l2];
    cbn [fst snd items_of]; rewrite collect_otx_domains_items; cbn [fst];
    rewrite ?app_nil_r; try reflexivity.
  now rewrite app_assoc.
Qed.

Lemma no_log_entry_without_write (db : database) : ~ log_entry_written db db.
Proof.
  intros [entry H]. apply (f_equal (@length _)) in H.
  rewrite length_app in H. simpl in H. lia.
Qed.

(** A normalized record of the batch has a row with its key when the loop
    is left at the end of the list. *)
Lemma for_each_ioc_stores (batch : list pydict) (t : list ioc_row) (st : stats)
    (ioc : pydict) (i ty src conf thr mtext collected_at : string) :
  Forall has_indicator batch ->
  In ioc batch ->
  is_normalized ioc i ty src conf thr mtext collected_at ->
  In (Text i, Text ty) (map key (table_after batch t st)).
Proof.
  intros Hall. revert t st. induction Hall as [|x rest Hx _ IH]; intros t st Hin Hn; [destruct Hin|].
  destruct Hin as [->|Hin].
  - destruct (find_row t i ty) as [old|] eqn:Hf.
    + apply (for_each_ioc_keys (ioc :: rest)).
      apply find_in in Hf as [Hr Hk].
      apply key_matches_iff in Hk. rewrite <- Hk. now apply in_map.
    + unfold table_after. cbn [for_each_ioc].
      rewrite (upsert_absent _ _ _ _ _ _ _ _ Hn t Hf).
      apply (for_each_ioc_keys rest). rewrite map_app. apply in_or_app.
      right. now left.
  - unfold table_after in *. cbn [for_each_ioc].
    unfold has_indicator, dict_contains in Hx. unfold getitem.
    destruct (x !! "indicator"); [|discriminate].
    destruct (upsert t x) as [[t' []]|e]; now apply IH.
Qed.

(** C5, as amended.  When nothing was collected, [run_collection] returns
    status [no_data] with all four counters at zero, the errors of the
    fetches and a total of zero, and it leaves the database as it was: no
    entry is written to the collection log. *)
Theorem run_collection_no_data (c : collaborators) (db : database) :
  successful_items c = [] ->
  run_collection c db =
  Returned {| cycle_status := "no_data";
              cycle_stats := {| processed := 0; new := 0; updated := 0; errors := 0 |};
              cycle_errors := snd (collect c);
              total_collected := 0 |} db
  /\ ~ log_entry_written db (outcome_db (run_collection c db)).
Proof.
  intros H. rewrite <- collect_successful_items in H.
  unfold run_collection. destruct (collect c) as [all_iocs errs]. simpl in H. subst.
  split; [reflexivity | apply no_log_entry_without_write].
Qed.

(** C8.  When every collected record has an [indicator], [run_collection]
    returns; its status is [no_data] exactly when the fetches that
    succeeded gave no record and [success] otherwise, whatever fetches
    failed, and the errors of the failed fetches are returned.  Every
    normalized record that a successful fetch gave has, afterwards, a row
    with its key in the table.  And when the records that the successful
    fetches gave are normalized, on a table that satisfies the invariant and
    can take that many sightings, the table afterwards and the counters
    returned are those that the specification wants after these records,
    feed after feed: a new row for each key seen for the first time, the
    merged row for each key seen again. *)
Theorem run_collection_status (c : collaborators) (db : database) :
  Forall has_indicator (successful_items c) ->
  exists r db',
    run_collection c db = Returned r db' /\
    (cycle_status r = "no_data" <-> successful_items c = []) /\
    (cycle_status r = "success" <-> successful_items c <> []) /\
    cycle_errors r = snd (collect c) /\
    (successful_items c <> [] ->
     forall ioc i ty src conf thr mtext collected_at,
       In ioc (successful_items c) ->
       is_normalized ioc i ty src conf thr mtext collected_at ->
       In (Text i, Text ty) (map key (iocs db'))) /\
    (Forall normalized (successful_items c) ->
     store_ok (iocs db) ->
     takes (length (successful_items c)) (iocs db) ->
     iocs db' = fst (merge_all (successful_items c) (iocs db) zero_stats) /\
     cycle_stats r = snd (merge_all (successful_items c) (iocs db) zero_stats)).
Proof.
  intros Hall. rewrite <- collect_successful_items in *.
  unfold run_collection. destruct (collect c) as [all_iocs errs]. cbn [fst snd] in *.
  destruct all_iocs as [|x rest].
  - eexists _, _. split; [reflexivity|]. cbn [cycle_status cycle_errors cycle_stats].
    repeat split; try congruence; try discriminate.
  - rewrite (insert_or_update_iocs_returns db _ Hall).
    eexists _, _. split; [reflexivity|]. cbn [cycle_status cycle_errors cycle_stats].
    split; [split; [discriminate | congruence]|].
    split; [split; [discriminate | reflexivity]|].
    split; [reflexivity|]. split.
    + intros _ ioc i ty src conf thr mtext collected_at Hin Hn.
      cbn [log_collection iocs with_iocs].
      now apply (for_each_ioc_stores _ _ _ ioc i ty src conf thr mtext collected_at).
    + intros Hnorm Hok Ht. cbn [log_collection iocs with_iocs].
      unfold table_after, stats_after.
      now rewrite (for_each_ioc_merge_all _ _ zero_stats Hnorm Hok Ht).
Qed.

End CycleFacts.

(** ** normalization.py: [validate_ioc] *)

Module ValidationFacts.

Import IoCRecord.

(** C6, as amended.  [validate_ioc] is true exactly when the keys
    [indicator], [type] and [source] are all in the record, whatever is
    under them; so it is true when the three fields are not empty, and
    also when they are there and empty. *)
Theorem validate_ioc_checks_keys (ioc : pydict) :
  (validate_ioc ioc = true <->
   is_Some (ioc !! "indicator") /\ is_Some (ioc !! "type") /\ is_Some (ioc !! "source"))
  /\ (field_non_empty ioc "indicator" /\ field_non_empty ioc "type"
      /\ field_non_empty ioc "source" -> validate_ioc ioc = true).
Proof.
  assert (Hkeys : validate_ioc ioc = true <->
            is_Some (ioc !! "indicator") /\ is_Some (ioc !! "type")
            /\ is_Some (ioc !! "source")).
  { unfold validate_ioc, required_fields, dict_contains. cbn [forallb].
    rewrite andb_true_r, !andb_true_iff.
    destruct (ioc !! "indicator"), (ioc !! "type"), (ioc !! "source");
      split; intros (H1 & H2 & H3); repeat split; eauto;
      try discriminate; try (now destruct H1); try (now destruct H2); now destruct H3. }
  split; [exact Hkeys|].
  intros ((v1 & H1 & _) & (v2 & H2 & _) & (v3 & H3 & _)).
  apply Hkeys. rewrite H1, H2, H3. eauto.
Qed.

End ValidationFacts.

(** ** The properties at the sample data *)

Module SampleFacts.

Import PyStr IoCNormalizer IoCRecord CTIDatabase CTIScheduler Samples.
Import NormalizerTheorems StoreFacts BatchFacts CycleFacts ValidationFacts.

Lemma first_sighting_normalized :
  is_normalized first_sighting "203.0.113.5" "IP" "TestFeed" "high" "medium" "{}"
    "2024-01-02T00:00:00".
Proof.
  unfold is_normalized. repeat split; try (vm_compute; reflexivity).
  exists empty_dict. split; vm_compute; reflexivity.
Qed.




(** What the code does there: the binding of the new count raises, the
    record is counted as an error and the row is left as it was. *)
Example largest_count_is_an_error :
  upsert counted_out first_sighting = Raise OverflowError /\
  insert_or_update_iocs {| iocs := counted_out; collection_logs := [] |} [first_sighting] =
  Returned {| processed := 1; new := 0; updated := 0; errors := 1 |}
    {| iocs := counted_out; collection_logs := [] |}.
Proof. split; vm_compute; reflexivity. Qed.

(** The scenario of the specification: the same indicator twice in one
    batch is one new and one updated record, seen twice, first seen at the
    first sighting and last seen at the later of the two. *)
Example same_indicator_twice :
  insert_or_update_iocs empty_database [first_sighting; older_sighting] =
  Returned {| processed := 2; new := 1; updated := 1; errors := 0 |}
    {| iocs := [ {| indicator := Text "203.0.113.5"; type_ := Text "IP";
                    source := Text "OtherFeed";
                    first_seen := Text "2024-01-02T00:00:00";
                    last_seen := Text "2024-01-02T00:00:00";
                    seen_count := 2; confidence := Some (Text "low");
                    threat_level := Some (Text "high"); metadata := Some (Text "{}") |} ];
       collection_logs := [] |}.
Proof. vm_compute. reflexivity. Qed.

Lemma upsert_batch_keeps_invariant_witness :
  store_ok (iocs empty_database) /\
  store_ok (iocs (outcome_db (insert_or_update_iocs empty_database
                                [first_sighting; unserializable; older_sighting]))).
Proof.
  assert (H : store_ok (iocs empty_database)) by (split; constructor).
  split; [exact H|]. exact (upsert_batch_keeps_invariant empty_database _ H).
Defined.

Lemma detect_type_first_match_hash_first_witness :
  ip_literal_has_separator IPv4.platform /\
  detect_type (platform := IPv4.platform) "12345678901234567890123456789012" = "Hash".
Proof.
  pose proof (law_separator _ IPv4Facts.ipv4_laws) as Hsep. split; [exact Hsep|].
  apply (proj2 (detect_type_first_match_hash_first (platform := IPv4.platform) Hsep));
    [vm_compute; reflexivity | left; reflexivity].
Defined.

(** C4 fails on the code: an address with capitals is detected as Email and
    its canonical form is not the trimmed original. *)
Lemma normalize_indicator_email_counterexample :
  ~ (detect_type (platform := IPv4.platform) "User@Example.COM" = "Email"
     \/ detect_type (platform := IPv4.platform) "User@Example.COM" = "Unknown" ->
     normalize_indicator (platform := IPv4.platform) "User@Example.COM"
     = strip "User@Example.COM").
Proof.
  intros H. assert (E : detect_type (platform := IPv4.platform) "User@Example.COM" = "Email")
    by (vm_compute; reflexivity).
  specialize (H (or_introl E)). vm_compute in H. discriminate H.
Qed.

Lemma normalize_indicator_unknown_or_email_witness :
  ip_literal_first_char IPv4.platform /\
  detect_type (platform := IPv4.platform) "User@Example.COM" = "Email" /\
  normalize_indicator (platform := IPv4.platform) "User@Example.COM" = "user@example.com".
Proof.
  pose proof (law_first_char _ IPv4Facts.ipv4_laws) as Hfirst.
  assert (E : detect_type (platform := IPv4.platform) "User@Example.COM" = "Email")
    by (vm_compute; reflexivity).
  split; [exact Hfirst|]. split; [exact E|].
  rewrite (normalize_indicator_unknown_or_email (platform := IPv4.platform) Hfirst
             "User@Example.COM" (or_intror E)).
  vm_compute. reflexivity.
Defined.

Lemma normalize_indicator_idempotent_witness :
  IpAddressLaws IPv4.platform /\
  normalize_indicator (platform := IPv4.platform)
    (normalize_indicator (platform := IPv4.platform) " HTTP://Example.COM/Path ")
  = normalize_indicator (platform := IPv4.platform) " HTTP://Example.COM/Path ".
Proof.
  split; [exact IPv4Facts.ipv4_laws|].
  exact (normalize_indicator_idempotent (platform := IPv4.platform) IPv4Facts.ipv4_laws
           " HTTP://Example.COM/Path ").
Defined.

(** C5 fails on the code: with feeds that all answer with nothing, the run
    returns [no_data] and writes no entry to the collection log. *)
Lemma run_collection_no_data_counterexample :
  ~ (exists r db',
       run_collection quiet_feeds empty_database = Returned r db' /\
       cycle_status r = "no_data" /\
       log_entry_written empty_database db').
Proof.
  intros (r & db' & H & _ & Hlog). vm_compute in H. injection H as _ <-.
  exact (no_log_entry_without_write _ Hlog).
Qed.

Lemma run_collection_no_data_witness :
  successful_items quiet_feeds = [] /\
  run_collection quiet_feeds empty_database =
  Returned {| cycle_status := "no_data";
              cycle_stats := {| processed := 0; new := 0; updated := 0; errors := 0 |};
              cycle_errors := [];
              total_collected := 0 |} empty_database.
Proof.
  assert (H : successful_items quiet_feeds = []) by reflexivity.
  split; [exact H|]. exact (proj1 (run_collection_no_data quiet_feeds empty_database H)).
Defined.

(** C6 fails on the code: a record with the three keys and empty texts
    passes the validation. *)
Lemma validate_ioc_counterexample :
  ~ (validate_ioc empty_fields = true <->
     field_non_empty empty_fields "indicator" /\ field_non_empty empty_fields "type"
     /\ field_non_empty empty_fields "source").
Proof.
  intros [H _]. destruct (H eq_refl) as [(v & Hv & Ht) _].
  vm_compute in Hv. injection Hv as <-. discriminate Ht.
Qed.

Lemma validate_ioc_checks_keys_witness :
  (field_non_empty first_sighting "indicator" /\ field_non_empty first_sighting "type"
   /\ field_non_empty first_sighting "source") /\
  validate_ioc first_sighting = true.
Proof.
  assert (H : field_non_empty first_sighting "indicator"
              /\ field_non_empty first_sighting "type"
              /\ field_non_empty first_sighting "source").
  { repeat split; eexists; (split; [vm_compute; reflexivity | reflexivity]). }
  split; [exact H|]. exact (proj2 (validate_ioc_checks_keys first_sighting) H).
Defined.

(** C7, at the failing input.  A record without the key [indicator] raises
    in the [try] block; the handler counts the error and then raises
    [KeyError] itself when it formats the log line, outside any [try].  The
    exception leaves the loop and the method: the batch is aborted with one
    record processed and one error, and the next record, a well formed one,
    is neither processed nor stored. *)
Theorem handler_raises_without_indicator :
  for_each_ioc [no_indicator; first_sighting] [] zero_stats =
  (Raise (KeyError "indicator"), [],
   {| processed := 1; new := 0; updated := 0; errors := 1 |}) /\
  insert_or_update_iocs empty_database [no_indicator; first_sighting] =
  Raised (KeyError "indicator") empty_database.
Proof. split; vm_compute; reflexivity. Qed.

(** An exception of a record that has an [indicator] is caught: the record
    is counted as processed and as an error, and the next one is
    processed. *)
Example error_with_indicator_is_caught :
  insert_or_update_iocs empty_database [unserializable; first_sighting] =
  Returned {| processed := 2; new := 1; updated := 0; errors := 1 |}
    {| iocs := [inserted_row "203.0.113.5" "IP" "TestFeed" "high" "medium" "{}"
                  "2024-01-02T00:00:00"];
       collection_logs := [] |}.
Proof. vm_compute. reflexivity. Qed.

(** Two feeds fail and one gives two sightings of a key that the table
    has: the run succeeds and the row of the key is merged twice. *)
Lemma run_collection_status_witness :
  Forall has_indicator (successful_items one_feed_up) /\
  exists r db',
    run_collection one_feed_up
      {| iocs := [inserted_row "203.0.113.5" "IP" "Seed" "low" "low" "{}"
                    "2023-12-31T00:00:00"];
         collection_logs := [] |} = Returned r db' /\
    cycle_status r = "success" /\
    length (cycle_errors r) = 3%nat /\
    In (Text "203.0.113.5", Text "IP") (map key (iocs db')) /\
    iocs db' =
    [ {| indicator := Text "203.0.113.5"; type_ := Text "IP"; source := Text "OtherFeed";
         first_seen := Text "2023-12-31T00:00:00"; last_seen := Text "2024-01-02T00:00:00";
         seen_count := 3; confidence := Some (Text "low");
         threat_level := Some (Text "high"); metadata := Some (Text "{}") |} ] /\
    cycle_stats r = {| processed := 2; new := 0; updated := 2; errors := 0 |}.
Proof.
  assert (H : Forall has_indicator (successful_items one_feed_up)).
  { repeat constructor. }
  split; [exact H|].
  destruct (run_collection_status one_feed_up
              {| iocs := [inserted_row "203.0.113.5" "IP" "Seed" "low" "low" "{}"
                            "2023-12-31T00:00:00"];
                 collection_logs := [] |} H)
    as (r & db' & Hrun & _ & Hsucc & Herr & Hstored & Hmerged).
  exists r, db'. split; [exact Hrun|]. split; [|split; [|split]].
  - apply Hsucc. discriminate.
  - rewrite Herr. reflexivity.
  - apply (Hstored ltac:(discriminate) first_sighting _ _ _ _ _ _ _
             ltac:(left; reflexivity) first_sighting_normalized).
  - destruct Hmerged as [-> ->]; [| | | split; vm_compute; reflexivity].
    + repeat constructor; eexists; vm_compute; reflexivity.
    + split.
      * constructor; [|constructor]. split; [vm_compute; reflexivity | cbn; lia].
      * constructor; [intros [] | constructor].
    + split; [vm_compute; discriminate|]. constructor; [|constructor].
      split; [eexists; reflexivity | cbn; unfold min_int64, max_int64; lia].
Defined.

Lemma returned_stats_balanced_witness :
  insert_or_update_iocs empty_database [first_sighting; unserializable; older_sighting] =
  Returned {| processed := 3; new := 1; updated := 1; errors := 1 |}
    {| iocs := [merged_row
                  (inserted_row "203.0.113.5" "IP" "TestFeed" "high" "medium" "{}"
                     "2024-01-02T00:00:00")
                  "OtherFeed" "low" "high" "{}" "2024-01-01T00:00:00"];
       collection_logs := [] |}
  /\ 3 = 1 + 1 + 1.
Proof.
  assert (H : insert_or_update_iocs empty_database
                [first_sighting; unserializable; older_sighting] =
              Returned {| processed := 3; new := 1; updated := 1; errors := 1 |}
                {| iocs := [merged_row
                              (inserted_row "203.0.113.5" "IP" "TestFeed" "high" "medium"
                                 "{}" "2024-01-02T00:00:00")
                              "OtherFeed" "low" "high" "{}" "2024-01-01T00:00:00"];
                   collection_logs := [] |}) by (vm_compute; reflexivity).
  split; [exact H|]. exact (returned_stats_balanced _ _ _ _ H).
Defined.

End SampleFacts.

(** ** normalization.py: what each kind of indicator becomes *)

Module NormalizerExtras.

Import PyStr PyStrFacts Re ReFacts IoCNormalizer NormalizerFacts NormalizerTheorems.

Section WithPlatform.

Context `{platform : IpAddress}.

Lemma is_email_strip (x : string) : is_email (strip x) = is_email x.
Proof. unfold is_email. now rewrite strip_idem. Qed.

(** A trimmed text that [ipaddress] accepts is not empty, not a URL and not
    a hash. *)
Lemma ip_literal_is_only_ip (s : string) (a : ipaddr) :
  ip_literal_has_separator platform -> ip_literal_first_char platform ->
  strip s = s -> ip_address s = Some a ->
  s <> EmptyString /\ is_ip s = true /\ is_url s = false /\ is_hash s = false
  /\ is_domain s = false.
Proof.
  intros Hsep Hfirst Hs E.
  assert (Hip : is_ip s = true) by (now rewrite (is_ip_trimmed s Hs), E).
  destruct (Hfirst _ _ E) as (c & r & -> & Hc).
  split; [discriminate|]. split; [exact Hip|]. split; [|split].
  - rewrite (is_url_trimmed _ Hs). now apply not_url_by_first_char.
  - destruct (is_hash (String c r)) eqn:Hh; [|reflexivity].
    apply (is_hash_trimmed _ Hs) in Hh as [Hhex _].
    destruct (Hsep _ _ E) as [Hd|Hd];
      rewrite (all_chars_contains is_hexdigit _ _ Hhex) in Hd; discriminate || reflexivity.
  - rewrite (is_domain_trimmed _ Hs), Hip. now rewrite orb_true_r.
Qed.

(** X4.  On a platform with the stated properties of IP literals, a value
    that [ipaddress] accepts once trimmed is detected as IP, its canonical
    form is the text that the platform gives for the address, and that text
    is detected as IP again. *)
Theorem ip_literal_canonical (x : string) (a : ipaddr) :
  IpAddressLaws platform ->
  ip_address (strip x) = Some a ->
  detect_type x = "IP" /\
  normalize_indicator x = ip_str a /\
  detect_type (ip_str a) = "IP".
Proof.
  intros [Hsep Hfirst Hre Htrim Hcase] E.
  assert (Hdetect : forall y b, ip_address (strip y) = Some b -> detect_type y = "IP").
  { intros y b Ey. unfold detect_type.
    destruct (String.eqb_spec y EmptyString) as [Hy|_].
    - subst y. destruct (Hfirst _ _ Ey) as (c & r & Hc & _). discriminate Hc.
    - unfold is_ip. now rewrite Ey. }
  split; [now apply (Hdetect x a)|].
  destruct (ip_literal_is_only_ip (strip x) a Hsep Hfirst (strip_idem x) E)
    as (_ & Hip & Hurl & Hhash & Hdom).
  split.
  - rewrite normalize_indicator_unfold. cbv zeta. now rewrite Hurl, Hdom, Hhash, Hip, E.
  - destruct (Hre _ _ E) as (a' & E' & _).
    apply (Hdetect (ip_str a) a'). now rewrite (Htrim _ _ E (strip_idem x)).
Qed.

(** A value whose trimmed form starts with [http://] or [https://] is a URL
    for [detect_type]. *)
Lemma detect_type_url (x : string) :
  ip_literal_first_char platform -> is_url x = true -> detect_type x = "URL".
Proof.
  intros Hfirst Hurl. unfold detect_type.
  destruct (String.eqb_spec x EmptyString) as [->|_]; [discriminate Hurl|].
  assert (Hh : exists r, strip x = String "h" r).
  { unfold is_url, startswith in Hurl. destruct (strip x) as [|c r]; [discriminate Hurl|].
    destruct (Ascii.eqb_spec c "h") as [->|Hne]; [now exists r|].
    change "http://" with (String "h" "ttp://") in Hurl.
    change "https://" with (String "h" "ttps://") in Hurl.
    rewrite !prefix_head_neq in Hurl by congruence. discriminate Hurl. }
  destruct Hh as [r Hr].
  assert (Hip : is_ip x = false).
  { unfold is_ip. destruct (ip_address (strip x)) as [a|] eqn:E; [|reflexivity].
    destruct (Hfirst _ _ E) as (c & r' & Hc & [Hhex|Hcolon]); rewrite Hr in Hc;
      injection Hc as <- _; discriminate. }
  assert (Hhash : is_hash x = false).
  { destruct (is_hash x) eqn:Hh; [|reflexivity].
    apply is_hash_spec in Hh as [Hhex _]. rewrite Hr in Hhex. discriminate Hhex. }
  now rewrite Hip, Hhash, Hurl.
Qed.

Lemma is_url_lower (s : string) : is_url s = true -> is_url (lower s) = true.
Proof.
  unfold is_url, startswith. rewrite strip_lower. intros H.
  apply orb_true_iff in H as [H|H]; apply prefix_lower in H.
  - change (String.prefix "http://" (lower (strip s)) = true) in H. now rewrite H.
  - change (String.prefix "https://" (lower (strip s)) = true) in H. rewrite H.
    apply orb_true_r.
Qed.

(** X3.  On a platform whose IP literals start with a hexadecimal digit or
    a colon, a value whose trimmed form starts with [http://] or [https://]
    is detected as URL, its canonical form is the trimmed value in lower
    case, and the canonical form is detected as URL again. *)
Theorem url_canonical (x : string) :
  ip_literal_first_char platform ->
  is_url x = true ->
  detect_type x = "URL" /\
  normalize_indicator x = lower (strip x) /\
  detect_type (normalize_indicator x) = "URL".
Proof.
  intros Hfirst Hurl.
  assert (Hn : normalize_indicator x = lower (strip x)).
  { rewrite normalize_indicator_unfold. cbv zeta. now rewrite is_url_strip, Hurl. }
  split; [now apply detect_type_url|]. split; [exact Hn|].
  rewrite Hn. apply detect_type_url; [exact Hfirst|].
  apply is_url_lower. now rewrite is_url_strip.
Qed.

(** A string of 32, 40 or 64 hexadecimal digits is a hash for
    [detect_type]. *)
Lemma detect_type_hex (s : string) :
  ip_literal_has_separator platform ->
  all_chars is_hexdigit s = true ->
  (String.length s = 32 \/ String.length s = 40 \/ String.length s = 64)%nat ->
  detect_type s = "Hash".
Proof.
  intros Hsep Hhex Hlen. pose proof (all_hex_trimmed s Hhex) as Htrim.
  unfold detect_type.
  destruct (String.eqb_spec s EmptyString) as [->|_]; [simpl in Hlen; lia|].
  assert (Hip : is_ip s = false).
  { rewrite (is_ip_trimmed s Htrim). destruct (ip_address s) as [a|] eqn:E; [|reflexivity].
    destruct (Hsep s a E) as [Hc|Hc];
      rewrite (all_chars_contains is_hexdigit _ s Hhex) in Hc; discriminate || reflexivity. }
  rewrite Hip.
  assert (Hhash : is_hash s = true) by (apply (is_hash_trimmed s Htrim); now split).
  now rewrite Hhash.
Qed.

Lemma hash_canonical_form (s : string) :
  ip_literal_has_separator platform ->
  all_chars is_hexdigit s = true ->
  (String.length s = 32 \/ String.length s = 40 \/ String.length s = 64)%nat ->
  normalize_indicator s = lower s /\ detect_type (normalize_indicator s) = "Hash".
Proof.
  intros Hsep Hhex Hlen. pose proof (all_hex_trimmed s Hhex) as Htrim.
  assert (Hn : normalize_indicator s = lower s).
  { rewrite normalize_indicator_unfold. cbv zeta. rewrite Htrim.
    assert (Hu : is_url s = false).
    { rewrite (is_url_trimmed _ Htrim). destruct s as [|c r]; [simpl in Hlen; lia|].
      simpl in Hhex. apply andb_true_iff in Hhex as [Hc _].
      apply not_url_by_first_char. now left. }
    assert (Hd : is_domain s = false).
    { rewrite (is_domain_trimmed _ Htrim), (all_chars_contains is_hexdigit "." _ Hhex);
        [|reflexivity]. now destruct (is_url s || is_ip s). }
    assert (Hh : is_hash s = true) by (apply (is_hash_trimmed _ Htrim); now split).
    now rewrite Hu, Hd, Hh. }
  split; [exact Hn|]. rewrite Hn.
  apply detect_type_hex; [exact Hsep | now apply all_hex_lower | now rewrite length_lower].
Qed.

(** X2.  On a platform whose IP literals all have a dot or a colon, the
    canonical form of a string of 32, 40 or 64 hexadecimal digits is that
    string in lower case, and it is detected as Hash. *)
Theorem hash_canonical (s : string) :
  ip_literal_has_separator platform ->
  all_chars is_hexdigit s = true ->
  (String.length s = 32 \/ String.length s = 40 \/ String.length s = 64)%nat ->
  normalize_indicator s = lower s /\ detect_type (normalize_indicator s) = "Hash".
Proof. apply hash_canonical_form. Qed.

(** X5.  On a platform whose IP literals start with a hexadecimal digit or
    a colon, a value that is empty or all white space is detected as
    Unknown and its canonical form is the empty string. *)
Theorem blank_is_unknown (x : string) :
  ip_literal_first_char platform ->
  strip x = EmptyString ->
  detect_type x = "Unknown" /\ normalize_indicator x = EmptyString.
Proof.
  intros Hfirst Hx.
  assert (Hip : is_ip x = false).
  { unfold is_ip. rewrite Hx. destruct (ip_address EmptyString) as [a|] eqn:E; [|reflexivity].
    destruct (Hfirst _ _ E) as (c & r & Hc & _). discriminate Hc. }
  assert (Hhash : is_hash x = false) by (unfold is_hash; now rewrite Hx).
  assert (Hurl : is_url x = false) by (unfold is_url; now rewrite Hx).
  assert (Hemail : is_email x = false) by (unfold is_email; now rewrite Hx).
  assert (Hdom : is_domain x = false).
  { unfold is_domain. rewrite Hx. now destruct (is_url EmptyString || is_ip EmptyString). }
  split.
  - unfold detect_type. rewrite Hip, Hhash, Hurl, Hemail, Hdom.
    now destruct (String.eqb x EmptyString).
  - rewrite normalize_indicator_unfold. cbv zeta.
    rewrite is_url_strip, is_domain_strip, is_hash_strip, is_ip_strip.
    now rewrite Hurl, Hdom, Hhash, Hip.
Qed.

(** X6.  On a platform with the stated properties of IP literals, a
    canonical form has no white space at either end. *)
Theorem canonical_form_trimmed (x : string) :
  IpAddressLaws platform ->
  strip (normalize_indicator x) = normalize_indicator x.
Proof. intros laws. exact (proj1 (normalize_indicator_fixed laws x)). Qed.

(** X7.  On a platform with the stated properties of IP literals, when the
    trimmed value is a URL, a domain or a hash, the canonical form does not
    depend on the case of the letters of the value: the value in lower case
    has the same canonical form. *)
Theorem canonical_form_ignores_case (x : string) :
  IpAddressLaws platform ->
  is_url x || is_domain x || is_hash x = true ->
  normalize_indicator (lower x) = normalize_indicator x.
Proof.
  intros laws H.
  assert (Hn : normalize_indicator x = lower (strip x)).
  { rewrite normalize_indicator_unfold. cbv zeta.
    rewrite is_url_strip, is_domain_strip, is_hash_strip.
    destruct (is_url x); [reflexivity|]. destruct (is_domain x); [reflexivity|].
    destruct (is_hash x); [reflexivity | discriminate H]. }
  pose proof (normalize_indicator_fixed laws x) as [Htrim Hfix]. cbv zeta in *.
  rewrite Hn in Hfix. rewrite Hn.
  rewrite normalize_indicator_unfold in Hfix |- *. cbv zeta in *.
  now rewrite strip_lower, strip_idem in *.
Qed.

End WithPlatform.

End NormalizerExtras.

(** ** database.py: which records are stored, and what the rows keep *)

Module StoreExtras.

Import CTIDatabase StoreNotions StoreFacts BatchFacts.

Lemma find_app_l {A : Type} (p : A -> bool) (l1 l2 : list A) (x : A) :
  find p l1 = Some x -> find p (l1 ++ l2) = Some x.
Proof.
  induction l1 as [|y l IH]; [discriminate|]. simpl. destruct (p y); [trivial | exact IH].
Qed.


Lemma bound_ok (v : pyval) (p : option textval) :
  bound v = Ok p -> exists q, sql_bind v = Ok q /\ text_affinity q = p.
Proof.
  unfold bound. destruct (sql_bind v) as [q|e]; [|discriminate].
  cbn [bind]. intros [= <-]. eauto.
Qed.

(** A record with texts under the four required keys is stored, as a new
    row or in the row of its key when that row can take it. *)
Lemma upsert_storable (t : list ioc_row) (ioc : pydict) (i ty src collected_at : string)
    (conf thr : option textval) (mtext : string) :
  storable ioc i ty src collected_at conf thr mtext ->
  (forall old, find_row t i ty = Some old -> can_merge old) ->
  upsert t ioc = Ok (table_with t i ty src collected_at conf thr mtext).
Proof.
  intros (Hi & Hty & Hsrc & Hat & Hconf & Hthr & Hjson) Hcan.
  apply bound_ok in Hconf as (qc & Hqc & <-). apply bound_ok in Hthr as (qt & Hqt & <-).
  unfold table_with, find_row in *. unfold upsert, getitem, json_dumps, select_ioc.
  rewrite Hi, Hty, Hsrc, Hat, Hjson. cbn [bind sql_bind text_affinity].
  destruct (find (key_matches (Text i) (Text ty)) t) as [old|] eqn:Hfind.
  - destruct (Hcan old eq_refl) as [[s Hs] Hcnt]. cbv iota beta. rewrite Hs.
    cbn [bind sql_bind max_last_seen fetched_value].
    rewrite (bind_int_fits (seen_count old + 1)) by lia.
    rewrite Hqc, Hqt. cbn [bind].
    unfold update_ioc. cbn [text_affinity]. rewrite (find_some_existsb _ _ _ Hfind).
    reflexivity.
  - rewrite (bind_int_fits 1) by (unfold min_int64, max_int64; lia).
    rewrite Hqc, Hqt. cbn [bind sql_bind].
    unfold insert_ioc. cbn [text_affinity]. now rewrite (find_none_existsb _ _ Hfind).
Qed.

Lemma getitem_ok (d : pydict) (k : string) (v : pyval) : getitem d k = Ok v -> d !! k = Some v.
Proof. unfold getitem. destruct (d !! k); [now intros [= ->] | discriminate]. Qed.

Lemma json_dumps_ok (v : pyval) (s : string) : json_dumps v = Ok s -> Json.dumps v = Some s.
Proof. unfold json_dumps. destruct (Json.dumps v); [now intros [= ->] | discriminate]. Qed.

(** A value that is bound and held by a column is not refused. *)
Lemma kept_not_refused (v : pyval) (p : sqlval) (x : textval) :
  sql_bind v = Ok p -> text_affinity p = Some x -> ~ refused v.
Proof. unfold refused. intros -> Hx H. congruence. Qed.

Lemma max_last_seen_not_refused (held v new_last : pyval) :
  max_last_seen held v = Ok new_last -> ~ refused v.
Proof.
  unfold refused. destruct held, v; simpl; try discriminate; intros _ H; discriminate.
Qed.

(** What a record has when [upsert] succeeds: something that a column
    declared [NOT NULL] keeps under each of the four required keys, and
    metadata that [json.dumps] accepts. *)
Lemma upsert_ok_fields (t t' : list ioc_row) (ioc : pydict) (ch : change) :
  upsert t ioc = Ok (t', ch) ->
  (forall k, In k ["indicator"; "type"; "source"; "date_collected"] ->
     exists v, ioc !! k = Some v /\ ~ refused v) /\
  Json.dumps (dict_get ioc "metadata" empty_dict) <> None.
Proof.
  intros H. unfold upsert in H.
  do 4 step_ok H.
  destruct (select_ioc t _ _) as [[[fs ls] cnt]|] eqn:Hsel in H.
  - unfold select_ioc in Hsel.
    repeat match type of Hsel with
           | match ?o with Some _ => _ | None => _ end = _ =>
               let E := fresh "E" in destruct o eqn:E; [|discriminate Hsel]
           end.
    injection Hsel as _ <- <-.
    repeat step_ok H. injection H as <- <-.
    lazymatch goal with
    | Hupd : update_ioc _ _ _ ?src _ _ _ _ _ = Ok _, Hfind : find _ _ = Some ?old |- _ =>
        unfold update_ioc in Hupd;
        repeat match type of Hupd with
               | context [text_affinity ?q] =>
                   match goal with
                   | Ha : text_affinity q = Some _ |- _ => rewrite Ha in Hupd
                   end
               end;
        rewrite (find_some_existsb _ _ _ Hfind) in Hupd;
        match type of Hupd with
        | match text_affinity ?ls with _ => _ end = _ =>
            destruct (text_affinity ls); [|discriminate Hupd]
        end;
        destruct (text_affinity src) eqn:Hsrc; [|discriminate Hupd]
    end.
    repeat match goal with
           | Hg : getitem _ _ = Ok _ |- _ => apply getitem_ok in Hg
           | Hj : json_dumps _ = Ok _ |- _ => apply json_dumps_ok in Hj
           end.
    split; [|congruence].
    intros k [<-|[<-|[<-|[<-|[]]]]]; eexists; (split; [eassumption|]);
      first [ eapply kept_not_refused; eassumption
            | eapply max_last_seen_not_refused; eassumption ].
  - repeat step_ok H. injection H as <- <-.
    lazymatch goal with
    | Hins : insert_ioc _ ?i ?ty ?src ?fs ?ls _ _ _ _ = Ok _ |- _ =>
        unfold insert_ioc in Hins;
        destruct (text_affinity i) eqn:Hi; [|discriminate Hins];
        destruct (text_affinity ty) eqn:Hty; [|discriminate Hins];
        destruct (text_affinity src) eqn:Hsrc; [|discriminate Hins];
        destruct (text_affinity fs) eqn:Hfs; [|discriminate Hins]
    end.
    repeat match goal with
           | Hg : getitem _ _ = Ok _ |- _ => apply getitem_ok in Hg
           | Hj : json_dumps _ = Ok _ |- _ => apply json_dumps_ok in Hj
           end.
    split; [|congruence].
    intros k [<-|[<-|[<-|[<-|[]]]]]; eexists; (split; [eassumption|]);
      eapply kept_not_refused; eassumption.
Qed.

Lemma normalized_storable (ioc : pydict) (i ty src conf thr mtext collected_at : string) :
  is_normalized ioc i ty src conf thr mtext collected_at ->
  storable ioc i ty src collected_at (Some (Text conf)) (Some (Text thr)) mtext.
Proof.
  intros (Hi & Hty & Hsrc & Hconf & Hthr & (meta & Hmeta & Hjson) & Hat).
  unfold storable, dict_get. rewrite Hconf, Hthr, Hmeta. now repeat split.
Qed.

(** One turn of the loop for a record that can be stored. *)
Lemma for_each_ioc_storable (ioc : pydict) (rest : list pydict) (t : list ioc_row) (st : stats)
    (i ty src collected_at : string) (conf thr : option textval) (mtext : string) :
  storable ioc i ty src collected_at conf thr mtext ->
  (forall old, find_row t i ty = Some old -> can_merge old) ->
  for_each_ioc (ioc :: rest) t st =
  for_each_ioc rest (fst (table_with t i ty src collected_at conf thr mtext))
    (match snd (table_with t i ty src collected_at conf thr mtext) with
     | Inserted => incr_new (incr_processed st)
     | Updated => incr_updated (incr_processed st)
     end).
Proof.
  intros Hs Hcan. cbn [for_each_ioc]. rewrite (upsert_storable t ioc _ _ _ _ _ _ _ Hs Hcan).
  now destruct (table_with t i ty src collected_at conf thr mtext) as [t' []].
Qed.

(** X8.  A record that has the key [indicator] and cannot be stored (one of
    the keys [type], [source] and [date_collected] is missing, or the value
    under one of the four required keys is [None] or of a type that
    [sqlite3] does not bind, or the metadata are not accepted by
    [json.dumps]) raises in the [try] block: it is counted as processed and
    as an error, the table is left as it was, and the loop goes on with the
    next record. *)
Theorem unstorable_record_is_an_error (ioc : pydict) (rest : list pydict) (t : list ioc_row)
    (st : stats) :
  has_indicator ioc ->
  unstorable ioc ->
  (exists e, upsert t ioc = Raise e) /\
  for_each_ioc [ioc] t st = (Ok tt, t, incr_errors (incr_processed st)) /\
  for_each_ioc (ioc :: rest) t st = for_each_ioc rest t (incr_errors (incr_processed st)).
Proof.
  intros Hind Hun.
  assert (Hraise : exists e, upsert t ioc = Raise e).
  { destruct (upsert t ioc) as [[t' ch]|e] eqn:E; [|eauto]. exfalso.
    destruct (upsert_ok_fields _ _ _ _ E) as [Hkeys Hjson].
    destruct Hun as [(k & Hk & Hnone)|[(k & v & Hk & Hv & Href)|Hno]].
    - destruct (Hkeys k) as (v & Hv & _); [simpl in *; tauto | congruence].
    - destruct (Hkeys k Hk) as (v' & Hv' & Hnot). rewrite Hv in Hv'. injection Hv' as <-.
      now apply Hnot.
    - now apply Hjson. }
  split; [exact Hraise|]. destruct Hraise as [e He].
  unfold has_indicator, dict_contains in Hind.
  cbn [for_each_ioc]. rewrite He. unfold getitem.
  destruct (ioc !! "indicator"); [now split | discriminate].
Qed.


(** What one successful [upsert] does to the row of a key. *)
Lemma upsert_row_kept (t t' : list ioc_row) (ioc : pydict) (ch : change) (i ty : string)
    (r : ioc_row) :
  upsert t ioc = Ok (t', ch) ->
  find_row t i ty = Some r ->
  exists r',
    find_row t' i ty = Some r' /\ first_seen r' = first_seen r /\
    textval_le (last_seen r) (last_seen r') = true /\ seen_count r <= seen_count r'.
Proof.
  intros H Hr. unfold find_row in *.
  destruct (upsert_ok_inv _ _ _ _ H) as (i0 & ty0 & Hinv). destruct ch.
  - destruct Hinv as (Hfind & src & fs & conf & thr & meta & ->).
    exists r. split; [|split; [|split]]; try reflexivity; try lia.
    + now apply find_app_l.
    + apply textval_le_refl.
  - destruct Hinv as (old & ls & src & conf & thr & meta & Hfind & Hle & _ & ->).
    destruct (decide ((Text i, Text ty) = (i0, ty0))) as [E|Hne].
    + injection E as <- <-. rewrite Hr in Hfind. injection Hfind as <-.
      eexists. split; [|split; [|split]].
      * apply find_map_matching; [intros; reflexivity | exact Hr].
      * reflexivity.
      * exact Hle.
      * simpl. lia.
    + exists r. split; [|split; [|split]]; try reflexivity; try lia.
      * rewrite find_map_other; [exact Hr | reflexivity | exact Hne].
      * apply textval_le_refl.
Qed.

(** X10.  Whatever the batch holds, a key that is in the table stays in
    the table, its first seen time is not changed, its last seen time does
    not go back and its seen count does not go down. *)
Theorem existing_rows_kept (batch : list pydict) (t : list ioc_row) (st : stats)
    (i ty : string) (r : ioc_row) :
  find_row t i ty = Some r ->
  exists r',
    find_row (table_after batch t st) i ty = Some r' /\
    first_seen r' = first_seen r /\
    textval_le (last_seen r) (last_seen r') = true /\
    seen_count r <= seen_count r'.
Proof.
  intros Hr.
  apply (for_each_ioc_ind
           (fun t' _ => exists r', find_row t' i ty = Some r' /\ first_seen r' = first_seen r
                                   /\ textval_le (last_seen r) (last_seen r') = true
                                   /\ seen_count r <= seen_count r')).
  - intros t0 _ ioc t' ch (r0 & H0 & Hf & Hl & Hc) E.
    destruct (upsert_row_kept _ _ _ _ _ _ _ E H0) as (r' & H' & Hf' & Hl' & Hc').
    exists r'. split; [exact H'|]. split; [congruence|]. split; [|lia].
    now apply (textval_le_trans _ (last_seen r0)).
  - intros t0 _ _ _ H0 _. exact H0.
  - exists r. split; [exact Hr|]. split; [reflexivity|]. split; [apply textval_le_refl | lia].
Qed.

Lemma upsert_length (t t' : list ioc_row) (ioc : pydict) (ch : change) :
  upsert t ioc = Ok (t', ch) ->
  length t' = match ch with Inserted => S (length t) | Updated => length t end.
Proof.
  intros H. destruct (upsert_ok_inv _ _ _ _ H) as (i0 & ty0 & Hinv). destruct ch.
  - destruct Hinv as (Hfind & src & fs & conf & thr & meta & ->).
    rewrite length_app. simpl. lia.
  - destruct Hinv as (old & ls & src & conf & thr & meta & Hfind & Hle & _ & ->).
    apply length_map.
Qed.

(** X11.  Whatever the batch holds, the table has as many more rows after
    the loop as the counter [new] has gone up: no row is removed, and a row
    is added exactly for each record counted as new. *)
Theorem table_grows_by_new (batch : list pydict) (t : list ioc_row) (st : stats) :
  Z.of_nat (length (table_after batch t st)) =
  Z.of_nat (length t) + (new (stats_after batch t st) - new st).
Proof.
  apply (for_each_ioc_ind
           (fun t' st' => Z.of_nat (length t') = Z.of_nat (length t) + (new st' - new st))).
  - intros t0 st0 ioc t' ch H0 E. rewrite (upsert_length _ _ _ _ E).
    destruct ch; simpl; lia.
  - intros t0 st0 _ _ H0 _. simpl. lia.
  - lia.
Qed.

Lemma normalized_is_normalized (ioc : pydict) :
  normalized ioc ->
  exists i ty src conf thr mtext collected_at,
    is_normalized ioc i ty src conf thr mtext collected_at.
Proof. intros [s Hs]. do 7 eexists. exact (sighting_of_is_normalized _ _ Hs). Qed.

Lemma takes_table_with (n : nat) (t : list ioc_row) (i ty src conf thr mtext collected_at : string) :
  takes (S n) t ->
  takes n (fst (table_with t i ty src collected_at (Some (Text conf)) (Some (Text thr)) mtext)).
Proof.
  intros Ht. unfold table_with. destruct (find_row t i ty) as [old|] eqn:Hfind; cbn [fst].
  - exact (takes_rewritten n t i ty src conf thr mtext collected_at old Ht Hfind).
  - exact (takes_inserted n t i ty src conf thr mtext collected_at Ht).
Qed.

(** One turn of the loop for a normalized record, on a table that can take
    it. *)
Lemma for_each_ioc_normalized_step (ioc : pydict) (rest : list pydict) (t : list ioc_row)
    (st : stats) (i ty src conf thr mtext collected_at : string) :
  is_normalized ioc i ty src conf thr mtext collected_at ->
  takes (S (length rest)) t ->
  for_each_ioc (ioc :: rest) t st =
  for_each_ioc rest
    (fst (table_with t i ty src collected_at (Some (Text conf)) (Some (Text thr)) mtext))
    (match snd (table_with t i ty src collected_at (Some (Text conf)) (Some (Text thr)) mtext)
     with
     | Inserted => incr_new (incr_processed st)
     | Updated => incr_updated (incr_processed st)
     end).
Proof.
  intros Hn Ht. apply for_each_ioc_storable; [now apply normalized_storable|].
  intros old Hold. exact (takes_can_merge _ _ _ _ _ Ht Hold).
Qed.

Lemma for_each_ioc_normalized (batch : list pydict) (t : list ioc_row) (st : stats) :
  Forall normalized batch ->
  takes (length batch) t ->
  errors (stats_after batch t st) = errors st.
Proof.
  unfold stats_after. intros H. revert t st.
  induction H as [|ioc rest Hn _ IH]; intros t st Ht; [reflexivity|].
  destruct (normalized_is_normalized _ Hn) as (i & ty & src & conf & thr & mtext & at_ & Hn').
  rewrite (for_each_ioc_normalized_step ioc rest t st _ _ _ _ _ _ _ Hn' Ht).
  rewrite IH by (now apply takes_table_with).
  now destruct (snd (table_with _ _ _ _ _ _ _ _)).
Qed.

Lemma normalized_batch_returns (db : database) (batch : list pydict) :
  Forall normalized batch ->
  takes (length batch) (iocs db) ->
  exists st db',
    insert_or_update_iocs db batch = Returned st db' /\
    errors st = 0 /\
    processed st = Z.of_nat (length batch) /\
    new st + updated st = Z.of_nat (length batch).
Proof.
  intros H Ht.
  assert (Hind : Forall has_indicator batch).
  { eapply List.Forall_impl; [|exact H]. exact normalized_has_indicator. }
  rewrite (insert_or_update_iocs_returns db batch Hind). eexists _, _. split; [reflexivity|].
  pose proof (for_each_ioc_normalized batch (iocs db) zero_stats H Ht) as He.
  destruct (for_each_ioc_returns batch (iocs db) zero_stats Hind) as [_ Hp].
  assert (Hb : balanced (stats_after batch (iocs db) zero_stats))
    by (now apply for_each_ioc_balanced).
  unfold balanced in Hb. simpl in He, Hp. repeat split; lia.
Qed.







(** X26.  A normalized record whose key is in the table, in a row whose
    seen count is the largest integer of SQLite or whose last seen is not a
    text, raises in the [try] block: it is counted as processed and as an
    error, the row and the table are left as they were, and the loop goes on
    with the next record. *)
Theorem full_counter_is_an_error (ioc : pydict) (rest : list pydict) (t : list ioc_row)
    (st : stats) (i ty src conf thr mtext collected_at : string) (old : ioc_row) :
  is_normalized ioc i ty src conf thr mtext collected_at ->
  find_row t i ty = Some old ->
  (forall s, last_seen old <> Text s) \/ max_int64 <= seen_count old ->
  (exists e, upsert t ioc = Raise e) /\
  for_each_ioc [ioc] t st = (Ok tt, t, incr_errors (incr_processed st)) /\
  for_each_ioc (ioc :: rest) t st = for_each_ioc rest t (incr_errors (incr_processed st)).
Proof.
  intros Hn Hfind Hfull.
  destruct (upsert_refused _ _ _ _ _ _ _ _ Hn t old Hfind Hfull) as [e He].
  split; [eauto|]. destruct Hn as (Hi & _).
  cbn [for_each_ioc]. rewrite He. unfold getitem. rewrite Hi. now split.
Qed.


End StoreExtras.

(** ** scheduler.py: the errors and the log entry of a run *)

Module CycleExtras.

Import CTIDatabase CTIScheduler CycleNotions StoreFacts BatchFacts CycleFacts.

Lemma collect_otx_domains_errors (fetch : string -> fetched (list pydict))
    (domains : list string) (acc : collected) :
  length (snd (collect_otx_domains fetch domains acc)) =
  (length (snd acc) + length (List.filter (fun domain => failed (fetch domain)) domains))%nat
  /\ (Forall non_empty (snd acc) ->
      Forall non_empty (snd (collect_otx_domains fetch domains acc))).
Proof.
  revert acc. induction domains as [|d ds IH]; intros [all_iocs errs]; simpl.
  - split; [lia | trivial].
  - destruct (fetch d) as [e|l].
    + destruct (IH (all_iocs, errs ++ ["OTX collection failed for " +:+ d +:+ ": " +:+ e]))
        as [Hl Hn]. simpl in *. split.
      * rewrite Hl, length_app. simpl. lia.
      * intros H. apply Hn. apply List.Forall_app. split; [exact H|].
        constructor; [discriminate | constructor].
    + destruct (IH (all_iocs ++ l, errs)) as [Hl Hn]. simpl in *. split; [exact Hl | exact Hn].
Qed.

(** The errors of a run: one for each call that raised, none of them an
    empty text. *)
Lemma collect_errors (c : collaborators) :
  length (snd (collect c)) = failures c /\ Forall non_empty (snd (collect c)).
Proof.
  unfold collect, collect_malwarebazaar, collect_abuseipdb, collect_otx, failures.
  destruct (Config c) as [e|config].
  - cbn [fst snd]. split; [reflexivity|]. repeat constructor; discriminate.
  - destruct (collect_otx_domains_errors (fetch_otx c) (THREAT_DOMAINS config) ([], []))
      as [Hl Hn]. cbn [snd length] in Hl. specialize (Hn (List.Forall_nil _)).
    destruct (fetch_malwarebazaar c _) as [e3|l3];
      destruct (fetch_abuseipdb c _) as [e2|l2]; cbn [fst snd failed];
      rewrite ?length_app, ?Hl; cbn [length]; (split; [lia|]);
      repeat (apply List.Forall_app; split); try exact Hn;
      repeat constructor; discriminate.
Qed.

Lemma concat_non_empty (sep : string) (l : list string) :
  l <> [] -> Forall non_empty l -> String.concat sep l <> EmptyString.
Proof.
  destruct l as [|m rest]; [congruence|]. intros _ H. inversion H as [|? ? Hm _]; subst.
  destruct m as [|a m']; [now destruct Hm|]. destruct rest; simpl; discriminate.
Qed.

(** X15.  The list of errors that a run returns has one message for each
    call that raised: each OTX domain whose fetch failed, the AbuseIPDB
    fetch, the MalwareBazaar fetch; three when [Config()] itself raises. *)
Theorem one_error_per_failure (c : collaborators) (db db' : database) (r : cycle_result) :
  run_collection c db = Returned r db' ->
  length (cycle_errors r) = failures c.
Proof.
  intros H. destruct (collect_errors c) as [Hl _]. unfold run_collection in H.
  destruct (collect c) as [all_iocs errs]. cbn [snd] in Hl.
  destruct all_iocs as [|x rest].
  - injection H as <- _. exact Hl.
  - destruct (insert_or_update_iocs db (x :: rest)); [|discriminate].
    injection H as <- _. exact Hl.
Qed.

(** X16.  When records were collected and each has an [indicator], the
    run appends exactly one entry to the collection log and changes nothing
    else of it: the entry has the source [CTI_Collector], the counters that
    the run returns, and the status [success] when no call raised and
    [error] otherwise; the run also returns as total the number of records
    collected, which is the number processed. *)
Theorem successful_run_logs_once (c : collaborators) (db : database) :
  Forall has_indicator (successful_items c) ->
  successful_items c <> [] ->
  exists r db' errs,
    run_collection c db = Returned r db' /\
    collection_logs db' =
    collection_logs db ++
    [ {| log_source := "CTI_Collector"; collection_time := now c;
         iocs_processed := processed (cycle_stats r); iocs_new := new (cycle_stats r);
         iocs_updated := updated (cycle_stats r); log_errors := errs;
         status := if (failures c =? 0)%nat then "success" else "error" |} ] /\
    (errs = None <-> failures c = 0%nat) /\
    total_collected r = Z.of_nat (length (successful_items c)) /\
    processed (cycle_stats r) = total_collected r.
Proof.
  intros Hall Hne. rewrite <- collect_successful_items in *.
  destruct (collect_errors c) as [Hl Hn]. unfold run_collection.
  destruct (collect c) as [all_iocs errs]. cbn [fst snd] in *.
  destruct all_iocs as [|x rest]; [congruence|].
  rewrite (insert_or_update_iocs_returns db _ Hall).
  destruct (for_each_ioc_returns (x :: rest) (iocs db) zero_stats Hall) as [_ Hp].
  eexists _, _, (error_summary errs). split; [reflexivity|].
  cbn [log_collection collection_logs with_iocs cycle_stats total_collected].
  split; [|split; [|split]].
  - do 2 f_equal. f_equal. unfold error_summary. rewrite <- Hl.
    destruct errs as [|m ms]; [reflexivity|]. cbn [length Nat.eqb].
    destruct (String.eqb_spec (String.concat "; " (m :: ms)) EmptyString) as [E|_];
      [|reflexivity].
    now destruct (concat_non_empty "; " (m :: ms)).
  - rewrite <- Hl. unfold error_summary. destruct errs; split; simpl; congruence.
  - reflexivity.
  - simpl in Hp. exact Hp.
Qed.

End CycleExtras.

(** ** database.py: the statistics *)

Module StatisticsExtras.

Import CTIDatabase CTIScheduler CTIStatistics.

Section Groups.

Context {A K : Type} `{Countable K}.

Lemma occurrences_nonneg (col : A -> K) (k : K) (rows : list A) :
  0 <= occurrences col k rows.
Proof.
  induction rows as [|r rest IH]; simpl; [lia|]. destruct (bool_decide (col r = k)); lia.
Qed.

(** A group of [count_by] is a value of the column that occurs, with the
    number of its rows. *)
Lemma count_by_lookup (col : A -> K) (rows : list A) (k : K) :
  count_by col rows !! k =
  if 0 <? occurrences col k rows then Some (occurrences col k rows) else None.
Proof.
  induction rows as [|r rest IH]; [reflexivity|]. cbn [count_by occurrences].
  pose proof (occurrences_nonneg col k rest) as Hk.
  destruct (decide (col r = k)) as [E|Hne].
  - rewrite (bool_decide_eq_true_2 _ E). rewrite E in *. rewrite lookup_insert_eq, IH.
    destruct (Z.ltb_spec 0 (occurrences col k rest)); simpl;
      destruct (Z.ltb_spec 0 (1 + occurrences col k rest)); try lia; f_equal; lia.
  - rewrite (bool_decide_eq_false_2 _ Hne). rewrite lookup_insert_ne by exact Hne. exact IH.
Qed.

Lemma sum_values_split (m : gmap K Z) (k : K) :
  sum_values m = default 0 (m !! k) + sum_values (delete k m).
Proof.
  unfold sum_values. destruct (m !! k) as [v|] eqn:E; simpl.
  - apply (map_fold_delete_L (fun _ v acc => v + acc)); [intros; lia | exact E].
  - now rewrite (delete_id m k E).
Qed.

Lemma sum_values_insert (m : gmap K Z) (k : K) (x : Z) :
  sum_values (<[k := x]> m) = x + sum_values (delete k m).
Proof.
  unfold sum_values. rewrite <- (insert_delete_eq m k x).
  apply (map_fold_insert_L (fun _ v acc => v + acc)); [intros; lia | apply lookup_delete_eq].
Qed.

Lemma sum_values_count_by (col : A -> K) (rows : list A) :
  sum_values (count_by col rows) = Z.of_nat (length rows).
Proof.
  induction rows as [|r rest IH]; [reflexivity|]. cbn [count_by length].
  rewrite sum_values_insert. rewrite (sum_values_split _ (col r)) in IH. lia.
Qed.

Lemma default_count (col : A -> K) (rows : list A) (k : K) :
  default 0 (count_by col rows !! k) = occurrences col k rows.
Proof.
  rewrite count_by_lookup. pose proof (occurrences_nonneg col k rows).
  destruct (Z.ltb_spec 0 (occurrences col k rows)); simpl; lia.
Qed.

End Groups.

(** X17.  In the statistics, a type (a source) is a key of [by_type]
    ([by_source]) exactly when a row has it, and its count is the number of
    rows that have it; the counts of [by_type] add up to [total_iocs], and
    so do the counts of [by_source]. *)
Theorem groups_partition_rows (db : database) (k : textval) :
  (by_type db !! k =
   if 0 <? occurrences type_ k (iocs db) then Some (occurrences type_ k (iocs db)) else None)
  /\ (by_source db !! k =
      if 0 <? occurrences source k (iocs db) then Some (occurrences source k (iocs db))
      else None)
  /\ sum_values (by_type db) = total_iocs db
  /\ sum_values (by_source db) = total_iocs db.
Proof.
  unfold by_type, by_source, total_iocs.
  repeat split; try apply count_by_lookup; apply sum_values_count_by.
Qed.

Lemma occurrences_two (logs : list log_row) :
  Forall (fun entry => status entry = "success" \/ status entry = "error") logs ->
  occurrences status "success" logs + occurrences status "error" logs = Z.of_nat (length logs).
Proof.
  induction 1 as [|entry rest [E|E] _ IH]; [reflexivity | |];
    cbn [occurrences length]; rewrite E; vm_compute (bool_decide _); lia.
Qed.

Lemma success_rate_consistent (db : database) :
  logs_ok db ->
  rate_success (collection_success_rate db) + rate_error (collection_success_rate db)
  = rate_total (collection_success_rate db)
  /\ rate_total (collection_success_rate db) = collection_runs db.
Proof.
  intros H. unfold collection_success_rate, collection_runs. cbn [rate_success rate_error rate_total].
  rewrite !default_count, sum_values_count_by. split; [|reflexivity].
  now apply occurrences_two.
Qed.

Lemma log_collection_logs_ok (now : string) (db : database) (src : string) (st : stats)
    (errs : option string) :
  logs_ok db -> logs_ok (log_collection now db src st errs).
Proof.
  unfold logs_ok, log_collection. cbn [collection_logs]. intros H.
  apply List.Forall_app. split; [exact H|]. constructor; [|constructor]. cbn [status].
  destruct errs as [e|]; [|now left]. destruct (String.eqb e EmptyString); [now left | now right].
Qed.

Lemma insert_or_update_iocs_logs (db : database) (batch : list pydict) :
  collection_logs (outcome_db (insert_or_update_iocs db batch)) = collection_logs db.
Proof.
  unfold insert_or_update_iocs.
  now destruct (for_each_ioc batch (iocs db) zero_stats) as [[[[]|e] t] st].
Qed.

(** X18.  When every entry of the collection log has the status [success]
    or [error], this is still so after a run, however the run ends, and in
    the statistics read then the success and error counts add up to the
    total, which is the number of runs logged. *)
Theorem success_rate_adds_up (c : collaborators) (db : database) :
  logs_ok db ->
  let db' := outcome_db (run_collection c db) in
  logs_ok db' /\
  rate_success (collection_success_rate db') + rate_error (collection_success_rate db')
  = rate_total (collection_success_rate db')
  /\ rate_total (collection_success_rate db') = collection_runs db'.
Proof.
  intros H db'. assert (H' : logs_ok db').
  { subst db'. unfold run_collection. destruct (collect c) as [[|x rest] errs]; [exact H|].
    pose proof (insert_or_update_iocs_logs db (x :: rest)) as Hl.
    destruct (insert_or_update_iocs db (x :: rest)) as [st db1|e db1]; cbn [outcome_db] in *.
    - apply log_collection_logs_ok. unfold logs_ok. now rewrite Hl.
    - unfold logs_ok. now rewrite Hl. }
  split; [exact H'|]. now apply success_rate_consistent.
Qed.

Lemma fold_max_ge (l : list Z) (v : Z) :
  v <= fold_left Z.max l v /\ Forall (fun x => x <= fold_left Z.max l v) l
  /\ (fold_left Z.max l v = v \/ In (fold_left Z.max l v) l).
Proof.
  revert v. induction l as [|x l IH]; intros v; simpl.
  - repeat split; [lia | constructor | now left].
  - destruct (IH (Z.max v x)) as (H1 & H2 & H3). repeat split.
    + lia.
    + constructor; [lia | exact H2].
    + destruct H3 as [H3|H3]; [|now right; right].
      destruct (Z.max_spec v x) as [[_ E]|[_ E]]; rewrite E in H3; [right; left | left]; congruence.
Qed.

(** X19.  On a table whose rows all have a seen count of at least 1, the
    statistic [max_seen_count] is 0 exactly when the table is empty;
    otherwise it is the seen count of a row, and no row has a greater
    one. *)
Theorem max_seen_count_is_the_maximum (db : database) :
  Forall (fun r => 1 <= seen_count r) (iocs db) ->
  (max_seen_count db = 0 <-> iocs db = []) /\
  Forall (fun r => seen_count r <= max_seen_count db) (iocs db) /\
  (iocs db <> [] -> exists r, In r (iocs db) /\ seen_count r = max_seen_count db).
Proof.
  unfold max_seen_count. destruct (iocs db) as [|r rest]; intros H.
  - repeat split; try constructor; congruence.
  - inversion H as [|? ? Hr Hrest]; subst. cbn [map sql_max].
    destruct (fold_max_ge (map seen_count rest) (seen_count r)) as (H1 & H2 & H3).
    set (m := fold_left Z.max (map seen_count rest) (seen_count r)) in *.
    assert (Hm : (m =? 0) = false) by (apply Z.eqb_neq; lia). rewrite Hm.
    split; [split; [lia | discriminate]|]. split.
    + constructor; [exact H1|]. rewrite List.Forall_map in H2. exact H2.
    + intros _. destruct H3 as [H3|H3].
      * exists r. split; [now left | now symmetry].
      * apply in_map_iff in H3 as (r' & E & Hin). exists r'. split; [now right | exact E].
Qed.

End StatisticsExtras.

(** ** api_ingestion.py: the records of [fetch_malwarebazaar] *)

Module IngestionExtras.

Import PyStr PyStrFacts IoCNormalizer CTIDatabase StoreNotions APIIngestion.
Import StoreFacts NormalizerExtras StoreExtras.


Lemma slice_to_length {A : Type} (limit : Z) (l : list A) :
  0 <= limit -> Z.of_nat (length (slice_to limit l)) <= limit.
Proof.
  intros H. unfold slice_to. destruct (Z.leb_spec 0 limit); [|lia].
  pose proof (firstn_le_length (Z.to_nat limit) l). lia.
Qed.


Section WithPlatform.

Context `{platform : IpAddress}.

Lemma normalize_hashes_spec (clock : nat -> string) (k : nat) (hashes : list string)
    (ioc : pydict) :
  In ioc (normalize_hashes clock k hashes) ->
  exists h j,
    In h hashes /\
    ioc = IoCRecord.normalize_ioc (clock j) h "MalwareBazaar" "very_high" "high" empty_dict.
Proof.
  revert k. induction hashes as [|h rest IH]; intros k; [intros []|].
  cbn [normalize_hashes]. intros [<-|H].
  - exists h, k. split; [now left | reflexivity].
  - destruct (IH _ H) as (h' & j & Hin & E). exists h', j. split; [now right | exact E].
Qed.


Lemma length_normalize_hashes (clock : nat -> string) (k : nat) (hashes : list string) :
  length (normalize_hashes clock k hashes) = length hashes.
Proof. revert k. induction hashes as [|h rest IH]; intros k; simpl; congruence. Qed.

Lemma fetch_malwarebazaar_normalized (clock : nat -> string) (response : string + string)
    (limit : Z) :
  Forall (fun ioc => exists i ty collected_at,
            is_normalized ioc i ty "MalwareBazaar" "very_high" "high" "{}" collected_at)
    (fetch_malwarebazaar clock response limit).
Proof.
  apply List.Forall_forall. intros ioc H. destruct response as [e|text]; [destruct H|].
  cbn [fetch_malwarebazaar] in H.
  destruct (normalize_hashes_spec _ _ _ _ H) as (h & j & _ & ->).
  eexists _, _, _. now apply normalize_ioc_is_normalized.
Qed.

(** X20.  Whatever the answer of the feed is, [fetch_malwarebazaar] gives
    normalized records only, each with the source [MalwareBazaar], the
    confidence [very_high], the threat level [high] and empty metadata; it
    gives none when the request failed, and no more than [limit] when
    [limit] is not negative. *)
Theorem fetch_malwarebazaar_records (clock : nat -> string) (response : string + string)
    (limit : Z) :
  Forall (fun ioc => exists i ty collected_at,
            is_normalized ioc i ty "MalwareBazaar" "very_high" "high" "{}" collected_at)
    (fetch_malwarebazaar clock response limit)
  /\ (0 <= limit -> Z.of_nat (length (fetch_malwarebazaar clock response limit)) <= limit)
  /\ (forall e, response = inl e -> fetch_malwarebazaar clock response limit = []).
Proof.
  split; [|split].
  - apply fetch_malwarebazaar_normalized.
  - intros Hl. destruct response as [e|text]; cbn [fetch_malwarebazaar]; [simpl; lia|].
    rewrite length_normalize_hashes. unfold parse_hashes. now apply slice_to_length.
  - now intros e ->.
Qed.


(** X22.  The records of [fetch_malwarebazaar] are stored without an
    error on a table that can take that many sightings (the last seen of
    every row is a text, and no seen count would pass the largest integer
    of SQLite): the upsert of what it gives returns, with [errors] at zero
    and every record counted as new or as updated. *)
Theorem fetch_malwarebazaar_is_stored (clock : nat -> string) (response : string + string)
    (limit : Z) (db : database) :
  takes (length (fetch_malwarebazaar clock response limit)) (iocs db) ->
  exists st db',
    insert_or_update_iocs db (fetch_malwarebazaar clock response limit) = Returned st db' /\
    errors st = 0 /\
    new st + updated st = Z.of_nat (length (fetch_malwarebazaar clock response limit)).
Proof.
  intros Ht.
  assert (H : Forall normalized (fetch_malwarebazaar clock response limit)).
  { eapply List.Forall_impl; [|exact (fetch_malwarebazaar_normalized clock response limit)].
    intros ioc (i & ty & collected_at & Hn). eexists.
    exact (BatchFacts.is_normalized_sighting_of _ _ _ _ _ _ _ _ Hn). }
  destruct (normalized_batch_returns db _ H Ht) as (st & db' & H1 & H2 & _ & H4).
  now exists st, db'.
Qed.

End WithPlatform.

End IngestionExtras.

(** ** More of the pipeline *)

Module PipelineExtras.

Import PyStr PyStrFacts IoCNormalizer IoCRecord CTIDatabase CTIScheduler StoreNotions
  APIIngestion.
Import NormalizerTheorems StoreFacts BatchFacts CycleFacts.

(** X1.  On a platform with the stated properties of IP literals, the
    record that [normalize_ioc] builds passes [validate_ioc], its type is
    the type detected for its indicator, and its key does not change when
    its indicator is normalized again: the stored form of an indicator, fed
    back, is the same indicator of the same type. *)
Theorem normalize_ioc_key_stable `{platform : IpAddress}
    (now now' raw src src' conf conf' thr thr' : string) (metadata metadata' : pyval) :
  IpAddressLaws platform ->
  let ioc := normalize_ioc now raw src conf thr metadata in
  validate_ioc ioc = true /\
  ioc_key ioc = Some (normalize_indicator raw, detect_type (normalize_indicator raw)) /\
  ioc_key (normalize_ioc now' (normalize_indicator raw) src' conf' thr' metadata') = ioc_key ioc.
Proof.
  intros laws ioc. split; [reflexivity|]. split; [reflexivity|].
  unfold ioc, ioc_key, normalize_ioc.
  change (Some (normalize_indicator (normalize_indicator raw),
                detect_type (normalize_indicator (normalize_indicator raw)))
          = Some (normalize_indicator raw, detect_type (normalize_indicator raw))).
  now rewrite (proj2 (normalize_indicator_fixed laws raw)).
Qed.

(** X23.  The list that a run hands to the store is what the fetches that
    succeeded gave, in the order of the feeds (the OTX domains in the order
    of the configuration, then AbuseIPDB, then MalwareBazaar) and, within a
    feed, in the order of its answer; it is empty when [Config()] raises. *)
Theorem collected_in_feed_order (c : collaborators) :
  fst (collect c) = successful_items c /\
  (forall e, Config c = inl e -> fst (collect c) = []).
Proof.
  split; [apply collect_successful_items|].
  intros e E. rewrite collect_successful_items. unfold successful_items. now rewrite E.
Qed.

Lemma for_each_ioc_aborts (before after : list pydict) (bad : pydict) (t : list ioc_row)
    (st : stats) :
  Forall has_indicator before ->
  bad !! "indicator" = None ->
  for_each_ioc (before ++ bad :: after) t st =
  (Raise (KeyError "indicator"), table_after before t st,
   incr_errors (incr_processed (stats_after before t st))).
Proof.
  unfold table_after, stats_after. intros H Hbad. revert t st.
  induction H as [|ioc rest Hi _ IH]; intros t st.
  - cbn [app for_each_ioc]. unfold upsert, getitem. rewrite Hbad. reflexivity.
  - cbn [app for_each_ioc]. unfold has_indicator, dict_contains in Hi. unfold getitem.
    destruct (ioc !! "indicator"); [|discriminate].
    destruct (upsert t ioc) as [[t' []]|e]; apply IH.
Qed.

(** X24.  A batch is left by an exception at its first record without the
    key [indicator]: the exception is [KeyError('indicator')], the records
    before it have been applied to the table as seen through the
    connection, and the records after it are not looked at. *)
Theorem batch_aborts_at_first_record_without_indicator (before after : list pydict)
    (bad : pydict) (db : database) :
  Forall has_indicator before ->
  bad !! "indicator" = None ->
  insert_or_update_iocs db (before ++ bad :: after) =
  Raised (KeyError "indicator") (with_iocs db (table_after before (iocs db) zero_stats)).
Proof.
  intros H Hbad. unfold insert_or_update_iocs.
  now rewrite (for_each_ioc_aborts before after bad (iocs db) zero_stats H Hbad).
Qed.



End PipelineExtras.

(** ** The further properties at the sample data *)

Module MoreSampleFacts.

Import PyStr IoCNormalizer IoCRecord CTIDatabase CTIScheduler CTIStatistics APIIngestion.
Import StoreNotions CycleNotions Samples MoreSamples.
Import StoreFacts BatchFacts CycleFacts SampleFacts.
Import NormalizerExtras StoreExtras CycleExtras StatisticsExtras IngestionExtras PipelineExtras.

Lemma normalize_ioc_key_stable_witness :
  IpAddressLaws IPv4.platform /\
  ioc_key (normalize_ioc (platform := IPv4.platform) "2024-02-01T00:00:00"
             (normalize_indicator (platform := IPv4.platform) " Example.COM ")
             "OtherFeed" "low" "high" PyNone)
  = ioc_key (normalize_ioc (platform := IPv4.platform) "2024-01-01T00:00:00" " Example.COM "
               "TestFeed" "high" "medium" PyNone).
Proof.
  split; [exact IPv4Facts.ipv4_laws|].
  exact (proj2 (proj2 (normalize_ioc_key_stable (platform := IPv4.platform)
                         "2024-01-01T00:00:00" "2024-02-01T00:00:00" " Example.COM "
                         "TestFeed" "OtherFeed" "high" "low" "medium" "high" PyNone PyNone
                         IPv4Facts.ipv4_laws))).
Defined.

Lemma hash_canonical_witness :
  ip_literal_has_separator IPv4.platform /\
  all_chars is_hexdigit sample_digest = true /\
  normalize_indicator (platform := IPv4.platform) sample_digest = lower sample_digest /\
  detect_type (platform := IPv4.platform)
    (normalize_indicator (platform := IPv4.platform) sample_digest) = "Hash".
Proof.
  pose proof (law_separator _ IPv4Facts.ipv4_laws) as Hsep.
  assert (Hhex : all_chars is_hexdigit sample_digest = true) by (vm_compute; reflexivity).
  split; [exact Hsep|]. split; [exact Hhex|].
  exact (hash_canonical (platform := IPv4.platform) sample_digest Hsep Hhex
           (or_intror (or_intror eq_refl))).
Defined.

Lemma url_canonical_witness :
  ip_literal_first_char IPv4.platform /\
  is_url " https://Example.COM/Path " = true /\
  detect_type (platform := IPv4.platform) " https://Example.COM/Path " = "URL" /\
  normalize_indicator (platform := IPv4.platform) " https://Example.COM/Path "
  = "https://example.com/path".
Proof.
  pose proof (law_first_char _ IPv4Facts.ipv4_laws) as Hfirst.
  assert (Hurl : is_url " https://Example.COM/Path " = true) by (vm_compute; reflexivity).
  split; [exact Hfirst|]. split; [exact Hurl|].
  destruct (url_canonical (platform := IPv4.platform) _ Hfirst Hurl) as (H1 & H2 & _).
  split; [exact H1|]. rewrite H2. vm_compute. reflexivity.
Defined.

Lemma ip_literal_canonical_witness :
  IpAddressLaws IPv4.platform /\
  ip_address (IpAddress := IPv4.platform) (strip " 203.0.113.5 ") = Some [203; 0; 113; 5]%N /\
  detect_type (platform := IPv4.platform) " 203.0.113.5 " = "IP" /\
  normalize_indicator (platform := IPv4.platform) " 203.0.113.5 " = "203.0.113.5".
Proof.
  assert (E : ip_address (IpAddress := IPv4.platform) (strip " 203.0.113.5 ")
              = Some [203; 0; 113; 5]%N) by (vm_compute; reflexivity).
  split; [exact IPv4Facts.ipv4_laws|]. split; [exact E|].
  destruct (ip_literal_canonical (platform := IPv4.platform) _ _ IPv4Facts.ipv4_laws E)
    as (H1 & H2 & _).
  split; [exact H1|]. rewrite H2. vm_compute. reflexivity.
Defined.

Lemma blank_is_unknown_witness :
  ip_literal_first_char IPv4.platform /\
  strip "   " = EmptyString /\
  detect_type (platform := IPv4.platform) "   " = "Unknown" /\
  normalize_indicator (platform := IPv4.platform) "   " = EmptyString.
Proof.
  pose proof (law_first_char _ IPv4Facts.ipv4_laws) as Hfirst.
  split; [exact Hfirst|]. split; [reflexivity|].
  exact (blank_is_unknown (platform := IPv4.platform) "   " Hfirst eq_refl).
Defined.

Lemma canonical_form_trimmed_witness :
  IpAddressLaws IPv4.platform /\
  strip (normalize_indicator (platform := IPv4.platform) "  Example.COM  ")
  = normalize_indicator (platform := IPv4.platform) "  Example.COM  ".
Proof.
  split; [exact IPv4Facts.ipv4_laws|].
  exact (canonical_form_trimmed (platform := IPv4.platform) _ IPv4Facts.ipv4_laws).
Defined.

Lemma canonical_form_ignores_case_witness :
  IpAddressLaws IPv4.platform /\
  is_url "Example.COM" || is_domain (platform := IPv4.platform) "Example.COM"
  || is_hash "Example.COM" = true /\
  normalize_indicator (platform := IPv4.platform) (lower "Example.COM")
  = normalize_indicator (platform := IPv4.platform) "Example.COM".
Proof.
  assert (H : is_url "Example.COM" || is_domain (platform := IPv4.platform) "Example.COM"
              || is_hash "Example.COM" = true) by (vm_compute; reflexivity).
  split; [exact IPv4Facts.ipv4_laws|]. split; [exact H|].
  exact (canonical_form_ignores_case (platform := IPv4.platform) _ IPv4Facts.ipv4_laws H).
Defined.

Lemma unstorable_record_is_an_error_witness :
  has_indicator no_source /\
  unstorable no_source /\
  for_each_ioc [no_source; first_sighting] [] zero_stats =
  for_each_ioc [first_sighting] [] (incr_errors (incr_processed zero_stats)).
Proof.
  assert (Hi : has_indicator no_source) by reflexivity.
  assert (Hu : unstorable no_source).
  { left. exists "source". split; [simpl; tauto | reflexivity]. }
  split; [exact Hi|]. split; [exact Hu|].
  exact (proj2 (proj2 (unstorable_record_is_an_error no_source [first_sighting] [] zero_stats
                         Hi Hu))).
Defined.


Lemma full_counter_is_an_error_witness :
  is_normalized first_sighting "203.0.113.5" "IP" "TestFeed" "high" "medium" "{}"
    "2024-01-02T00:00:00" /\
  find_row counted_out "203.0.113.5" "IP" = Some counted_out_row /\
  ((forall s, last_seen counted_out_row <> Text s) \/ max_int64 <= seen_count counted_out_row) /\
  for_each_ioc [first_sighting] counted_out zero_stats =
  (Ok tt, counted_out, {| processed := 1; new := 0; updated := 0; errors := 1 |}).
Proof.
  assert (Hf : find_row counted_out "203.0.113.5" "IP" = Some counted_out_row)
    by (vm_compute; reflexivity).
  assert (Hfull : (forall s, last_seen counted_out_row <> Text s)
                  \/ max_int64 <= seen_count counted_out_row) by (right; cbn; lia).
  split; [exact first_sighting_normalized|]. split; [exact Hf|]. split; [exact Hfull|].
  exact (proj1 (proj2 (full_counter_is_an_error first_sighting [] counted_out zero_stats
                         _ _ _ _ _ _ _ _ first_sighting_normalized Hf Hfull))).
Defined.


Lemma existing_rows_kept_witness :
  exists r',
    find_row (table_after [older_sighting; unserializable] one_row_table zero_stats)
      "203.0.113.5" "IP" = Some r' /\
    first_seen r' = Text "2024-01-02T00:00:00" /\
    textval_le (Text "2024-01-02T00:00:00") (last_seen r') = true /\
    1 <= seen_count r'.
Proof.
  exact (existing_rows_kept [older_sighting; unserializable] one_row_table zero_stats
           "203.0.113.5" "IP" _ eq_refl).
Defined.






Lemma one_error_per_failure_witness :
  exists r db',
    run_collection one_feed_up empty_database = Returned r db' /\
    length (cycle_errors r) = 3%nat.
Proof.
  destruct (run_collection one_feed_up empty_database) as [r db'|e db'] eqn:E.
  - exists r, db'. split; [reflexivity|].
    rewrite (one_error_per_failure one_feed_up empty_database db' r E). reflexivity.
  - vm_compute in E. discriminate E.
Defined.

Lemma one_feed_up_has_indicators : Forall has_indicator (successful_items one_feed_up).
Proof. repeat constructor. Qed.

Lemma successful_run_logs_once_witness :
  Forall has_indicator (successful_items one_feed_up) /\
  successful_items one_feed_up <> [] /\
  exists r db',
    run_collection one_feed_up empty_database = Returned r db' /\
    Forall (fun entry => status entry = "error" /\ log_source entry = "CTI_Collector")
      (collection_logs db') /\
    length (collection_logs db') = 1%nat /\
    processed (cycle_stats r) = 2.
Proof.
  assert (Hne : successful_items one_feed_up <> []) by discriminate.
  split; [exact one_feed_up_has_indicators|]. split; [exact Hne|].
  destruct (successful_run_logs_once one_feed_up empty_database one_feed_up_has_indicators Hne)
    as (r & db' & errs & Hrun & Hlog & _ & Htotal & Hp).
  exists r, db'. split; [exact Hrun|]. rewrite Hlog. split; [|split].
  - constructor; [|constructor]. split; reflexivity.
  - reflexivity.
  - rewrite Hp, Htotal. reflexivity.
Defined.

Lemma success_rate_adds_up_witness :
  logs_ok empty_database /\
  rate_total (collection_success_rate (outcome_db (run_collection one_feed_up empty_database)))
  = collection_runs (outcome_db (run_collection one_feed_up empty_database)).
Proof.
  assert (H : logs_ok empty_database) by constructor.
  split; [exact H|].
  exact (proj2 (proj2 (success_rate_adds_up one_feed_up empty_database H))).
Defined.

Lemma max_seen_count_is_the_maximum_witness :
  Forall (fun r => 1 <= seen_count r) (iocs one_row_database) /\
  (max_seen_count one_row_database = 0 <-> iocs one_row_database = []).
Proof.
  assert (H : Forall (fun r => 1 <= seen_count r) (iocs one_row_database)).
  { constructor; [simpl; lia | constructor]. }
  split; [exact H|]. exact (proj1 (max_seen_count_is_the_maximum one_row_database H)).
Defined.

Lemma fetch_malwarebazaar_records_witness :
  0 <= 10 /\
  Z.of_nat (length (fetch_malwarebazaar (platform := IPv4.platform) sample_clock
                      (inr sample_export) 10)) <= 10.
Proof.
  assert (H : 0 <= 10) by lia. split; [exact H|].
  exact (proj1 (proj2 (fetch_malwarebazaar_records (platform := IPv4.platform) sample_clock
                         (inr sample_export) 10)) H).
Defined.



Lemma fetch_malwarebazaar_is_stored_witness :
  takes (length (fetch_malwarebazaar (platform := IPv4.platform) sample_clock
                   (inr sample_export) 10))
    (iocs one_row_database) /\
  exists st db',
    insert_or_update_iocs one_row_database
      (fetch_malwarebazaar (platform := IPv4.platform) sample_clock (inr sample_export) 10)
    = Returned st db' /\
    errors st = 0 /\ new st + updated st = 1.
Proof.
  assert (H : takes (length (fetch_malwarebazaar (platform := IPv4.platform) sample_clock
                               (inr sample_export) 10))
                (iocs one_row_database)).
  { split; [vm_compute; discriminate|]. constructor; [|constructor].
    split; [eexists; reflexivity|]. split; vm_compute; discriminate. }
  split; [exact H|].
  exact (fetch_malwarebazaar_is_stored (platform := IPv4.platform) sample_clock
           (inr sample_export) 10 one_row_database H).
Defined.

Lemma collected_in_feed_order_witness :
  Config no_config = inl "Permission denied" /\ fst (collect no_config) = [].
Proof.
  split; [reflexivity|].
  exact (proj2 (collected_in_feed_order no_config) "Permission denied" eq_refl).
Defined.

Lemma batch_aborts_at_first_record_without_indicator_witness :
  Forall has_indicator [first_sighting] /\
  no_indicator !! "indicator" = None /\
  insert_or_update_iocs empty_database ([first_sighting] ++ no_indicator :: [older_sighting]) =
  Raised (KeyError "indicator")
    {| iocs := one_row_table; collection_logs := [] |}.
Proof.
  assert (H : Forall has_indicator [first_sighting]) by (repeat constructor).
  split; [exact H|]. split; [reflexivity|].
  rewrite (batch_aborts_at_first_record_without_indicator [first_sighting] [older_sighting]
             no_indicator empty_database H eq_refl).
  vm_compute. reflexivity.
Defined.

End MoreSampleFacts.
